(** * nodeshot: the legacy importer and the CitySDK Mobility synchronizer

    A shallow embedding of
    - [nodeshot/interoperability/synchronizers/CitySdkMobility.py]
      (module [CitySdk]) and
    - [nodeshot/extra/oldimporter/management/commands/import_old_nodeshot.py]
      (module [Importer]),
    with the properties of the reconciliation pipeline stated over it. *)

From Stdlib Require Import ZArith Lia Ascii String.
From stdpp Require Import base strings gmap list pretty.

Set Warnings "-register-all".
Open Scope string_scope.
Open Scope Z_scope.

(** ** Python values that cross both modules *)

Module Py.

(** The exceptions the two files raise or let through. *)
Inductive exn : Type :=
| ImproperlyConfigured (msg : string)
| KeyError (key : string)
| IndexError
| TypeError
| ValueError (msg : string)
| AttributeError (msg : string)
| JSONDecodeError (msg : string)
| ConnectionError (msg : string)
| DoesNotExist (model : string)
| ValidationError (msg : string)
| EOFError
| KeyboardInterrupt.

(** [except Exception] catches everything but [KeyboardInterrupt]. *)
Definition is_Exception (e : exn) : bool :=
  match e with KeyboardInterrupt => false | _ => true end.

(** [str(e)], as used by ['%s' % e]. *)
Definition exn_str (e : exn) : string :=
  match e with
  | ImproperlyConfigured m | ValueError m | AttributeError m
  | JSONDecodeError m | ConnectionError m | ValidationError m => m
  | KeyError k => "'" +:+ k +:+ "'"
  | IndexError => "list index out of range"
  | TypeError => "type error"
  | DoesNotExist m => m +:+ " matching query does not exist."
  | EOFError => "EOF when reading a line"
  | KeyboardInterrupt => ""
  end.

Inductive res (A : Type) : Type :=
| Ret (a : A)
| Raise (e : exn).
Arguments Ret {A} a.
Arguments Raise {A} e.

(** Computations over a state [S] that may raise; the state written
    before a [raise] is kept, as a Python object keeps its mutations. *)
Definition M (S A : Type) : Type := S → res A * S.

Definition ret {S A} (a : A) : M S A := λ s, (Ret a, s).
Definition raise {S A} (e : exn) : M S A := λ s, (Raise e, s).
Definition bind {S A B} (m : M S A) (k : A → M S B) : M S B :=
  λ s, match m s with
       | (Ret a, s') => k a s'
       | (Raise e, s') => (Raise e, s')
       end.
Definition get {S} : M S S := λ s, (Ret s, s).
Definition gets {S A} (f : S → A) : M S A := λ s, (Ret (f s), s).
Definition modify {S} (f : S → S) : M S unit := λ s, (Ret tt, f s).
Definition lift {S A} (r : res A) : M S A := λ s, (r, s).

(** [try: m  except <sel>: h], [sel e = true] for the exceptions the
    clause names. *)
Definition try_except {S A} (m : M S A) (sel : exn → bool) (h : exn → M S A) : M S A :=
  λ s, match m s with
       | (Ret a, s') => (Ret a, s')
       | (Raise e, s') => if sel e then h e s' else (Raise e, s')
       end.

(** [for x in xs: body], stopping at the first exception. *)
Fixpoint for_each {S A} (xs : list A) (body : A → M S unit) : M S unit :=
  match xs with
  | [] => ret tt
  | x :: xs' => bind (body x) (λ _, for_each xs' body)
  end.

(** A loop that carries a local accumulator, lost when the body raises. *)
Fixpoint foldM {S A B} (f : B → A → M S B) (acc : B) (xs : list A) : M S B :=
  match xs with
  | [] => ret acc
  | x :: xs' => bind (f acc x) (λ acc', foldM f acc' xs')
  end.

(** JSON documents ([simplejson] values). *)
Inductive json : Type :=
| JNull
| JBool (b : bool)
| JNum (z : Z)
| JStr (s : string)
| JArr (l : list json)
| JObj (l : list (string * json)).

(** [d[k]] on a decoded document. *)
Definition json_getitem (d : json) (k : string) : res json :=
  match d with
  | JObj l =>
      match list_find (λ kv, kv.1 = k) l with
      | Some (_, (_, v)) => Ret v
      | None => Raise (KeyError k)
      end
  | _ => Raise TypeError
  end.

(** A string holds the UTF-8 bytes of a text: a character is a byte that
    is no continuation byte ([10xxxxxx]) with the continuation bytes that
    follow it. *)
Definition is_continuation (c : ascii) : bool :=
  let n := nat_of_ascii c in (128 <=? n)%nat && (n <=? 191)%nat.

(** The continuation bytes a string starts with. *)
Fixpoint continuation (s : string) : string :=
  match s with
  | String c s' => if is_continuation c then String c (continuation s') else EmptyString
  | EmptyString => EmptyString
  end.

(** [d[0]]: the first element of a list, the first character of a
    string. *)
Definition json_first (d : json) : res json :=
  match d with
  | JArr (x :: _) => Ret x
  | JArr [] => Raise IndexError
  | JStr (String c s) => Ret (JStr (String c (continuation s)))
  | JStr EmptyString => Raise IndexError
  | JObj _ => Raise (KeyError "0")
  | _ => Raise TypeError
  end.

(** The double quote, and a text between double quotes. *)
Definition dq : string := String (ascii_of_nat 34) EmptyString.
Definition quoted (s : string) : string := dq +:+ s +:+ dq.

(** Truth value of a string field that may be NULL. *)
Definition truthy (s : option string) : bool :=
  match s with Some (String _ _) => true | _ => false end.

End Py.

Export Py.

Notation "'do' x <- m ; k" := (bind m (λ x, k))
  (at level 10, x name, m at level 100, k at level 200).
Notation "'run' m ; k" := (bind m (λ _, k))
  (at level 10, m at level 100, k at level 200).

(** ** [CitySdkMobility.py]: the synchronizer adapter *)

Module CitySdk.

(** What [convert_format] reads of a node.  [geometry] stands for
    [json.loads(node.geometry.json)], the GeoJSON document of the point,
    [elev] for the elevation (a number that is falsy when zero) and
    [full_name] for [user.get_full_name()]. *)
Record Status := { status_slug : string }.
Record User := { full_name : string }.
Record External := { external_id : string }.
Record Node := {
  name : string;
  slug : string;
  status : option Status;
  description : option string;
  address : option string;
  elev : option Z;
  user : option User;
  geometry : json;
  data : option (gmap string json);
  external : option External
}.

Definition set_data (d : option (gmap string json)) (n : Node) : Node :=
  {| name := name n; slug := slug n; status := status n;
     description := description n; address := address n; elev := elev n;
     user := user n; geometry := geometry n; data := d;
     external := external n |}.

(** [self.config]; [verify_SSL] is the one optional key. *)
Record Config := {
  citysdk_url_cfg : string;
  citysdk_layer : string;
  citysdk_username : string;
  citysdk_password : string;
  verify_SSL : option bool
}.

(** The ["data"] entry of an envelope: [data = node.data or {}] is the
    node's own dictionary when that one is non-empty, a new one otherwise. *)
Inductive DataRef :=
| NodeData
| Fresh (d : gmap string json).

Record NodeEntry := {
  ne_name : string;
  ne_geom : json;
  ne_data : DataRef;
  ne_id : option string;
  ne_cdk_id : option string
}.

Record Envelope := {
  create_type : string;
  srid : Z;
  nodes : list NodeEntry
}.

Record Response := { status_code : Z; content : string }.

Inductive request :=
| GET (url : string) (verify : bool) (x_auth : option json)
| PUT (url : string) (body : Envelope) (verify : bool) (x_auth : json)
| DELETE (url : string) (verify : bool) (x_auth : json).

(** The provider and the JSON library: [send] is [requests.get/put/delete]
    ([Raise] is a transport failure), [loads] is [json.loads] ([None]
    when the text is no JSON document), [repr] is the text Python writes
    for a decoded list or dictionary. *)
Record Remote := {
  send : request → res Response;
  loads : string → option json;
  repr : json → string
}.

Inductive event :=
| Verbose (msg : string)
| LogInfo (msg : string)
| LogError (msg : string)
| Print (text : string)
| Sent (r : request).

(** The node object the caller passed, and what the call has written
    and sent so far. *)
Record Heap := { node : Node; log : list event }.

Definition emit (ev : event) : M Heap unit :=
  modify (λ h, {| node := node h; log := log h ++ [ev] |}).
Definition write_data (d : gmap string json) : M Heap unit :=
  modify (λ h, {| node := set_data (Some d) (node h); log := log h |}).

Fixpoint ends_with_slash (s : string) : bool :=
  match s with
  | "" => false
  | String c "" => if decide (c = "/"%char) then true else false
  | String _ s' => ends_with_slash s'
  end.

Section adapter.
Context (config : Config) (remote : Remote).

(** [_init_config]: add the trailing slash if missing. *)
Definition citysdk_url : string :=
  if ends_with_slash (citysdk_url_cfg config) then citysdk_url_cfg config
  else citysdk_url_cfg config +:+ "/".

Definition verify : bool := default true (verify_SSL config).

Definition request_ (r : request) : M Heap Response :=
  run emit (Sent r);
  lift (send remote r).

Definition json_loads (text : string) : res json :=
  match loads remote text with
  | Some d => Ret d
  | None => Raise (JSONDecodeError "No JSON object could be decoded")
  end.

(** ['%s' % value] for a decoded value. *)
Definition format_value (value : json) : string :=
  match value with
  | JStr s => s
  | JNum z => pretty z
  | JBool true => "True"
  | JBool false => "False"
  | JNull => "None"
  | JArr _ | JObj _ => repr remote value
  end.

Definition get_session : M Heap json :=
  run emit (Verbose "Authenticating to CitySDK");
  run emit (LogInfo "== Authenticating to CitySDK ==");
  let authentication_url :=
    citysdk_url +:+ "get_session?e=" +:+ citysdk_username config
                +:+ "&p=" +:+ citysdk_password config in
  do response <-
    try_except (request_ (GET authentication_url verify None)) is_Exception
      (λ e, let message := "API Authentication Error: " +:+ quoted (exn_str e) in
            run emit (LogError message);
            raise (ImproperlyConfigured message));
  if decide (status_code response ≠ 200) then
    let message :=
      match (match json_loads (content response) with
             | Ret d => json_getitem d "message"
             | Raise e => Raise e
             end) with
      | Ret value => "API Authentication Error: " +:+ quoted (format_value value)
      | Raise _ => "API Authentication Error: " +:+ quoted (content response)
      end in
    run emit (LogError message);
    raise (ImproperlyConfigured message)
  else
    do d <- lift (json_loads (content response));
    do results <- lift (json_getitem d "results");
    lift (json_first results).

Definition release_url : string := citysdk_url +:+ "release_session".

Definition release_session (session : json) : M Heap bool :=
  do response <- request_ (GET release_url verify (Some session));
  run emit (Print (content response));
  if decide (status_code response = 200) then ret true else ret false.

(** [clean]: verify authentication works. *)
Definition clean : M Heap unit :=
  do session <- get_session;
  run release_session session;
  ret tt.

(** Lines 108-112: the attributes present on the node are written
    into the dictionary. *)
Definition fill_data (n : Node) (d0 : gmap string json) : gmap string json :=
  let d1 := match status n with
            | Some s => <["status" := JStr (status_slug s)]> d0
            | None => d0
            end in
  let d2 := if truthy (description n)
            then <["description" := JStr (default "" (description n))]> d1
            else d1 in
  let d3 := if truthy (address n)
            then <["address" := JStr (default "" (address n))]> d2
            else d2 in
  let d4 := match elev n with
            | Some z => if decide (z = 0) then d3 else <["elevation" := JNum z]> d3
            | None => d3
            end in
  match user n with
  | Some u => <["owner" := JStr (full_name u)]> d4
  | None => d4
  end.

(** [node.data or {}] yields the node's own dictionary unless it is
    [None] or empty. *)
Definition data_shared (n : Node) : bool :=
  match data n with
  | Some d => negb (bool_decide (d = ∅))
  | None => false
  end.

Definition convert_format (create_type : string) : M Heap Envelope :=
  do n <- gets node;
  let shared := data_shared n in
  let data := fill_data n (if shared then default ∅ (data n) else ∅) in
  run (if shared then write_data data else ret tt);
  let entry i c := {| ne_name := name n; ne_geom := geometry n;
                      ne_data := if shared then NodeData else Fresh data;
                      ne_id := i; ne_cdk_id := c |} in
  let result e := {| create_type := create_type; srid := 4326; nodes := [e] |} in
  if decide (create_type = "create") then
    ret (result (entry (Some (slug n)) None))
  else if decide (create_type = "update") then
    match external n with
    | Some x => ret (result (entry None (Some (external_id x))))
    | None => raise (DoesNotExist "NodeExternal")
    end
  else ret (result (entry None None)).

(** The dictionary an envelope entry shows when read in heap [h]. *)
Definition entry_data (h : Heap) (e : NodeEntry) : gmap string json :=
  match ne_data e with
  | NodeData => default ∅ (data (node h))
  | Fresh d => d
  end.

(** [json.dumps(citysdk_record)]: the document as it reads when sent. *)
Definition dumps (h : Heap) (e : Envelope) : Envelope :=
  {| create_type := create_type e; srid := srid e;
     nodes := (λ x, {| ne_name := ne_name x; ne_geom := ne_geom x;
                       ne_data := Fresh (entry_data h x);
                       ne_id := ne_id x; ne_cdk_id := ne_cdk_id x |}) <$> nodes e |}.

Definition nodes_url : string := citysdk_url +:+ "nodes/" +:+ citysdk_layer config.

(** [add], and [change] with [kind := "update"]: the two bodies differ in
    the conversion mode and in the messages only. *)
Definition upsert (kind err_prefix ok_message : string)
    (decode_error : exn → string) : M Heap bool :=
  do session <- get_session;
  do citysdk_record <- convert_format kind;
  do h <- get;
  do response <- request_ (PUT nodes_url (dumps h citysdk_record) verify session);
  run emit (Print (content response));
  run release_session session;
  if decide (status_code response ≠ 200) then
    run emit (LogError (err_prefix +:+ content response));
    ret false
  else
    match json_loads (content response) with
    | Raise e =>
        run emit (LogError (decode_error e));
        ret false
    | Ret _ =>
        run emit (Verbose ok_message);
        run emit (LogInfo ok_message);
        ret true
    end.


Definition change : M Heap bool :=
  do n <- gets node;
  upsert "update"
    ("ERROR while updating record " +:+ quoted (name n) +:+ " through CitySDK API" +:+ "
")
    ("Updated record " +:+ quoted (name n) +:+ " through the CitySDK HTTP API")
    exn_str.

Definition delete_url (external_id : string) : string :=
  citysdk_url +:+ external_id +:+ "/" +:+ citysdk_layer config
              +:+ "?delete_node=true".

Definition delete (external_id : string) : M Heap bool :=
  do session <- get_session;
  let citysdk_api_url := delete_url external_id in
  do response <- request_ (DELETE citysdk_api_url verify session);
  run release_session session;
  if decide (status_code response ≠ 200) then
    let message := "Failed to delete a record through the CitySDK HTTP API" in
    run emit (Verbose message);
    run emit (LogInfo message);
    ret false
  else
    let message := "Deleted a record through the CitySDK HTTP API" in
    run emit (Verbose message);
    run emit (LogInfo message);
    ret true.

(** Release requests in a log. *)
Definition is_release (ev : event) : bool :=
  match ev with
  | Sent (GET url _ (Some _)) => bool_decide (url = release_url)
  | _ => false
  end.
Definition releases (l : list event) : nat := length (List.filter is_release l).

Definition is_error (ev : event) : bool :=
  match ev with LogError _ => true | _ => false end.


End adapter.

(** *** Names for what the calls write and send *)

(** The URL of the authentication request (lines 58-62). *)
Definition authentication_url (config : Config) : string :=
  citysdk_url config +:+ "get_session?e=" +:+ citysdk_username config
              +:+ "&p=" +:+ citysdk_password config.

(** What [get_session] writes and sends before it reads the answer. *)
Definition authenticating (config : Config) : list event :=
  [Verbose "Authenticating to CitySDK"; LogInfo "== Authenticating to CitySDK ==";
   Sent (GET (authentication_url config) (verify config) None)].

(** The keys [convert_format] writes (lines 108-112). *)
Definition attribute_keys : list string :=
  ["status"; "description"; "address"; "elevation"; "owner"].

End CitySdk.

(** ** Python string methods used by the importer *)

Module Str.

Definition is_upper (c : ascii) : bool :=
  let n := nat_of_ascii c in (65 <=? n)%nat && (n <=? 90)%nat.
Definition is_lower (c : ascii) : bool :=
  let n := nat_of_ascii c in (97 <=? n)%nat && (n <=? 122)%nat.
Definition lower_char (c : ascii) : ascii :=
  if is_upper c then ascii_of_nat (nat_of_ascii c + 32) else c.
Definition upper_char (c : ascii) : ascii :=
  if is_lower c then ascii_of_nat (nat_of_ascii c - 32) else c.

Fixpoint map_chars (f : ascii → ascii) (s : string) : string :=
  match s with
  | "" => ""
  | String c s' => String (f c) (map_chars f s')
  end.

(** [s.lower()] *)
Definition lower : string → string := map_chars lower_char.

(** [s.capitalize()] on a text of ASCII letters; the importer takes the
    method itself from its environment ([capitalize] of [Env]). *)
Definition capitalize (s : string) : string :=
  match s with
  | "" => ""
  | String c s' => String (upper_char c) (lower s')
  end.

(** [s.replace(a, b)] for one-character [a] and [b]. *)
Definition replace (a b : ascii) : string → string :=
  map_chars (λ c, if decide (c = a) then b else c).

(** [a in s] for a one-character [a]. *)
Fixpoint contains (a : ascii) (s : string) : bool :=
  match s with
  | "" => false
  | String c s' => if decide (c = a) then true else contains a s'
  end.

(** [s.split(a)]: the pieces between the occurrences of [a]. *)
Fixpoint split (a : ascii) (s : string) : list string :=
  match s with
  | "" => [""]
  | String c s' =>
      if decide (c = a) then "" :: split a s'
      else match split a s' with
           | [] => [String c ""]
           | p :: ps => String c p :: ps
           end
  end.

Fixpoint lstrip (s : string) : string :=
  match s with
  | String c s' => if Ascii.is_space c then lstrip s' else s
  | "" => ""
  end.

(** [s.strip()] *)
Definition strip (s : string) : string :=
  String.rev (lstrip (String.rev (lstrip s))).

(** [len(s)]: the number of characters. *)
Fixpoint len (s : string) : nat :=
  match s with
  | "" => 0%nat
  | String c s' => if is_continuation c then len s' else S (len s')
  end.

(** [s[0:n]]: the first [n] characters, each with its continuation
    bytes. *)
Fixpoint take (n : nat) (s : string) : string :=
  match s with
  | "" => ""
  | String c s' =>
      if is_continuation c then String c (take n s')
      else match n with
           | O => ""
           | S n' => String c (take n' s')
           end
  end.

Fixpoint is_prefix (p s : string) : bool :=
  match p, s with
  | "", _ => true
  | String a p', String b s' => if decide (a = b) then is_prefix p' s' else false
  | _, _ => false
  end.

Fixpoint is_infix (p s : string) : bool :=
  is_prefix p s ||
  match s with
  | "" => false
  | String _ s' => is_infix p s'
  end.

(** The [name__icontains] lookup: case-insensitive containment. *)
Definition icontains (field needle : string) : bool :=
  is_infix (lower needle) (lower field).

End Str.

(** ** [import_old_nodeshot.py]: the legacy importer *)

Module Importer.

(** *** The legacy store (read only) *)

Record OldNode := {
  on_id : Z;
  on_name : string;
  on_slug : string;
  on_owner : string;
  on_email : string;
  on_lat : Z;
  on_lng : Z;
  on_alt : option Z;
  on_description : string;
  on_notes : string;
  on_added : Z;
  on_updated : Z;
  on_status : string;
  on_postal_code : string
}.

Record OldDevice := {
  od_id : Z;
  od_node_id : Z;
  od_name : string;
  od_description : string;
  od_type : string;
  od_cname : string;
  od_routing_protocol : string;
  od_added : Z;
  od_updated : Z
}.

Record OldInterface := {
  oi_id : Z;
  oi_device_id : Z;
  oi_mac_address : string;
  oi_cname : string;
  oi_type : string;
  oi_type_display : string;
  oi_wireless_mode : option string;
  oi_wireless_channel : option string;
  oi_essid : option string;
  oi_bssid : option string;
  oi_ipv4_address : option string;
  oi_ipv6_address : option string;
  oi_added : Z;
  oi_updated : Z
}.

Record OldLink := {
  ol_id : Z;
  ol_from_interface_id : Z;
  ol_to_interface_id : Z;
  ol_sync_tx : Z;
  ol_sync_rx : Z;
  ol_etx : Z;
  ol_dbm : Z;
  ol_hide : bool
}.

Record OldContact := {
  oc_id : Z;
  oc_node_id : Z;
  oc_from_name : string;
  oc_from_email : string;
  oc_message : string;
  oc_ip : string;
  oc_user_agent : string;
  oc_accept_language : string;
  oc_date : Z
}.

Record Legacy := {
  OldNode_objects : list OldNode;
  OldDevice_objects : list OldDevice;
  OldInterface_objects : list OldInterface;
  OldLink_objects : list OldLink;
  OldContact_objects : list OldContact
}.

(** *** The canonical store *)

Record Status := { status_id : Z; status_slug : string }.

(** A zone: [contains lng lat] tells whether the area holds the point. *)
Record Layer := { layer_id : Z; layer_name : string; contains : Z → Z → bool }.

Record User := {
  user_id : option Z;
  username : string;
  password : string;
  first_name : string;
  last_name : string;
  email : string;
  is_active : bool
}.

Definition set_username (v : string) (u : User) : User :=
  {| user_id := user_id u; username := v; password := password u;
     first_name := first_name u; last_name := last_name u; email := email u;
     is_active := is_active u |}.
Definition set_user_id (v : option Z) (u : User) : User :=
  {| user_id := v; username := username u; password := password u;
     first_name := first_name u; last_name := last_name u; email := email u;
     is_active := is_active u |}.

Record EmailAddress := {
  ea_user : option Z;
  ea_email : string;
  ea_verified : bool;
  ea_primary : bool
}.

Record Node := {
  node_id : Z;
  node_user_id : Z;
  node_name : string;
  node_slug : string;
  node_geometry : Z * Z;
  node_elev : option Z;
  node_description : string;
  node_notes : string;
  node_added : Z;
  node_updated : Z;
  node_data : gmap string string;
  node_layer_id : option Z;
  node_status_id : option Z
}.

Definition set_node_layer_id (v : option Z) (n : Node) : Node :=
  {| node_id := node_id n; node_user_id := node_user_id n; node_name := node_name n;
     node_slug := node_slug n; node_geometry := node_geometry n;
     node_elev := node_elev n; node_description := node_description n;
     node_notes := node_notes n; node_added := node_added n;
     node_updated := node_updated n; node_data := node_data n;
     node_layer_id := v; node_status_id := node_status_id n |}.
Definition set_node_data (v : gmap string string) (n : Node) : Node :=
  {| node_id := node_id n; node_user_id := node_user_id n; node_name := node_name n;
     node_slug := node_slug n; node_geometry := node_geometry n;
     node_elev := node_elev n; node_description := node_description n;
     node_notes := node_notes n; node_added := node_added n;
     node_updated := node_updated n; node_data := v;
     node_layer_id := node_layer_id n; node_status_id := node_status_id n |}.
Definition set_node_status_id (v : option Z) (n : Node) : Node :=
  {| node_id := node_id n; node_user_id := node_user_id n; node_name := node_name n;
     node_slug := node_slug n; node_geometry := node_geometry n;
     node_elev := node_elev n; node_description := node_description n;
     node_notes := node_notes n; node_added := node_added n;
     node_updated := node_updated n; node_data := node_data n;
     node_layer_id := node_layer_id n; node_status_id := v |}.

Record Device := {
  device_id : Z;
  device_node_id : Z;
  device_type : string;
  device_name : string;
  device_description : string;
  device_added : Z;
  device_updated : Z;
  device_data : gmap string string
}.

Record RoutingProtocol := { rp_id : Z; rp_name : string }.

(** [INTERFACE_TYPES] and the model classes of [nodeshot.networking.net]. *)
Inductive interface_type := loopback | ethernet | wireless | bridge | virtual | tunnel.
Inductive InterfaceModel := Ethernet | Wireless | Bridge | Tunnel | Interface_.

Global Instance interface_type_eq_dec : EqDecision interface_type.
Proof. solve_decision. Defined.

Record Interface := {
  if_model : InterfaceModel;
  if_id : Z;
  if_device_id : Z;
  if_mac : string;
  if_name : string;
  if_added : Z;
  if_updated : Z;
  if_data : gmap string string;
  if_type : interface_type;
  if_standard : option string;
  if_duplex : option string;
  if_mode : option string;
  if_channel : option string
}.

Definition set_if_type (v : interface_type) (i : Interface) : Interface :=
  {| if_model := if_model i; if_id := if_id i; if_device_id := if_device_id i;
     if_mac := if_mac i; if_name := if_name i; if_added := if_added i;
     if_updated := if_updated i; if_data := if_data i; if_type := v;
     if_standard := if_standard i; if_duplex := if_duplex i; if_mode := if_mode i;
     if_channel := if_channel i |}.

Record Vap := {
  vap_interface_id : Z;
  essid : option string;
  bssid : option string
}.

Record Ip := { ip_interface_id : Z; address : string }.

Record Link := {
  link_id : Z;
  interface_a : Z;
  interface_b : Z;
  link_status : string;
  link_type : string;
  metric_type : string;
  metric_value : Z;
  dbm : Z;
  min_rate : Z;
  max_rate : Z;
  access_level : option Z
}.

Definition set_access_level (v : option Z) (l : Link) : Link :=
  {| link_id := link_id l; interface_a := interface_a l; interface_b := interface_b l;
     link_status := link_status l; link_type := link_type l;
     metric_type := metric_type l; metric_value := metric_value l; dbm := dbm l;
     min_rate := min_rate l; max_rate := max_rate l; access_level := v |}.

(** A contact log entry ([nodeshot.community.mailing.models.Inward]). *)
Record Inward := {
  inward_id : option Z;
  object_id : Z;
  inward_status : Z;
  from_name : string;
  from_email : string;
  message_ : string;
  inward_ip : string;
  user_agent : string;
  accept_language : string;
  inward_added : Z;
  inward_updated : Z
}.

Definition set_inward_id (v : option Z) (c : Inward) : Inward :=
  {| inward_id := v; object_id := object_id c; inward_status := inward_status c;
     from_name := from_name c; from_email := from_email c; message_ := message_ c;
     inward_ip := inward_ip c; user_agent := user_agent c;
     accept_language := accept_language c; inward_added := inward_added c;
     inward_updated := inward_updated c |}.

Record Store := {
  statuses : list Status;
  layers : list Layer;
  users : list User;
  email_addresses : list EmailAddress;
  nodes : list Node;
  devices : list Device;
  routing_protocols : list RoutingProtocol;
  device_routing_protocols : list (Z * Z);
  interfaces : list Interface;
  vaps : list Vap;
  ips : list Ip;
  links : list Link;
  contacts : list Inward;
  next_id : Z
}.
Definition set_users (v : list User) (x : Store) : Store :=
  {| statuses := statuses x; layers := layers x; users := v;
     email_addresses := email_addresses x; nodes := nodes x; devices := devices x;
     routing_protocols := routing_protocols x;
     device_routing_protocols := device_routing_protocols x; interfaces := interfaces x;
     vaps := vaps x; ips := ips x; links := links x; contacts := contacts x;
     next_id := next_id x |}.
Definition set_email_addresses (v : list EmailAddress) (x : Store) : Store :=
  {| statuses := statuses x; layers := layers x; users := users x; email_addresses := v;
     nodes := nodes x; devices := devices x; routing_protocols := routing_protocols x;
     device_routing_protocols := device_routing_protocols x; interfaces := interfaces x;
     vaps := vaps x; ips := ips x; links := links x; contacts := contacts x;
     next_id := next_id x |}.
Definition set_nodes (v : list Node) (x : Store) : Store :=
  {| statuses := statuses x; layers := layers x; users := users x;
     email_addresses := email_addresses x; nodes := v; devices := devices x;
     routing_protocols := routing_protocols x;
     device_routing_protocols := device_routing_protocols x; interfaces := interfaces x;
     vaps := vaps x; ips := ips x; links := links x; contacts := contacts x;
     next_id := next_id x |}.
Definition set_devices (v : list Device) (x : Store) : Store :=
  {| statuses := statuses x; layers := layers x; users := users x;
     email_addresses := email_addresses x; nodes := nodes x; devices := v;
     routing_protocols := routing_protocols x;
     device_routing_protocols := device_routing_protocols x; interfaces := interfaces x;
     vaps := vaps x; ips := ips x; links := links x; contacts := contacts x;
     next_id := next_id x |}.
Definition set_routing_protocols (v : list RoutingProtocol) (x : Store) : Store :=
  {| statuses := statuses x; layers := layers x; users := users x;
     email_addresses := email_addresses x; nodes := nodes x; devices := devices x;
     routing_protocols := v; device_routing_protocols := device_routing_protocols x;
     interfaces := interfaces x; vaps := vaps x; ips := ips x; links := links x;
     contacts := contacts x; next_id := next_id x |}.
Definition set_device_routing_protocols (v : list (Z * Z)) (x : Store) : Store :=
  {| statuses := statuses x; layers := layers x; users := users x;
     email_addresses := email_addresses x; nodes := nodes x; devices := devices x;
     routing_protocols := routing_protocols x; device_routing_protocols := v;
     interfaces := interfaces x; vaps := vaps x; ips := ips x; links := links x;
     contacts := contacts x; next_id := next_id x |}.
Definition set_interfaces (v : list Interface) (x : Store) : Store :=
  {| statuses := statuses x; layers := layers x; users := users x;
     email_addresses := email_addresses x; nodes := nodes x; devices := devices x;
     routing_protocols := routing_protocols x;
     device_routing_protocols := device_routing_protocols x; interfaces := v;
     vaps := vaps x; ips := ips x; links := links x; contacts := contacts x;
     next_id := next_id x |}.
Definition set_vaps (v : list Vap) (x : Store) : Store :=
  {| statuses := statuses x; layers := layers x; users := users x;
     email_addresses := email_addresses x; nodes := nodes x; devices := devices x;
     routing_protocols := routing_protocols x;
     device_routing_protocols := device_routing_protocols x; interfaces := interfaces x;
     vaps := v; ips := ips x; links := links x; contacts := contacts x;
     next_id := next_id x |}.
Definition set_ips (v : list Ip) (x : Store) : Store :=
  {| statuses := statuses x; layers := layers x; users := users x;
     email_addresses := email_addresses x; nodes := nodes x; devices := devices x;
     routing_protocols := routing_protocols x;
     device_routing_protocols := device_routing_protocols x; interfaces := interfaces x;
     vaps := vaps x; ips := v; links := links x; contacts := contacts x;
     next_id := next_id x |}.
Definition set_links (v : list Link) (x : Store) : Store :=
  {| statuses := statuses x; layers := layers x; users := users x;
     email_addresses := email_addresses x; nodes := nodes x; devices := devices x;
     routing_protocols := routing_protocols x;
     device_routing_protocols := device_routing_protocols x; interfaces := interfaces x;
     vaps := vaps x; ips := ips x; links := v; contacts := contacts x;
     next_id := next_id x |}.
Definition set_contacts (v : list Inward) (x : Store) : Store :=
  {| statuses := statuses x; layers := layers x; users := users x;
     email_addresses := email_addresses x; nodes := nodes x; devices := devices x;
     routing_protocols := routing_protocols x;
     device_routing_protocols := device_routing_protocols x; interfaces := interfaces x;
     vaps := vaps x; ips := ips x; links := links x; contacts := v; next_id := next_id x |}.
Definition set_next_id (v : Z) (x : Store) : Store :=
  {| statuses := statuses x; layers := layers x; users := users x;
     email_addresses := email_addresses x; nodes := nodes x; devices := devices x;
     routing_protocols := routing_protocols x;
     device_routing_protocols := device_routing_protocols x; interfaces := interfaces x;
     vaps := vaps x; ips := ips x; links := links x; contacts := contacts x; next_id := v |}.

(** A value of the status mapping: the slug from the settings, the
    status id once [check_status_mapping] has replaced it. *)
Inductive mapped := Slug (s : string) | Id (z : Z).

(** An entry of [users_dict]: [{'owner': ..., 'id': ...}], the id present
    once the user has been saved. *)
Record UserInfo := { owner : string; saved_id : option Z }.

(** *** The command object and the world it runs in *)

Record Command := {
  verbosity : Z;
  status_mapping : option (gmap string mapped);
  default_layer : option Z;
  old_nodes : list OldNode;
  email_set : gset string;
  users_dict : gmap string UserInfo;
  saved_users : list User;
  saved_nodes : list Node;
  saved_devices : list Device;
  routing_protocols_added : list RoutingProtocol;
  saved_interfaces : list Interface;
  saved_vaps : list Vap;
  saved_ipv4 : list Ip;
  saved_ipv6 : list Ip;
  saved_links : list Link;
  saved_contacts : list Inward
}.
Definition set_verbosity (v : Z) (x : Command) : Command :=
  {| verbosity := v; status_mapping := status_mapping x; default_layer := default_layer x;
     old_nodes := old_nodes x; email_set := email_set x; users_dict := users_dict x;
     saved_users := saved_users x; saved_nodes := saved_nodes x;
     saved_devices := saved_devices x;
     routing_protocols_added := routing_protocols_added x;
     saved_interfaces := saved_interfaces x; saved_vaps := saved_vaps x;
     saved_ipv4 := saved_ipv4 x; saved_ipv6 := saved_ipv6 x; saved_links := saved_links x;
     saved_contacts := saved_contacts x |}.
Definition set_status_mapping (v : option (gmap string mapped)) (x : Command) : Command :=
  {| verbosity := verbosity x; status_mapping := v; default_layer := default_layer x;
     old_nodes := old_nodes x; email_set := email_set x; users_dict := users_dict x;
     saved_users := saved_users x; saved_nodes := saved_nodes x;
     saved_devices := saved_devices x;
     routing_protocols_added := routing_protocols_added x;
     saved_interfaces := saved_interfaces x; saved_vaps := saved_vaps x;
     saved_ipv4 := saved_ipv4 x; saved_ipv6 := saved_ipv6 x; saved_links := saved_links x;
     saved_contacts := saved_contacts x |}.
Definition set_old_nodes (v : list OldNode) (x : Command) : Command :=
  {| verbosity := verbosity x; status_mapping := status_mapping x;
     default_layer := default_layer x; old_nodes := v; email_set := email_set x;
     users_dict := users_dict x; saved_users := saved_users x;
     saved_nodes := saved_nodes x; saved_devices := saved_devices x;
     routing_protocols_added := routing_protocols_added x;
     saved_interfaces := saved_interfaces x; saved_vaps := saved_vaps x;
     saved_ipv4 := saved_ipv4 x; saved_ipv6 := saved_ipv6 x; saved_links := saved_links x;
     saved_contacts := saved_contacts x |}.
Definition set_email_set (v : gset string) (x : Command) : Command :=
  {| verbosity := verbosity x; status_mapping := status_mapping x;
     default_layer := default_layer x; old_nodes := old_nodes x; email_set := v;
     users_dict := users_dict x; saved_users := saved_users x;
     saved_nodes := saved_nodes x; saved_devices := saved_devices x;
     routing_protocols_added := routing_protocols_added x;
     saved_interfaces := saved_interfaces x; saved_vaps := saved_vaps x;
     saved_ipv4 := saved_ipv4 x; saved_ipv6 := saved_ipv6 x; saved_links := saved_links x;
     saved_contacts := saved_contacts x |}.
Definition set_users_dict (v : gmap string UserInfo) (x : Command) : Command :=
  {| verbosity := verbosity x; status_mapping := status_mapping x;
     default_layer := default_layer x; old_nodes := old_nodes x; email_set := email_set x;
     users_dict := v; saved_users := saved_users x; saved_nodes := saved_nodes x;
     saved_devices := saved_devices x;
     routing_protocols_added := routing_protocols_added x;
     saved_interfaces := saved_interfaces x; saved_vaps := saved_vaps x;
     saved_ipv4 := saved_ipv4 x; saved_ipv6 := saved_ipv6 x; saved_links := saved_links x;
     saved_contacts := saved_contacts x |}.
Definition set_saved_users (v : list User) (x : Command) : Command :=
  {| verbosity := verbosity x; status_mapping := status_mapping x;
     default_layer := default_layer x; old_nodes := old_nodes x; email_set := email_set x;
     users_dict := users_dict x; saved_users := v; saved_nodes := saved_nodes x;
     saved_devices := saved_devices x;
     routing_protocols_added := routing_protocols_added x;
     saved_interfaces := saved_interfaces x; saved_vaps := saved_vaps x;
     saved_ipv4 := saved_ipv4 x; saved_ipv6 := saved_ipv6 x; saved_links := saved_links x;
     saved_contacts := saved_contacts x |}.
Definition set_saved_nodes (v : list Node) (x : Command) : Command :=
  {| verbosity := verbosity x; status_mapping := status_mapping x;
     default_layer := default_layer x; old_nodes := old_nodes x; email_set := email_set x;
     users_dict := users_dict x; saved_users := saved_users x; saved_nodes := v;
     saved_devices := saved_devices x;
     routing_protocols_added := routing_protocols_added x;
     saved_interfaces := saved_interfaces x; saved_vaps := saved_vaps x;
     saved_ipv4 := saved_ipv4 x; saved_ipv6 := saved_ipv6 x; saved_links := saved_links x;
     saved_contacts := saved_contacts x |}.
Definition set_saved_devices (v : list Device) (x : Command) : Command :=
  {| verbosity := verbosity x; status_mapping := status_mapping x;
     default_layer := default_layer x; old_nodes := old_nodes x; email_set := email_set x;
     users_dict := users_dict x; saved_users := saved_users x;
     saved_nodes := saved_nodes x; saved_devices := v;
     routing_protocols_added := routing_protocols_added x;
     saved_interfaces := saved_interfaces x; saved_vaps := saved_vaps x;
     saved_ipv4 := saved_ipv4 x; saved_ipv6 := saved_ipv6 x; saved_links := saved_links x;
     saved_contacts := saved_contacts x |}.
Definition set_routing_protocols_added (v : list RoutingProtocol) (x : Command) : Command :=
  {| verbosity := verbosity x; status_mapping := status_mapping x;
     default_layer := default_layer x; old_nodes := old_nodes x; email_set := email_set x;
     users_dict := users_dict x; saved_users := saved_users x;
     saved_nodes := saved_nodes x; saved_devices := saved_devices x;
     routing_protocols_added := v; saved_interfaces := saved_interfaces x;
     saved_vaps := saved_vaps x; saved_ipv4 := saved_ipv4 x; saved_ipv6 := saved_ipv6 x;
     saved_links := saved_links x; saved_contacts := saved_contacts x |}.
Definition set_saved_interfaces (v : list Interface) (x : Command) : Command :=
  {| verbosity := verbosity x; status_mapping := status_mapping x;
     default_layer := default_layer x; old_nodes := old_nodes x; email_set := email_set x;
     users_dict := users_dict x; saved_users := saved_users x;
     saved_nodes := saved_nodes x; saved_devices := saved_devices x;
     routing_protocols_added := routing_protocols_added x; saved_interfaces := v;
     saved_vaps := saved_vaps x; saved_ipv4 := saved_ipv4 x; saved_ipv6 := saved_ipv6 x;
     saved_links := saved_links x; saved_contacts := saved_contacts x |}.
Definition set_saved_vaps (v : list Vap) (x : Command) : Command :=
  {| verbosity := verbosity x; status_mapping := status_mapping x;
     default_layer := default_layer x; old_nodes := old_nodes x; email_set := email_set x;
     users_dict := users_dict x; saved_users := saved_users x;
     saved_nodes := saved_nodes x; saved_devices := saved_devices x;
     routing_protocols_added := routing_protocols_added x;
     saved_interfaces := saved_interfaces x; saved_vaps := v; saved_ipv4 := saved_ipv4 x;
     saved_ipv6 := saved_ipv6 x; saved_links := saved_links x;
     saved_contacts := saved_contacts x |}.
Definition set_saved_ipv4 (v : list Ip) (x : Command) : Command :=
  {| verbosity := verbosity x; status_mapping := status_mapping x;
     default_layer := default_layer x; old_nodes := old_nodes x; email_set := email_set x;
     users_dict := users_dict x; saved_users := saved_users x;
     saved_nodes := saved_nodes x; saved_devices := saved_devices x;
     routing_protocols_added := routing_protocols_added x;
     saved_interfaces := saved_interfaces x; saved_vaps := saved_vaps x; saved_ipv4 := v;
     saved_ipv6 := saved_ipv6 x; saved_links := saved_links x;
     saved_contacts := saved_contacts x |}.
Definition set_saved_ipv6 (v : list Ip) (x : Command) : Command :=
  {| verbosity := verbosity x; status_mapping := status_mapping x;
     default_layer := default_layer x; old_nodes := old_nodes x; email_set := email_set x;
     users_dict := users_dict x; saved_users := saved_users x;
     saved_nodes := saved_nodes x; saved_devices := saved_devices x;
     routing_protocols_added := routing_protocols_added x;
     saved_interfaces := saved_interfaces x; saved_vaps := saved_vaps x;
     saved_ipv4 := saved_ipv4 x; saved_ipv6 := v; saved_links := saved_links x;
     saved_contacts := saved_contacts x |}.
Definition set_saved_links (v : list Link) (x : Command) : Command :=
  {| verbosity := verbosity x; status_mapping := status_mapping x;
     default_layer := default_layer x; old_nodes := old_nodes x; email_set := email_set x;
     users_dict := users_dict x; saved_users := saved_users x;
     saved_nodes := saved_nodes x; saved_devices := saved_devices x;
     routing_protocols_added := routing_protocols_added x;
     saved_interfaces := saved_interfaces x; saved_vaps := saved_vaps x;
     saved_ipv4 := saved_ipv4 x; saved_ipv6 := saved_ipv6 x; saved_links := v;
     saved_contacts := saved_contacts x |}.
Definition set_saved_contacts (v : list Inward) (x : Command) : Command :=
  {| verbosity := verbosity x; status_mapping := status_mapping x;
     default_layer := default_layer x; old_nodes := old_nodes x; email_set := email_set x;
     users_dict := users_dict x; saved_users := saved_users x;
     saved_nodes := saved_nodes x; saved_devices := saved_devices x;
     routing_protocols_added := routing_protocols_added x;
     saved_interfaces := saved_interfaces x; saved_vaps := saved_vaps x;
     saved_ipv4 := saved_ipv4 x; saved_ipv6 := saved_ipv6 x; saved_links := saved_links x;
     saved_contacts := v |}.

(** What the operator does at a [raw_input()]: a line, or the interrupt. *)
Inductive keyboard := Line (s : string) | CtrlC.

Record World := {
  cmd : Command;
  db : Store;
  legacy : Legacy;
  stdin : list keyboard;
  out : list string;
  rng : nat
}.
Definition with_cmd (v : Command) (x : World) : World :=
  {| cmd := v; db := db x; legacy := legacy x; stdin := stdin x; out := out x; rng := rng x |}.
Definition with_db (v : Store) (x : World) : World :=
  {| cmd := cmd x; db := v; legacy := legacy x; stdin := stdin x; out := out x; rng := rng x |}.
Definition with_stdin (v : list keyboard) (x : World) : World :=
  {| cmd := cmd x; db := db x; legacy := legacy x; stdin := v; out := out x; rng := rng x |}.
Definition with_out (v : list string) (x : World) : World :=
  {| cmd := cmd x; db := db x; legacy := legacy x; stdin := stdin x; out := v; rng := rng x |}.
Definition with_rng (v : nat) (x : World) : World :=
  {| cmd := cmd x; db := db x; legacy := legacy x; stdin := stdin x; out := out x; rng := v |}.



(** A row handed to the ORM. *)
Inductive row :=
| RowUser (u : User)
| RowEmailAddress (e : EmailAddress)
| RowNode (n : Node)
| RowDevice (d : Device)
| RowRoutingProtocol (r : RoutingProtocol)
| RowInterface (i : Interface)
| RowVap (v : Vap)
| RowIp (a : Ip)
| RowLink (l : Link)
| RowContact (c : Inward).

(** What the importer takes from outside this file: Django's [slugify],
    the [capitalize()] of Python's unicode strings, the random generator
    behind [generate_random_password], [netaddr]'s address parser, and the
    outcome of [full_clean()]/[save()] and of [delete()] for a row in a
    given store ([Raise] is the exception the call ends with). *)
Record Env := {
  slugify : string → string;
  capitalize : string → string;
  random_password : nat → string;
  valid_ip : string → bool;
  clean : row → Store → res unit;
  delete_check : row → Store → res unit
}.

(** [settings.INSTALLED_APPS] and [settings.NODESHOT['OLD_IMPORTER']]. *)
Record Settings := {
  EMAIL_ADDRESS_APP_INSTALLED : bool;
  LAYER_APP_INSTALLED : bool;
  STATUS_MAPPING : option (gmap string mapped);
  DEFAULT_LAYER : option Z
}.

Definition modify_cmd (f : Command → Command) : M World unit :=
  modify (λ w, with_cmd (f (cmd w)) w).
Definition modify_db (f : Store → Store) : M World unit :=
  modify (λ w, with_db (f (db w)) w).

(** [self.message], [self.stdout.write] and [sys.stdout.write]. *)
Definition message (m : string) : M World unit :=
  modify (λ w, with_out (out w ++ [m]) w).

Definition verbose (m : string) : M World unit :=
  do v <- gets (λ w, verbosity (cmd w));
  if decide (v = 2) then message m else ret tt.

Definition raw_input : M World string :=
  λ w, match stdin w with
       | [] => (Raise EOFError, w)
       | Line s :: rest => (Ret s, with_stdin rest w)
       | CtrlC :: rest => (Raise KeyboardInterrupt, with_stdin rest w)
       end.

(** [while True: answer = raw_input().lower() ...]: one round per line
    of input, until [valid] accepts the answer. *)
Fixpoint ask {A} (dflt : string) (valid : string → option A) (retry : string)
    (input : list keyboard) (printed : list string)
  : res A * (list keyboard * list string) :=
  match input with
  | [] => (Raise EOFError, ([], printed))
  | CtrlC :: rest => (Raise KeyboardInterrupt, (rest, printed))
  | Line s :: rest =>
      let answer := Str.lower s in
      let answer := if decide (answer = "") then dflt else answer in
      match valid answer with
      | Some a => (Ret a, (rest, printed))
      | None => ask dflt valid retry rest (printed ++ [retry])
      end
  end.

Definition asking {A} (dflt : string) (valid : string → option A) (retry : string)
  : M World A :=
  λ w, let '(r, (rest, printed)) := ask dflt valid retry (stdin w) (out w) in
       (r, with_out printed (with_stdin rest w)).

(** *** The ORM calls *)

(** [INSERT], or [UPDATE] of the row with the same primary key. *)
Definition upsert {A} (key : A → Z) (x : A) (l : list A) : list A :=
  if existsb (λ y, bool_decide (key y = key x)) l
  then (λ y, if decide (key y = key x) then x else y) <$> l
  else l ++ [x].

(** Modelled from the spec: the [delete()] of the models, which are not
    among the sources.  A row goes with the rows that reference it by id
    (section 3), sub-entities with their interface (section 4.5). *)
Definition drop_interface (i : Z) (st : Store) : Store :=
  set_links (filter (λ l, interface_a l ≠ i ∧ interface_b l ≠ i) (links st))
    (set_ips (filter (λ a, ip_interface_id a ≠ i) (ips st))
      (set_vaps (filter (λ v, vap_interface_id v ≠ i) (vaps st))
        (set_interfaces (filter (λ x, if_id x ≠ i) (interfaces st)) st))).

Definition drop_device (d : Z) (st : Store) : Store :=
  let st' := foldr drop_interface st
               (if_id <$> filter (λ x, if_device_id x = d) (interfaces st)) in
  set_device_routing_protocols
    (filter (λ p, p.1 ≠ d) (device_routing_protocols st'))
    (set_devices (filter (λ x, device_id x ≠ d) (devices st')) st').

Definition drop_node (n : Z) (st : Store) : Store :=
  let st' := foldr drop_device st
               (device_id <$> filter (λ x, device_node_id x = n) (devices st)) in
  set_nodes (filter (λ x, node_id x ≠ n) (nodes st')) st'.

Definition drop_user (u : option Z) (st : Store) : Store :=
  match u with
  | None => st
  | Some i =>
      let st' := foldr drop_node st
                   (node_id <$> filter (λ x, node_user_id x = i) (nodes st)) in
      set_email_addresses (filter (λ e, ea_user e ≠ u) (email_addresses st'))
        (set_users (filter (λ x, user_id x ≠ u) (users st')) st')
  end.

Definition drop_routing_protocol (r : Z) (st : Store) : Store :=
  set_device_routing_protocols
    (filter (λ p, p.2 ≠ r) (device_routing_protocols st))
    (set_routing_protocols (filter (λ x, rp_id x ≠ r) (routing_protocols st)) st).

Definition drop_contact (c : option Z) (st : Store) : Store :=
  match c with
  | None => st
  | Some _ => set_contacts (filter (λ x, inward_id x ≠ c) (contacts st)) st
  end.

(** A store that holds no row the other does not hold. *)
Definition shrinks (st' st : Store) : Prop :=
  users st' ⊆ users st ∧ nodes st' ⊆ nodes st ∧ devices st' ⊆ devices st
  ∧ interfaces st' ⊆ interfaces st ∧ vaps st' ⊆ vaps st ∧ ips st' ⊆ ips st
  ∧ links st' ⊆ links st ∧ contacts st' ⊆ contacts st.

(** No row of the store is, or hangs on, the interface [i]. *)
Definition no_interface (i : Z) (st : Store) : Prop :=
  (∀ x, x ∈ interfaces st → if_id x ≠ i)
  ∧ (∀ v, v ∈ vaps st → vap_interface_id v ≠ i)
  ∧ (∀ a, a ∈ ips st → ip_interface_id a ≠ i)
  ∧ (∀ l, l ∈ links st → interface_a l ≠ i ∧ interface_b l ≠ i).
Definition no_device (d : Z) (st : Store) : Prop :=
  ∀ x, x ∈ devices st → device_id x ≠ d.
Definition no_node (n : Z) (st : Store) : Prop :=
  ∀ x, x ∈ nodes st → node_id x ≠ n.
Definition no_contact (c : option Z) (st : Store) : Prop :=
  c ≠ None → ∀ x, x ∈ contacts st → inward_id x ≠ c.
Definition no_user (u : option Z) (st : Store) : Prop :=
  u ≠ None → ∀ x, x ∈ users st → user_id x ≠ u.

(** [Status.objects.get(slug=v)] *)
Definition mapped_str (v : mapped) : string :=
  match v with Slug s => s | Id z => pretty z end.

Definition Status_get (st : Store) (v : mapped) : res Status :=
  match list_find (λ s, status_slug s = mapped_str v) (statuses st) with
  | Some (_, s) => Ret s
  | None => Raise (DoesNotExist "Status")
  end.

(** The value [check_status_mapping] leaves for a target: the id of the
    status with that slug. *)
Definition resolved (st : Store) (v : mapped) : mapped :=
  match Status_get st v with
  | Ret s => Id (status_id s)
  | Raise _ => v
  end.

(** [node.intersecting_layers]: the layers whose area contains the point. *)
Definition intersecting_layers (st : Store) (n : Node) : list Layer :=
  filter (λ l, contains l (node_geometry n).1 (node_geometry n).2 = true) (layers st).

(** [Interface.objects.get(pk=i)] *)
Definition Interface_get (st : Store) (i : Z) : res Interface :=
  match list_find (λ x, if_id x = i) (interfaces st) with
  | Some (_, x) => Ret x
  | None => Raise (DoesNotExist "Interface")
  end.

(** The lists [delete_imported_data] reads are all empty. *)
Definition journal_empty (c : Command) : Prop :=
  saved_users c = [] ∧ saved_nodes c = [] ∧ saved_devices c = []
  ∧ routing_protocols_added c = [] ∧ saved_interfaces c = [] ∧ saved_contacts c = [].

(** *** The methods of [Command] *)

Section command.
Context (env : Env) (settings : Settings).

(** [try: x.delete()  except Exception as e: self.message(...)] *)
Definition try_delete (r : row) (drop : Store → Store) (what : string) : M World unit :=
  try_except
    (do st <- gets db;
     run lift (delete_check env r st);
     modify_db drop)
    is_Exception
    (λ e, message ("Got exception while deleting " +:+ what +:+ ": " +:+ exn_str e)).

Definition delete_imported_data : M World unit :=
  run message "Going to delete all the imported data...";
  do self <- gets cmd;
  run for_each (saved_interfaces self) (λ interface,
    try_delete (RowInterface interface) (drop_interface (if_id interface))
      ("interface " +:+ if_mac interface));
  run for_each (saved_devices self) (λ device,
    try_delete (RowDevice device) (drop_device (device_id device))
      ("device " +:+ device_name device));
  run for_each (routing_protocols_added self) (λ routing_protocol,
    try_delete (RowRoutingProtocol routing_protocol)
      (drop_routing_protocol (rp_id routing_protocol))
      ("routing_protocol " +:+ rp_name routing_protocol));
  run for_each (saved_nodes self) (λ node,
    try_delete (RowNode node) (drop_node (node_id node))
      ("node " +:+ node_name node));
  run for_each (saved_contacts self) (λ contact,
    try_delete (RowContact contact) (drop_contact (inward_id contact))
      ("contact log entry " +:+ from_option pretty "None" (inward_id contact)));
  for_each (saved_users self) (λ user,
    try_delete (RowUser user) (drop_user (user_id user))
      ("user " +:+ username user)).

Definition confirm_operation_completed : M World unit :=
  run message "Are you satisfied with the results? If not all imported data will be deleted

[Y/n]";
  do answer <- asking "y"
                 (λ a, if decide (a = "y") then Some true
                       else if decide (a = "n") then Some false else None)
                 "Please respond with one of the valid answers
";
  if answer then message "Operation completed!" else delete_imported_data.

(** What [prompt_layer_selection] returns: a layer id, ["default"] or
    ["discard"]. *)
Inductive answer := Chosen (layer : Z) | Default | Discard.

Definition prompt_layer_selection (node : Node) (layers : list Layer) : M World answer :=
  let valid : gmap string answer :=
    foldl (λ valid layer, <[pretty (layer_id layer) := Chosen (layer_id layer)]> valid)
      (<["default" := Default]> (<["def" := Default]>
        (<["discard" := Discard]> (<["dis" := Discard]> ∅))))
      layers in
  let question := "Cannot automatically determine layer for node " +:+ quoted (node_name node)
      +:+ " because there are " +:+ pretty (length layers)
      +:+ " layers available in that area, what do you want to do?

" in
  let available_layers :=
    foldl (λ acc layer, acc +:+ pretty (layer_id layer) +:+ " (" +:+ layer_name layer +:+ ")
") "" layers in
  let prompt := "choose (enter the number of) one of the following layers:
" +:+ available_layers +:+ "
" +:+ quoted "default" +:+ "    use default layer (if no default layer specified in settings node will be discarded)
" +:+ quoted "discard" +:+ "    discard node

(default action is to use default layer)

" in
  run message (question +:+ prompt);
  do answer <- asking "default" (λ a, valid !! a)
                 "Please respond with one of the valid answers
";
  run message "
";
  ret answer.

(** [not self.status_mapping]: [False] or an empty dictionary. *)
Definition mapping_configured (m : option (gmap string mapped)) : bool :=
  match m with
  | Some d => negb (bool_decide (d = ∅))
  | None => false
  end.

Definition is_DoesNotExist (model : string) (e : exn) : bool :=
  match e with DoesNotExist m => bool_decide (m = model) | _ => false end.

(** The body of the loop of [check_status_mapping] for one item of the
    mapping. *)
Definition check_status_item (item : string * mapped) : M World unit :=
  let old_val := item.1 in
  let new_val := item.2 in
  try_except
    (do st <- gets db;
     do status <- lift (Status_get st new_val);
     modify_cmd (λ c, set_status_mapping
       (Some (<[old_val := Id (status_id status)]> (default ∅ (status_mapping c)))) c))
    (is_DoesNotExist "Status")
    (λ _, raise (ImproperlyConfigured
       ("Error! Status with slug " +:+ mapped_str new_val
        +:+ " not found in the database"))).

Definition check_status_mapping : M World unit :=
  run verbose "checking status mapping...";
  do self <- gets cmd;
  if negb (mapping_configured (status_mapping self)) then
    message "no status mapping found"
  else
    run for_each (map_to_list (default ∅ (status_mapping self))) check_status_item;
    verbose "status map correct".

(** [self.status_mapping.get(value, self.status_mapping['default'])],
    evaluated and dropped: the method has no [return], so the caller
    receives [None]. *)
Definition get_status (value : string) : M World (option Z) :=
  do self <- gets cmd;
  match status_mapping self with
  | None => raise (AttributeError "'bool' object has no attribute 'get'")
  | Some d =>
      match d !! "default" with
      | None => raise (KeyError "default")
      | Some dflt =>
          let _ := default dflt (d !! value) in
          ret None
      end
  end.

Definition retrieve_nodes : M World unit :=
  run verbose "retrieving nodes from old mysql DB...";
  do old <- gets (λ w, OldNode_objects (legacy w));
  run modify_cmd (set_old_nodes old);
  message ("retrieved " +:+ pretty (length old) +:+ " nodes").

Definition extract_users : M World unit :=
  run verbose "going to extract user information from retrieved nodes...";
  do self <- gets cmd;
  let email_set : gset string :=
    foldl (λ acc node, acc ∪ {[on_email node]}) ∅ (old_nodes self) in
  let users_dict : gmap string UserInfo :=
    foldl (λ acc node,
             match acc !! on_email node with
             | Some _ => acc
             | None => <[on_email node := {| owner := on_owner node; saved_id := None |}]> acc
             end) ∅ (old_nodes self) in
  run modify_cmd (λ c, set_users_dict users_dict (set_email_set email_set c));
  verbose (pretty (size email_set) +:+ " users extracted").

(** [User.objects.filter(username=name).count() > 0] *)
Definition username_taken (st : Store) (name : string) : bool :=
  bool_decide (name ∈ username <$> users st).

(** Lines 349-356: [while True: if <taken>: counter += 1; user.username =
    '%s%d' % (original_username, counter)  else: break].  [fuel] bounds the
    rounds; [None] when it runs out. *)
Fixpoint unique_username (fuel : nat) (st : Store) (original_username : string)
    (counter : nat) (name : string) : option string :=
  match fuel with
  | O => None
  | S fuel' =>
      if username_taken st name
      then unique_username fuel' st original_username (S counter)
             (original_username +:+ pretty (S counter))
      else Some name
  end.

(** [try: x.full_clean(); x.save(); <append>; self.verbose(...)
    except Exception as e: self.message(...)]; [true] when the row went in. *)
Definition try_save (r : row) (store : Store → Store) (saved failed : string) : M World bool :=
  try_except
    (do st <- gets db;
     run lift (clean env r st);
     run modify_db store;
     run verbose saved;
     ret true)
    is_Exception
    (λ e, run message (failed +:+ ", got exception: " +:+ exn_str e);
          ret false).

(** [user.save()]: the store assigns the id. *)
Definition save_user (user : User) : M World User :=
  do st <- gets db;
  run lift (clean env (RowUser user) st);
  let user := set_user_id (Some (next_id st)) user in
  run modify_db (λ st, set_next_id (next_id st + 1) (set_users (users st ++ [user]) st));
  ret user.

(** Lines 318-324: the owner, or the local part of the address with
    spaces for dots when no owner is given. *)
Definition owner_name (info : UserInfo) (mail : string) : res string :=
  if decide (Str.strip (owner info) = "") then
    match Str.split "@" mail with
    | [local; domain] => Ret (Str.replace "." " " local)
    | [_] => Raise (ValueError "need more than 1 value to unpack")
    | _ => Raise (ValueError "too many values to unpack")
    end
  else Ret (owner info).

(** Lines 326-346: the user object, its username still the plain slug. *)
Definition new_user (name mail : string) (seed : nat) : User :=
  let owner_parts := Str.split " " name in
  let first := if Str.contains " " name then default "" (owner_parts !! 0%nat) else name in
  let last := if Str.contains " " name then default "" (owner_parts !! 1%nat) else "" in
  {| user_id := None; username := slugify env name;
     password := random_password env seed;
     first_name := capitalize env first;
     last_name := capitalize env last;
     email := mail; is_active := true |}.

(** Lines 358-368: validate and save the user, record its id. *)
Definition store_user (saved_users : list User) (info : UserInfo) (user : User)
  : M World (list User * User) :=
  try_except
    (do user <- save_user user;
     run modify_cmd (λ c, set_users_dict
           (<[email user := {| owner := owner info; saved_id := user_id user |}]>
              (users_dict c)) c);
     run verbose ("Saved user " +:+ username user +:+ " (" +:+ first_name user
                  +:+ " " +:+ last_name user +:+ ") with email <"
                  +:+ email user +:+ ">");
     ret ((saved_users ++ [user])%list, user))
    is_Exception
    (λ e, run message ("Could not save user " +:+ username user
                       +:+ ", got exception: " +:+ exn_str e);
          ret (saved_users, user)).

(** Lines 370-377: the confirmed address of the user. *)
Definition store_email_address (user : User) : M World unit :=
  if EMAIL_ADDRESS_APP_INSTALLED settings then
    let email_address := {| ea_user := user_id user; ea_email := email user;
                            ea_verified := true; ea_primary := true |} in
    try_except
      (do st <- gets db;
       run lift (clean env (RowEmailAddress email_address) st);
       modify_db (λ st, set_email_addresses (email_addresses st ++ [email_address]) st))
      is_Exception
      (λ e, message ("Could not save email address for user " +:+ username user
                     +:+ ", got exception: " +:+ exn_str e))
  else ret tt.

(** One round of the loop of [import_users]; [saved_users] is the local
    list. *)
Definition import_user (saved_users : list User) (mail : string) : M World (list User) :=
  do self <- gets cmd;
  do info <- lift (match users_dict self !! mail with
                   | Some i => Ret i
                   | None => Raise (KeyError mail)
                   end);
  do name <- lift (owner_name info mail);
  do seed <- gets rng;
  run modify (λ w, with_rng (S (rng w)) w);
  let user := new_user name mail seed in
  do st <- gets db;
  do unique <- lift (match unique_username (S (length (users st))) st
                             (username user) 1 (username user) with
                     | Some u => Ret u
                     | None => Raise (ValueError "out of fuel")
                     end);
  do saved <- store_user saved_users info (set_username unique user);
  run store_email_address saved.2;
  ret saved.1.





Definition import_users : M World unit :=
  run message "saving users into local DB";
  do self <- gets cmd;
  do saved_users <- foldM import_user [] (elements (email_set self));
  run message ("saved " +:+ pretty (length saved_users) +:+ " users into local DB");
  modify_cmd (set_saved_users saved_users).

(** Lines 408-432, the block under [if LAYER_APP_INSTALLED]; [None] is
    the [continue] that discards the node. *)
Definition assign_layer (node : Node) : M World (option Node) :=
  do st <- gets db;
  do self <- gets cmd;
  let intersecting_layers := intersecting_layers st node in
  if (1 <? length intersecting_layers)%nat then
    do answer <- prompt_layer_selection node intersecting_layers;
    match answer, default_layer self with
    | Chosen i, _ => ret (Some (set_node_layer_id (Some i) node))
    | Default, Some d => ret (Some (set_node_layer_id (Some d) node))
    | _, _ =>
        run message ("Node " +:+ node_name node +:+ " discarded");
        ret None
    end
  else if ((length intersecting_layers <? 2) && (0 <? length intersecting_layers))%nat then
    match intersecting_layers !! 0%nat with
    | Some layer => ret (Some (set_node_layer_id (Some (layer_id layer)) node))
    | None => raise IndexError
    end
  else
    match default_layer self with
    | None =>
        run message ("Node " +:+ node_name node +:+ " discarded because is not contained
                                     in any specified layer and no default layer specified");
        ret None
    | Some d => ret (Some (set_node_layer_id (Some d) node))
    end.

(** Lines 394-406: the node built from the legacy record. *)
Definition new_node (old_node : OldNode) (owner_id : Z) : Node :=
  {| node_id := on_id old_node; node_user_id := owner_id;
     node_name := on_name old_node; node_slug := on_slug old_node;
     node_geometry := (on_lng old_node, on_lat old_node);
     node_elev := on_alt old_node;
     node_description := on_description old_node;
     node_notes := on_notes old_node; node_added := on_added old_node;
     node_updated := on_updated old_node; node_data := ∅;
     node_layer_id := None; node_status_id := None |}.

(** Lines 434-452: additional data, status, validation and save. *)
Definition persist_node (saved_nodes : list Node) (old_node : OldNode) (node : Node)
  : M World (list Node) :=
  do self <- gets cmd;
  let node := if decide (on_postal_code old_node = "") then node
              else set_node_data (<["postal_code" := on_postal_code old_node]> (node_data node)) node in
  let node := if decide (on_status old_node = "h" ∨ on_status old_node = "ah")
              then set_node_data (<["is_hotspot" := "true"]> (node_data node)) node
              else node in
  do node <- (if mapping_configured (status_mapping self) then
                do status <- get_status (on_status old_node);
                ret (set_node_status_id status node)
              else ret node);
  do ok <- try_save (RowNode node)
             (λ st, set_nodes (upsert node_id node (nodes st)) st)
             ("Saved node " +:+ node_name node +:+ " in layer "
              +:+ from_option pretty "None" (node_layer_id node))
             ("Could not save node " +:+ node_name node);
  ret (if ok then saved_nodes ++ [node] else saved_nodes)%list.

(** One round of the loop of [import_nodes]. *)
Definition import_node (saved_nodes : list Node) (old_node : OldNode) : M World (list Node) :=
  if decide (on_status old_node = "u") then ret saved_nodes else
  do self <- gets cmd;
  do info <- lift (match users_dict self !! on_email old_node with
                   | Some i => Ret i
                   | None => Raise (KeyError (on_email old_node))
                   end);
  do owner_id <- lift (match saved_id info with
                       | Some i => Ret i
                       | None => Raise (KeyError "id")
                       end);
  let node := new_node old_node owner_id in
  do layered <- (if LAYER_APP_INSTALLED settings then assign_layer node else ret (Some node));
  match layered with
  | None => ret saved_nodes
  | Some node => persist_node saved_nodes old_node node
  end.

Definition import_nodes : M World unit :=
  run message "saving nodes into local DB...";
  do self <- gets cmd;
  do saved_nodes <- foldM import_node [] (old_nodes self);
  run message ("saved " +:+ pretty (length saved_nodes) +:+ " nodes into local DB");
  modify_cmd (set_saved_nodes saved_nodes).

(** One round of the loop of [import_devices]; the two local lists are
    [saved_devices] and [routing_protocols_added]. *)
Definition import_device (acc : list Device * list RoutingProtocol) (old_device : OldDevice)
  : M World (list Device * list RoutingProtocol) :=
  let device := {| device_id := od_id old_device; device_node_id := od_node_id old_device;
                   device_type := "radio"; device_name := od_name old_device;
                   device_description := od_description old_device;
                   device_added := od_added old_device;
                   device_updated := od_updated old_device;
                   device_data := <["cname" := od_cname old_device]>
                                    (<["modello" := od_type old_device]> ∅) |} in
  do ok <- try_save (RowDevice device)
             (λ st, set_devices (upsert device_id device (devices st)) st)
             ("Saved device " +:+ device_name device)
             ("Could not save device " +:+ device_name device);
  let saved_devices := (if ok then acc.1 ++ [device] else acc.1)%list in
  do st <- gets db;
  do found <-
    match list_find (λ r, Str.icontains (rp_name r) (od_routing_protocol old_device) = true)
                    (routing_protocols st) with
    | Some (_, routing_protocol) => ret (routing_protocol, acc.2)
    | None =>
        let routing_protocol := {| rp_id := next_id st;
                                   rp_name := od_routing_protocol old_device |} in
        run lift (clean env (RowRoutingProtocol routing_protocol) st);
        run modify_db (λ st, set_next_id (next_id st + 1)
              (set_routing_protocols (routing_protocols st ++ [routing_protocol]) st));
        ret (routing_protocol, (acc.2 ++ [routing_protocol])%list)
    end;
  run modify_db (λ st, set_device_routing_protocols
        (list_union (device_routing_protocols st) [(device_id device, rp_id found.1)]) st);
  ret (saved_devices, found.2).

Definition import_devices : M World unit :=
  run verbose "retrieving devices from old mysql DB...";
  do old_devices <- gets (λ w, OldDevice_objects (legacy w));
  run message ("retrieved " +:+ pretty (length old_devices) +:+ " devices");
  do acc <- foldM import_device ([], []) old_devices;
  run message ("saved " +:+ pretty (length acc.1) +:+ " devices into local DB");
  modify_cmd (λ c, set_routing_protocols_added acc.2 (set_saved_devices acc.1 c)).

(** Modelled from the spec: the type tag a model class of
    [nodeshot.networking.net] stamps on its rows (section 3: "a type tag
    drawn from a fixed enumeration"); the classes are not among the sources. *)
Definition model_type (m : InterfaceModel) : interface_type :=
  match m with
  | Ethernet => ethernet
  | Wireless => wireless
  | Bridge => bridge
  | Tunnel => tunnel
  | Interface_ => virtual
  end.

(** Lines 510-552: the interface and, for a wireless one, its vap. *)
Definition build_interface (old_interface : OldInterface) : Interface * option Vap :=
  let make model standard duplex mode channel data :=
    {| if_model := model; if_id := oi_id old_interface;
       if_device_id := oi_device_id old_interface;
       if_mac := oi_mac_address old_interface;
       if_name := Str.take 10 (oi_cname old_interface);
       if_added := oi_added old_interface; if_updated := oi_updated old_interface;
       if_data := data; if_type := model_type model;
       if_standard := standard; if_duplex := duplex;
       if_mode := mode; if_channel := channel |} in
  if decide (oi_type old_interface = "eth") then
    (make Ethernet (Some "fast") (Some "full") None None ∅, None)
  else if decide (oi_type old_interface = "wifi") then
    let vap :=
      if truthy (oi_essid old_interface) || truthy (oi_bssid old_interface)
      then Some {| vap_interface_id := oi_id old_interface;
                   essid := oi_essid old_interface;
                   bssid := oi_essid old_interface |}
      else None in
    let data : gmap string string :=
      if truthy (oi_essid old_interface)
      then <["essid" := default "" (oi_essid old_interface)]> ∅ else ∅ in
    let data :=
      if truthy (oi_bssid old_interface)
      then <["bssid" := default "" (oi_bssid old_interface)]> data else data in
    (make Wireless None None (oi_wireless_mode old_interface)
          (oi_wireless_channel old_interface) data, vap)
  else if decide (oi_type old_interface = "bridge") then
    (make Bridge None None None None ∅, None)
  else if decide (oi_type old_interface = "vpn") then
    (make Tunnel None None None None ∅, None)
  else
    (make Interface_ None None None None
          (<["old_nodeshot_interface_type" := oi_type_display old_interface]> ∅), None).

(** Lines 554-578: an address row, dropped when [netaddr] rejects it. *)
Definition build_ip (version : string) (old_interface : OldInterface)
    (addr : option string) : M World (option Ip) :=
  if truthy addr then
    let stripped := Str.strip (default "" addr) in
    if valid_ip env stripped
    then ret (Some {| ip_interface_id := oi_id old_interface; address := stripped |})
    else run message ("Invalid " +:+ version +:+ " address " +:+ stripped);
         ret None
  else ret None.

Record SavedInterfaces := {
  acc_interfaces : list Interface;
  acc_vaps : list Vap;
  acc_ipv4 : list Ip;
  acc_ipv6 : list Ip
}.

(** Lines 589-596: [if vap: try: ... saved_vaps.append(vap) except ...]. *)
Definition save_vap (saved_vaps : list Vap) (vap : option Vap) : M World (list Vap) :=
  match vap with
  | Some v =>
      let shown := if truthy (essid v) then default "" (essid v)
                   else default "" (bssid v) in
      do ok <- try_save (RowVap v) (λ st, set_vaps (vaps st ++ [v]) st)
                 ("Saved vap " +:+ default "" (essid v))
                 ("Could not save vap " +:+ shown);
      ret (if ok then saved_vaps ++ [v] else saved_vaps)%list
  | None => ret saved_vaps
  end.

(** Lines 598-614, once for [ipv4] and once for [ipv6]. *)
Definition save_ip (version : string) (saved_ips : list Ip) (ip : option Ip)
  : M World (list Ip) :=
  match ip with
  | Some a =>
      do ok <- try_save (RowIp a) (λ st, set_ips (ips st ++ [a]) st)
                 ("Saved " +:+ version +:+ " " +:+ address a)
                 ("Could not save " +:+ version +:+ " " +:+ address a);
      ret (if ok then saved_ips ++ [a] else saved_ips)%list
  | None => ret saved_ips
  end.

(** One round of the loop of [import_interfaces]. *)
Definition import_interface (acc : SavedInterfaces) (old_interface : OldInterface)
  : M World SavedInterfaces :=
  let built := build_interface old_interface in
  let interface := built.1 in
  let vap := built.2 in
  do ipv4 <- build_ip "IPv4" old_interface (oi_ipv4_address old_interface);
  do ipv6 <- build_ip "IPv6" old_interface (oi_ipv6_address old_interface);
  do ok <- try_save (RowInterface interface)
             (λ st, set_interfaces (upsert if_id interface (interfaces st)) st)
             ("Saved interface " +:+ if_name interface)
             ("Could not save interface " +:+ if_mac interface);
  if negb ok then ret acc else
  do saved_vaps <- save_vap (acc_vaps acc) vap;
  do saved_ipv4 <- save_ip "ipv4" (acc_ipv4 acc) ipv4;
  do saved_ipv6 <- save_ip "ipv6" (acc_ipv6 acc) ipv6;
  ret {| acc_interfaces := acc_interfaces acc ++ [interface];
         acc_vaps := saved_vaps; acc_ipv4 := saved_ipv4; acc_ipv6 := saved_ipv6 |}.

Definition import_interfaces : M World unit :=
  run verbose "retrieving interfaces from old mysql DB...";
  do old_interfaces <- gets (λ w, OldInterface_objects (legacy w));
  run message ("retrieved " +:+ pretty (length old_interfaces) +:+ " interfaces");
  do acc <- foldM import_interface
              {| acc_interfaces := []; acc_vaps := []; acc_ipv4 := []; acc_ipv6 := [] |}
              old_interfaces;
  run message ("saved " +:+ pretty (length (acc_interfaces acc)) +:+ " interfaces into local DB");
  run message ("saved " +:+ pretty (length (acc_vaps acc)) +:+ " vaps into local DB");
  run message ("saved " +:+ pretty (length (acc_ipv4 acc)) +:+ " ipv4 addresses into local DB");
  run message ("saved " +:+ pretty (length (acc_ipv6 acc)) +:+ " ipv6 addresses into local DB");
  modify_cmd (λ c, set_saved_ipv6 (acc_ipv6 acc) (set_saved_ipv4 (acc_ipv4 acc)
                (set_saved_vaps (acc_vaps acc) (set_saved_interfaces (acc_interfaces acc) c)))).

(** Lines 636-652: fetch an endpoint of a link and retype it to wireless;
    [None] when it does not exist ([skip = True]). *)
Definition link_endpoint (old_link : OldLink) (pk : Z) : M World (option Interface) :=
  try_except
    (do st <- gets db;
     do interface <- lift (Interface_get st pk);
     if decide (if_type interface ≠ wireless) then
       let interface := set_if_type wireless interface in
       run lift (clean env (RowInterface interface) st);
       run modify_db (λ st, set_interfaces (upsert if_id interface (interfaces st)) st);
       ret (Some interface)
     else ret (Some interface))
    (is_DoesNotExist "Interface")
    (λ _, run message ("Interface #" +:+ pretty pk +:+ " does not exist, probably link #"
                       +:+ pretty (ol_id old_link) +:+ " is orphan!");
          ret None).

(** One round of the loop of [import_links]. *)
Definition import_link (saved_links : list Link) (old_link : OldLink) : M World (list Link) :=
  do a <- link_endpoint old_link (ol_from_interface_id old_link);
  do b <- link_endpoint old_link (ol_to_interface_id old_link);
  match a, b with
  | Some interface_a, Some interface_b =>
      let link := {| link_id := ol_id old_link;
                     interface_a := if_id interface_a;
                     interface_b := if_id interface_b;
                     link_status := "active"; link_type := "radio";
                     metric_type := "etx"; metric_value := ol_etx old_link;
                     dbm := ol_dbm old_link;
                     min_rate := Z.min (ol_sync_tx old_link) (ol_sync_rx old_link);
                     max_rate := Z.max (ol_sync_tx old_link) (ol_sync_rx old_link);
                     access_level := None |} in
      let link := if ol_hide old_link then set_access_level (Some 3) link else link in
      do ok <- try_save (RowLink link)
                 (λ st, set_links (upsert link_id link (links st)) st)
                 ("Saved link " +:+ pretty (link_id link))
                 ("Could not save link " +:+ pretty (ol_id old_link));
      ret (if ok then saved_links ++ [link] else saved_links)%list
  | _, _ =>
      run verbose "Skipping to next cycle";
      ret saved_links
  end.

Definition import_links : M World unit :=
  run verbose "retrieving links from old mysql DB...";
  do old_links <- gets (λ w, OldLink_objects (legacy w));
  run message ("retrieved " +:+ pretty (length old_links) +:+ " links");
  do saved_links <- foldM import_link [] old_links;
  run message ("saved " +:+ pretty (length saved_links) +:+ " links into local DB");
  modify_cmd (set_saved_links saved_links).

(** One round of the loop of [import_contacts]. *)
Definition import_contact (saved_contacts : list Inward) (old_contact : OldContact)
  : M World (list Inward) :=
  do st <- gets db;
  let contact := {| inward_id := Some (next_id st); object_id := oc_node_id old_contact;
                    inward_status := 1; from_name := oc_from_name old_contact;
                    from_email := oc_from_email old_contact;
                    message_ := oc_message old_contact; inward_ip := oc_ip old_contact;
                    user_agent := oc_user_agent old_contact;
                    accept_language := oc_accept_language old_contact;
                    inward_added := oc_date old_contact;
                    inward_updated := oc_date old_contact |} in
  do ok <- try_save (RowContact (set_inward_id None contact))
             (λ st, set_next_id (next_id st + 1) (set_contacts (contacts st ++ [contact]) st))
             ("Saved contact log entry #" +:+ pretty (next_id st))
             ("Could not save contact log entry " +:+ pretty (oc_id old_contact));
  ret (if ok then saved_contacts ++ [contact] else saved_contacts)%list.

Definition import_contacts : M World unit :=
  run verbose "retrieving contact log from old mysql DB...";
  do old_contacts <- gets (λ w, OldContact_objects (legacy w));
  run message ("retrieved " +:+ pretty (length old_contacts) +:+ " entries from contact log");
  do saved_contacts <- foldM import_contact [] old_contacts;
  run message ("saved " +:+ pretty (length saved_contacts)
               +:+ " entries of contact log into local DB");
  modify_cmd (set_saved_contacts saved_contacts).

(** [handle]: the phases in order, then the confirmation; an interrupt or
    an exception anywhere sets [delete] and the imported data is deleted.
    The signal switches and [transaction.rollback()] do not touch rows
    already saved. *)
Definition handle (options_verbosity : Z) : M World unit :=
  do delete <-
    try_except
      (run message "";
       run modify_cmd (set_verbosity options_verbosity);
       run verbose "disabling signals (notififcations, websocket alerts)";
       run check_status_mapping;
       run retrieve_nodes;
       run extract_users;
       run import_users;
       run import_nodes;
       run import_devices;
       run import_interfaces;
       run import_links;
       run import_contacts;
       run confirm_operation_completed;
       run verbose "re-enabling signals (notififcations, websocket alerts)";
       ret false)
      (λ _, true)
      (λ e, match e with
            | KeyboardInterrupt =>
                run message "

Operation cancelled...";
                ret true
            | _ =>
                run message ("Got exception " +:+ exn_str e);
                ret true
            end);
  if delete then delete_imported_data else ret tt.

(** A new [Command] object: the class attributes as the class body sets
    them. *)
Definition new_command : Command :=
  {| verbosity := 1;
     status_mapping := STATUS_MAPPING settings;
     default_layer := DEFAULT_LAYER settings;
     old_nodes := []; email_set := ∅; users_dict := ∅;
     saved_users := []; saved_nodes := []; saved_devices := [];
     routing_protocols_added := []; saved_interfaces := []; saved_vaps := [];
     saved_ipv4 := []; saved_ipv6 := []; saved_links := []; saved_contacts := [] |}.

Definition boot (store : Store) (old : Legacy) (input : list keyboard) : World :=
  {| cmd := new_command; db := store; legacy := old; stdin := input; out := []; rng := 0 |}.

End command.

(** *** What the phases build and write *)

(** The line [delete_imported_data] writes for a row whose [delete()]
    raised [e] (lines 179-209). *)
Definition not_deleted (what : string) (e : exn) : string :=
  "Got exception while deleting " +:+ what +:+ ": " +:+ exn_str e.

(** The lines of a rollback in which every [delete()] raises [e]: one for
    each row of the lists, in the order the lists are read. *)
Definition rollback_report (c : Command) (e : exn) : list string :=
  ((λ i, not_deleted ("interface " +:+ if_mac i) e) <$> saved_interfaces c)
  ++ ((λ d, not_deleted ("device " +:+ device_name d) e) <$> saved_devices c)
  ++ ((λ r, not_deleted ("routing_protocol " +:+ rp_name r) e) <$> routing_protocols_added c)
  ++ ((λ n, not_deleted ("node " +:+ node_name n) e) <$> saved_nodes c)
  ++ ((λ x, not_deleted ("contact log entry " +:+ from_option pretty "None" (inward_id x)) e)
        <$> saved_contacts c)
  ++ ((λ u, not_deleted ("user " +:+ username u) e) <$> saved_users c).

(** An answer as the prompts read it: lower case, the default for an
    empty line (lines 158-160 and 243-245). *)
Definition answer_of (dflt line : string) : string :=
  if decide (Str.lower line = "") then dflt else Str.lower line.

(** Lines 434-440: what the node phase puts into the [data] of a node. *)
Definition node_extra (old_node : OldNode) : gmap string string :=
  let data : gmap string string :=
    if decide (on_postal_code old_node = "") then ∅
    else <["postal_code" := on_postal_code old_node]> ∅ in
  if decide (on_status old_node = "h" ∨ on_status old_node = "ah")
  then <["is_hotspot" := "true"]> data else data.

(** The layer [layer] is one a node of the legacy record may be given:
    one whose area holds the point of the record, or the default layer. *)
Definition zone_of (st : Store) (c : Command) (old_node : OldNode) (zone : Z) : Prop :=
  (∃ l, l ∈ layers st ∧ layer_id l = zone
        ∧ contains l (on_lng old_node) (on_lat old_node) = true)
  ∨ default_layer c = Some zone.

(** Lines 466-478: the device built from a legacy record. *)
Definition new_device (old_device : OldDevice) : Device :=
  {| device_id := od_id old_device; device_node_id := od_node_id old_device;
     device_type := "radio"; device_name := od_name old_device;
     device_description := od_description old_device;
     device_added := od_added old_device;
     device_updated := od_updated old_device;
     device_data := <["cname" := od_cname old_device]>
                      (<["modello" := od_type old_device]> ∅) |}.

(** Routing protocols created one after the other, each under a name of
    [names] that no protocol present at its turn contains, letter case
    aside (lines 488-492). *)
Fixpoint created_in_turn (names : list string) (existing new : list RoutingProtocol) : Prop :=
  match new with
  | [] => True
  | p :: rest =>
      rp_name p ∈ names
      ∧ (∀ r, r ∈ existing → Str.icontains (rp_name r) (rp_name p) = false)
      ∧ created_in_turn names (existing ++ [p])%list rest
  end.

(** Lines 554-559 and 567-572: the address row of a legacy interface. *)
Definition new_ip (old_interface : OldInterface) (addr : option string) : Ip :=
  {| ip_interface_id := oi_id old_interface; address := Str.strip (default "" addr) |}.

(** [Interface.objects.get(pk=i)] finds an interface, of type wireless. *)
Definition wireless_at (st : Store) (i : Z) : Prop :=
  ∃ x, Interface_get st i = Ret x ∧ if_type x = wireless.

(** Lines 658-673: the link built from a legacy link whose two interfaces
    were found. *)
Definition new_link (old_link : OldLink) : Link :=
  {| link_id := ol_id old_link;
     interface_a := ol_from_interface_id old_link;
     interface_b := ol_to_interface_id old_link;
     link_status := "active"; link_type := "radio";
     metric_type := "etx"; metric_value := ol_etx old_link;
     dbm := ol_dbm old_link;
     min_rate := Z.min (ol_sync_tx old_link) (ol_sync_rx old_link);
     max_rate := Z.max (ol_sync_tx old_link) (ol_sync_rx old_link);
     access_level := if ol_hide old_link then Some 3 else None |}.

(** Lines 697-709: the contact log entry built from a legacy one; the
    store gives the id. *)
Definition new_contact (id : option Z) (old_contact : OldContact) : Inward :=
  {| inward_id := id; object_id := oc_node_id old_contact;
     inward_status := 1; from_name := oc_from_name old_contact;
     from_email := oc_from_email old_contact;
     message_ := oc_message old_contact; inward_ip := oc_ip old_contact;
     user_agent := oc_user_agent old_contact;
     accept_language := oc_accept_language old_contact;
     inward_added := oc_date old_contact;
     inward_updated := oc_date old_contact |}.

(** [random.choice(chars)]: the character at the drawn position;
    [IndexError] on an empty sequence. *)
Definition choice (draw : nat) (chars : list ascii) : res ascii :=
  match chars !! (draw `mod` length chars)%nat with
  | Some c => Ret c
  | None => Raise IndexError
  end.

(** [generate_random_password] (lines 256-258):
    [''.join(random.choice(chars) for x in range(size))], the draws of the
    generator given in the order they are made. *)
Fixpoint generate_random_password (draws : nat → nat) (size : nat) (chars : list ascii)
  : res string :=
  match size with
  | O => Ret EmptyString
  | S size' =>
      match choice (draws O) chars with
      | Raise e => Raise e
      | Ret c =>
          match generate_random_password (λ x, draws (S x)) size' chars with
          | Raise e => Raise e
          | Ret s => Ret (String c s)
          end
      end
  end.

(** [string.ascii_uppercase + string.digits], the default of [chars]. *)
Definition default_chars : list ascii :=
  list_ascii_of_string "ABCDEFGHIJKLMNOPQRSTUVWXYZ0123456789".

End Importer.

(** ** Sample configurations, stores and runs *)

Module CitySdkSamples.

Import CitySdk.

Definition config0 : Config :=
  {| citysdk_url_cfg := "https://cdk.example.org"; citysdk_layer := "nodeshot";
     citysdk_username := "sync"; citysdk_password := "secret"; verify_SSL := None |}.

Definition token : json := JStr "5f2c".

(** The decoder on the three payloads the sample provider sends. *)
Definition decode (text : string) : option json :=
  if decide (text = "session") then Some (JObj [("results", JArr [token])])
  else if decide (text = "stored") then Some (JObj [("status", JStr "success")])
  else None.

(** A provider that answers the authentication with [auth], the upsert
    and the delete with [reply], and confirms every release; no sample
    answer has a list or a dictionary to be written out. *)
Definition provider (auth reply : res Response) : Remote :=
  {| send := λ r, match r with
                  | GET _ _ None => auth
                  | GET _ _ (Some _) => Ret {| status_code := 200; content := "released" |}
                  | PUT _ _ _ _ => reply
                  | DELETE _ _ _ => reply
                  end;
     loads := decode;
     repr := λ _, "[...]" |}.

Definition session_granted : res Response :=
  Ret {| status_code := 200; content := "session" |}.
Definition stored : res Response := Ret {| status_code := 200; content := "stored" |}.
Definition garbled : res Response := Ret {| status_code := 200; content := "<html>" |}.

Definition fusolab : Node :=
  {| name := "Fusolab"; slug := "fusolab";
     status := Some {| status_slug := "active" |};
     description := Some "rooftop node"; address := None; elev := Some 50;
     user := Some {| full_name := "John Doe" |};
     geometry := JObj [("type", JStr "Point"); ("coordinates", JArr [JNum 12; JNum 41])];
     data := Some (<["postal_code" := JStr "00100"]> ∅);
     external := Some {| external_id := "nodeshot.fusolab" |} |}.

Definition heap0 : Heap := {| node := fusolab; log := [] |}.


(** A node that was never sent to the provider: no external record. *)
Definition unexported : Heap :=
  {| node := {| name := "Macondo"; slug := "macondo"; status := None;
                description := None; address := None; elev := None; user := None;
                geometry := JObj [("type", JStr "Point");
                                  ("coordinates", JArr [JNum 12; JNum 41])];
                data := None; external := None |};
     log := [] |}.

End CitySdkSamples.

Module ImporterSamples.

Import Importer.

(** A slugifier for the samples: lower case, dashes for spaces. *)
Definition slug (s : string) : string := Str.replace " " "-" (Str.lower s).

(** An environment in which every row is valid and every delete goes
    through. *)
Definition env_ok : Env :=
  {| slugify := slug;
     capitalize := Str.capitalize;
     random_password := λ n, "PW" +:+ pretty n;
     valid_ip := λ _, true;
     clean := λ _ _, Ret tt;
     delete_check := λ _ _, Ret tt |}.

(** The same, with the 30-character limit of [username]. *)
Definition env_username_limit : Env :=
  {| slugify := slug;
     capitalize := Str.capitalize;
     random_password := λ n, "PW" +:+ pretty n;
     valid_ip := λ _, true;
     clean := λ r _,
       match r with
       | RowUser u =>
           if (30 <? String.length (username u))%nat
           then Raise (ValidationError "Ensure this value has at most 30 characters")
           else Ret tt
       | _ => Ret tt
       end;
     delete_check := λ _ _, Ret tt |}.

(** The operator interrupts the run while the second user is saved. *)
Definition env_interrupted : Env :=
  {| slugify := slug;
     capitalize := Str.capitalize;
     random_password := λ n, "PW" +:+ pretty n;
     valid_ip := λ _, true;
     clean := λ r st,
       match r, users st with
       | RowUser _, _ :: _ => Raise KeyboardInterrupt
       | _, _ => Ret tt
       end;
     delete_check := λ _ _, Ret tt |}.

Definition active : Status := {| status_id := 1; status_slug := "active" |}.
Definition potential : Status := {| status_id := 2; status_slug := "potential" |}.

Definition rome : Layer :=
  {| layer_id := 7; layer_name := "rome";
     contains := λ lng lat, (10 <=? lng) && (lng <=? 14) && (40 <=? lat) && (lat <=? 43) |}.

Definition empty_store : Store :=
  {| statuses := [active; potential]; layers := [rome]; users := [];
     email_addresses := []; nodes := []; devices := []; routing_protocols := [];
     device_routing_protocols := []; interfaces := []; vaps := []; ips := [];
     links := []; contacts := []; next_id := 1 |}.

Definition settings_mapped : Settings :=
  {| EMAIL_ADDRESS_APP_INSTALLED := false; LAYER_APP_INSTALLED := true;
     STATUS_MAPPING := Some (<["a" := Slug "active"]> (<["default" := Slug "potential"]> ∅));
     DEFAULT_LAYER := None |}.

Definition settings_plain : Settings :=
  {| EMAIL_ADDRESS_APP_INSTALLED := false; LAYER_APP_INSTALLED := true;
     STATUS_MAPPING := None; DEFAULT_LAYER := None |}.

(** No layers application, yet a default layer in the settings. *)
Definition settings_no_layers : Settings :=
  {| EMAIL_ADDRESS_APP_INSTALLED := false; LAYER_APP_INSTALLED := false;
     STATUS_MAPPING := None; DEFAULT_LAYER := Some 7 |}.

Definition old_node (pk : Z) (title owner_name mail code : string) : OldNode :=
  {| on_id := pk; on_name := title; on_slug := slug title; on_owner := owner_name;
     on_email := mail; on_lat := 41; on_lng := 12; on_alt := None;
     on_description := ""; on_notes := ""; on_added := 0; on_updated := 0;
     on_status := code; on_postal_code := "" |}.

Definition fusolab : OldNode := old_node 10 "Fusolab" "John Doe" "jdoe@example.org" "a".
Definition macondo : OldNode :=
  old_node 11 "Macondo" "Aureliano Buendia Iguaran de Macondo" "aureliano@example.org" "a".
Definition sans_souci : OldNode := old_node 12 "Sans Souci" "Jane Roe" "jroe@example.org" "a".

Definition legacy_of (l : list OldNode) : Legacy :=
  {| OldNode_objects := l; OldDevice_objects := []; OldInterface_objects := [];
     OldLink_objects := []; OldContact_objects := [] |}.

Definition wired (pk : Z) : Interface :=
  {| if_model := Ethernet; if_id := pk; if_device_id := 1; if_mac := "00:11:22:33:44:55";
     if_name := "eth0"; if_added := 0; if_updated := 0; if_data := ∅;
     if_type := ethernet; if_standard := Some "fast"; if_duplex := Some "full";
     if_mode := None; if_channel := None |}.

(** A store that already holds the two interfaces a legacy link names. *)
Definition store_with_interfaces : Store :=
  set_interfaces [wired 1; wired 2] empty_store.

Definition old_link : OldLink :=
  {| ol_id := 5; ol_from_interface_id := 1; ol_to_interface_id := 2;
     ol_sync_tx := 54; ol_sync_rx := 48; ol_etx := 1; ol_dbm := -70; ol_hide := false |}.

Definition legacy_link : Legacy :=
  {| OldNode_objects := []; OldDevice_objects := []; OldInterface_objects := [];
     OldLink_objects := [old_link]; OldContact_objects := [] |}.

(** The store before the status ["potential"] was created. *)
Definition store_without_potential : Store :=
  {| statuses := [active]; layers := [rome]; users := [];
     email_addresses := []; nodes := []; devices := []; routing_protocols := [];
     device_routing_protocols := []; interfaces := []; vaps := []; ips := [];
     links := []; contacts := []; next_id := 1 |}.

(** The store of an installation without the layers application. *)
Definition store_without_layers : Store :=
  {| statuses := [active; potential]; layers := []; users := [];
     email_addresses := []; nodes := []; devices := []; routing_protocols := [];
     device_routing_protocols := []; interfaces := []; vaps := []; ips := [];
     links := []; contacts := []; next_id := 1 |}.

(** Three legacy owners whose names slugify alike. *)
Definition namesakes : list OldNode :=
  [old_node 21 "Tetto" "jdoe" "jdoe@example.org" "a";
   old_node 22 "Torre" "JDoe" "j.doe@example.net" "a";
   old_node 23 "Campanile" "jdoe" "jd@example.com" "a"].

Definition old_device : OldDevice :=
  {| od_id := 3; od_node_id := 10; od_name := "fusolab-router"; od_description := "";
     od_type := "Ubiquiti NanoStation"; od_cname := "router"; od_routing_protocol := "olsr";
     od_added := 0; od_updated := 0 |}.

Definition old_wifi (pk : Z) (mac : string) : OldInterface :=
  {| oi_id := pk; oi_device_id := 3; oi_mac_address := mac;
     oi_cname := "wifi0"; oi_type := "wifi"; oi_type_display := "wifi";
     oi_wireless_mode := Some "ap"; oi_wireless_channel := Some "36";
     oi_essid := Some "ninux.org"; oi_bssid := Some "02:CA:FF:EE:BA:BE";
     oi_ipv4_address := Some " 172.16.40.1"; oi_ipv6_address := None;
     oi_added := 0; oi_updated := 0 |}.

Definition old_contact : OldContact :=
  {| oc_id := 1; oc_node_id := 10; oc_from_name := "Jane"; oc_from_email := "jane@example.org";
     oc_message := "ciao"; oc_ip := "10.0.0.1"; oc_user_agent := "Mozilla";
     oc_accept_language := "it"; oc_date := 0 |}.

(** A legacy store with one record of every kind and a link between its
    two interfaces. *)
Definition legacy_full : Legacy :=
  {| OldNode_objects := [fusolab]; OldDevice_objects := [old_device];
     OldInterface_objects := [old_wifi 1 "00:11:22:33:44:01"; old_wifi 2 "00:11:22:33:44:02"];
     OldLink_objects := [old_link]; OldContact_objects := [old_contact] |}.

(** The world of [settings] once the legacy nodes [l] are retrieved. *)
Definition retrieved (settings : Settings) (store : Store) (l : list OldNode) : World :=
  (retrieve_nodes (boot settings store (legacy_of l) [])).2.

(** An environment in which every [delete()] is refused. *)
Definition env_protected : Env :=
  {| slugify := slug;
     capitalize := Str.capitalize;
     random_password := λ n, "PW" +:+ pretty n;
     valid_ip := λ _, true;
     clean := λ _ _, Ret tt;
     delete_check := λ _ _, Raise (ValueError "protected") |}.

(** A second layer around the first. *)
Definition lazio : Layer :=
  {| layer_id := 8; layer_name := "lazio";
     contains := λ lng lat, (9 <=? lng) && (lng <=? 15) && (39 <=? lat) && (lat <=? 44) |}.

Definition store_two_layers : Store :=
  {| statuses := [active; potential]; layers := [rome; lazio]; users := [];
     email_addresses := []; nodes := []; devices := []; routing_protocols := [];
     device_routing_protocols := []; interfaces := []; vaps := []; ips := [];
     links := []; contacts := []; next_id := 1 |}.

(** A legacy node with no owner and an email without [@]. *)
Definition nameless : OldNode := old_node 13 "Anon" " " "nomail" "a".

(** The world of a run on [legacy_full] that the operator has kept. *)
Definition kept_run : World :=
  (handle env_ok settings_mapped 1
     (boot settings_mapped empty_store legacy_full [Line "y"])).2.

(** The world after the user phase on the legacy node [fusolab]. *)
Definition users_imported : World :=
  (import_users env_ok settings_plain
     (extract_users (retrieved settings_plain empty_store [fusolab])).2).2.

End ImporterSamples.

(** ** Properties of the synchronizer adapter *)

Module CitySdkFacts.

Import CitySdk.
Local Open Scope list_scope.
Local Arguments releases : simpl never.

Section facts.
Context (config : Config) (remote : Remote).

Lemma releases_app l1 l2 :
  releases config (l1 ++ l2) = (releases config l1 + releases config l2)%nat.
Proof. unfold releases. by rewrite List.filter_app, length_app. Qed.

Lemma releases_one ev :
  releases config [ev] = if is_release config ev then 1%nat else 0%nat.
Proof. unfold releases. simpl. by destruct (is_release config ev). Qed.

Ltac count_releases :=
  rewrite ?releases_app, ?releases_one; simpl;
  rewrite ?bool_decide_eq_true_2 by done; try lia.

Ltac step_monad :=
  unfold request_, try_except, bind, emit, write_data, modify, lift, raise, ret, gets, get;
  simpl.

(* get_session only appends events that are not releases and keeps the node *)
Lemma get_session_frame h r h' :
  get_session config remote h = (r, h') →
  node h' = node h ∧ releases config (log h') = releases config (log h).
Proof.
  unfold get_session. step_monad.
  intros H.
  destruct (send remote _) as [resp|e]; simpl in H.
  - destruct (decide (status_code resp ≠ 200)); simpl in H.
    + inversion H; subst; simpl. split; [done|]. count_releases.
    + destruct (json_loads remote (content resp)); simpl in H.
      * destruct (json_getitem a "results"); simpl in H; inversion H; subst; simpl;
          (split; [done|]); count_releases.
      * inversion H; subst; simpl. (split; [done|]); count_releases.
  - destruct (is_Exception e); inversion H; subst; simpl;
      (split; [done|]); count_releases.
Qed.



Lemma convert_format_log kind h :
  log (convert_format kind h).2 = log h.
Proof.
  unfold convert_format. step_monad.
  destruct (data_shared (node h)); simpl;
    repeat (case_decide; simpl; try done);
    destruct (external (node h)); done.
Qed.






Lemma convert_format_result_log kind h r h' :
  convert_format kind h = (r, h') → log h' = log h.
Proof. intros H. by rewrite <-(convert_format_log kind h), H. Qed.





Lemma delete_after_session x h s h1 :
  get_session config remote h = (Ret s, h1) →
  delete config remote x h =
    let sent := {| node := node h1;
                   log := log h1 ++ [Sent (DELETE (delete_url config x) (verify config) s)] |} in
    match send remote (DELETE (delete_url config x) (verify config) s) with
    | Raise e => (Raise e, sent)
    | Ret response =>
        match release_session config remote s sent with
        | (Raise e, h4) => (Raise e, h4)
        | (Ret _, h4) =>
            let message := if decide (status_code response ≠ 200)
              then "Failed to delete a record through the CitySDK HTTP API"
              else "Deleted a record through the CitySDK HTTP API" in
            (Ret (if decide (status_code response ≠ 200) then false else true),
             {| node := node h4; log := (log h4 ++ [Verbose message]) ++ [LogInfo message] |})
        end
    end.
Proof.
  intros Hs. unfold delete. unfold bind at 1. rewrite Hs. step_monad.
  destruct (send remote _) as [response|e]; simpl; [|done].
  destruct (release_session _ _ _ _) as [[b|e] h4]; simpl; [|done].
  by destruct (decide (status_code response ≠ 200)).
Qed.






Lemma fill_data_idem n d : fill_data n (fill_data n d) = fill_data n d.
Proof.
  apply map_eq. intros k. unfold fill_data.
  destruct (status n), (truthy (description n)), (truthy (address n)),
    (elev n) as [z|], (user n); try destruct (decide (z = 0));
    rewrite ?lookup_insert; repeat case_decide; done.
Qed.

Lemma fill_data_nonempty n d : d ≠ ∅ → fill_data n d ≠ ∅.
Proof.
  intros Hd. unfold fill_data.
  destruct (status n), (truthy (description n)), (truthy (address n)),
    (elev n) as [z|], (user n); try destruct (decide (z = 0));
    try apply insert_non_empty; done.
Qed.


(** C9, as amended.  For a node that has an external record,
    [convert_format] in create mode and then in update mode (or in update
    mode on the untouched node) yields one node entry each, with the same
    name, the same geometry and the same data dictionary; the create entry
    carries ['id'] = the slug and no ['cdk_id'], the update entry
    ['cdk_id'] = the external id and no ['id'].  The envelope parameters
    are the same [srid] and the requested [create_type], which is
    ['create'] in the one and ['update'] in the other. *)
Theorem create_and_update_envelopes h x :
  external (node h) = Some x →
  ∃ ec eu hc hu,
    convert_format "create" h
      = (Ret {| create_type := "create"; srid := 4326; nodes := [ec] |}, hc)
    ∧ convert_format "update" hc
      = (Ret {| create_type := "update"; srid := 4326; nodes := [eu] |}, hu)
    ∧ convert_format "update" h
      = (Ret {| create_type := "update"; srid := 4326; nodes := [eu] |}, hu)
    ∧ ne_name ec = name (node h) ∧ ne_name eu = name (node h)
    ∧ ne_geom ec = geometry (node h) ∧ ne_geom eu = geometry (node h)
    ∧ entry_data hc ec = entry_data hu eu
    ∧ entry_data hu ec = entry_data hu eu
    ∧ ne_id ec = Some (slug (node h)) ∧ ne_cdk_id ec = None
    ∧ ne_id eu = None ∧ ne_cdk_id eu = Some (external_id x).
Proof.
  intros Hx. unfold convert_format, entry_data. step_monad.
  destruct (data_shared (node h)) eqn:Hshared; simpl.
  - unfold data_shared in Hshared.
    destruct (data (node h)) as [d|] eqn:Hd; [|done]. simpl.
    assert (d ≠ ∅) as Hne by (by destruct (bool_decide_reflect (d = ∅))).
    eexists _, _, _, _. split; [reflexivity|]. simpl.
    assert (data_shared (set_data (Some (fill_data (node h) d)) (node h)) = true) as ->.
    { unfold data_shared. simpl. apply negb_true_iff, bool_decide_eq_false.
      by apply fill_data_nonempty. }
    simpl. rewrite Hx.
    change (fill_data (set_data ?o (node h))) with (fill_data (node h)).
    rewrite fill_data_idem.
    split; [reflexivity|]. repeat split; reflexivity.
  - eexists _, _, _, _. split; [reflexivity|]. simpl. rewrite Hshared. simpl. rewrite Hx.
    split; [reflexivity|]. repeat split; reflexivity.
Qed.

End facts.

Section session.
Context (config : Config) (remote : Remote).

Ltac step_monad :=
  unfold request_, try_except, bind, emit, write_data, modify, lift, raise, ret, gets, get;
  simpl.

(** *** The base URL *)

Lemma ends_with_slash_spec s : ends_with_slash s = true ↔ ∃ p, s = p +:+ "/".
Proof.
  induction s as [|c s IH].
  - split; [done|]. intros [[|a p] Hp]; discriminate.
  - destruct s as [|c' s'].
    + simpl. case_decide as Hc.
      * split; [|done]. intros _. exists EmptyString. by subst.
      * split; [done|]. intros [[|a p] Hp].
        -- change (String c EmptyString = "/") in Hp. congruence.
        -- change (String c EmptyString = String a (p +:+ "/")) in Hp.
           injection Hp as _ Hp. destruct p; discriminate.
    + change (ends_with_slash (String c (String c' s'))) with (ends_with_slash (String c' s')).
      rewrite IH. split.
      * intros [p Hp]. exists (String c p).
        change (String c (String c' s') = String c (p +:+ "/")). by rewrite Hp.
      * intros [[|a p] Hp]; [discriminate|].
        change (String c (String c' s') = String a (p +:+ "/")) in Hp.
        injection Hp as _ Hp. by exists p.
Qed.

(** X1.  [_init_config]: the base URL every request is built on ends with
    a slash; a configured URL that ends with one is taken as it is, any
    other gets exactly one slash appended. *)
Theorem base_url_ends_with_a_slash :
  (∃ p, citysdk_url config = p +:+ "/")
  ∧ (∀ p, citysdk_url_cfg config = p +:+ "/" → citysdk_url config = citysdk_url_cfg config)
  ∧ ((∀ p, citysdk_url_cfg config ≠ p +:+ "/") →
       citysdk_url config = citysdk_url_cfg config +:+ "/").
Proof.
  unfold citysdk_url.
  destruct (ends_with_slash (citysdk_url_cfg config)) eqn:Hs.
  - apply ends_with_slash_spec in Hs as [p Hp]. split; [by exists p|]. split; [done|].
    intros Hno. by destruct (Hno p).
  - split; [by eexists|]. split; [|done].
    intros p Hp. assert (ends_with_slash (citysdk_url_cfg config) = true) as Ht.
    { apply ends_with_slash_spec. by exists p. }
    congruence.
Qed.

(** *** Authentication *)

Lemma get_session_unfold h :
  get_session config remote h =
    let sent := {| node := node h; log := log h ++ authenticating config |} in
    match send remote (GET (authentication_url config) (verify config) None) with
    | Raise e =>
        if is_Exception e then
          let message := "API Authentication Error: " +:+ quoted (exn_str e) in
          (Raise (ImproperlyConfigured message),
           {| node := node h; log := log sent ++ [LogError message] |})
        else (Raise e, sent)
    | Ret response =>
        if decide (status_code response ≠ 200) then
          let message :=
            match (match json_loads remote (content response) with
                   | Ret d => json_getitem d "message"
                   | Raise e => Raise e
                   end) with
            | Ret value => "API Authentication Error: " +:+ quoted (format_value remote value)
            | Raise _ => "API Authentication Error: " +:+ quoted (content response)
            end in
          (Raise (ImproperlyConfigured message),
           {| node := node h; log := log sent ++ [LogError message] |})
        else
          match json_loads remote (content response) with
          | Raise e => (Raise e, sent)
          | Ret d =>
              match json_getitem d "results" with
              | Raise e => (Raise e, sent)
              | Ret results => (json_first results, sent)
              end
          end
    end.
Proof.
  unfold get_session, authenticating, authentication_url. step_monad.
  rewrite <-!app_assoc. simpl.
  destruct (send remote _) as [response|e]; simpl.
  - destruct (decide (status_code response ≠ 200)); simpl; [done|].
    destruct (json_loads remote (content response)) as [d|e]; simpl; [|done].
    destruct (json_getitem d "results"); simpl; [|done].
    by destruct (json_first _).
  - by destruct (is_Exception e).
Qed.

Lemma get_session_heap h s h1 :
  get_session config remote h = (Ret s, h1) →
  h1 = {| node := node h; log := log h ++ authenticating config |}.
Proof.
  rewrite get_session_unfold. cbv zeta.
  destruct (send remote _) as [response|e]; [|by destruct (is_Exception e)].
  destruct (decide (status_code response ≠ 200)); [done|].
  destruct (json_loads remote (content response)) as [d|]; [|done].
  destruct (json_getitem d "results"); [|done]. by intros [= _ <-].
Qed.

(** X2.  [get_session] returns a token exactly when the authentication
    request is answered with status 200 and a document whose ['results']
    has a first element — the first element of a list, the first character
    of a string — which is the token; the call has then written its two
    lines, sent that one request and left the node alone. *)
Theorem session_is_the_first_result h s h' :
  get_session config remote h = (Ret s, h') ↔
  ∃ response d results,
    send remote (GET (authentication_url config) (verify config) None) = Ret response
    ∧ status_code response = 200
    ∧ loads remote (content response) = Some d
    ∧ json_getitem d "results" = Ret results
    ∧ json_first results = Ret s
    ∧ h' = {| node := node h; log := log h ++ authenticating config |}.
Proof.
  rewrite get_session_unfold. cbv zeta. split.
  - destruct (send remote _) as [response|e]; [|by destruct (is_Exception e)].
    destruct (decide (status_code response ≠ 200)) as [|Hok]; [done|].
    unfold json_loads.
    destruct (loads remote (content response)) as [d|] eqn:Hd; [|done].
    destruct (json_getitem d "results") as [results|] eqn:Hr; [|done].
    intros [= Hs <-]. exists response, d, results.
    repeat split; try done. by destruct (decide (status_code response = 200)); [|lia].
  - intros (response & d & results & -> & Hc & Hd & Hr & Hs & ->).
    destruct (decide (status_code response ≠ 200)); [done|].
    unfold json_loads. by rewrite Hd, Hr, Hs.
Qed.

(** X3.  A refused authentication is an [ImproperlyConfigured]: when the
    request fails with an [Exception], or is answered with a status other
    than 200, [get_session] logs one error and raises
    [ImproperlyConfigured] with the same text.  The text quotes the
    exception; or, for an answer that decodes to a dictionary with a
    ['message'], that message as ['%s'] writes it (a string as it is, a
    number in decimal, [True], [False], [None]); or, for every other
    answer — no JSON document, no dictionary, no ['message'] — the content
    of the answer.  A [KeyboardInterrupt] is passed on as it is. *)
Theorem refused_authentication_is_improperly_configured h :
  let sent := log h ++ authenticating config in
  let refused text :=
    let message := "API Authentication Error: " +:+ quoted text in
    get_session config remote h
    = (Raise (ImproperlyConfigured message),
       {| node := node h; log := sent ++ [LogError message] |}) in
  (∀ e, send remote (GET (authentication_url config) (verify config) None) = Raise e →
        if is_Exception e then refused (exn_str e)
        else get_session config remote h = (Raise e, {| node := node h; log := sent |}))
  ∧ (∀ response,
       send remote (GET (authentication_url config) (verify config) None) = Ret response →
       status_code response ≠ 200 →
       match loads remote (content response) with
       | None => refused (content response)
       | Some d =>
           match json_getitem d "message" with
           | Raise _ => refused (content response)
           | Ret (JStr m) => refused m
           | Ret (JNum z) => refused (pretty z)
           | Ret (JBool b) => refused (if b then "True" else "False")
           | Ret JNull => refused "None"
           | Ret value => refused (repr remote value)
           end
       end).
Proof.
  cbv zeta. split.
  - intros e He. rewrite get_session_unfold, He. cbv zeta. by destruct (is_Exception e).
  - intros response Hr Hc. rewrite get_session_unfold, Hr. cbv zeta.
    destruct (decide (status_code response ≠ 200)); [|done].
    unfold json_loads.
    destruct (loads remote (content response)) as [d|]; [|done].
    destruct (json_getitem d "message") as [[| [|] | | | |]|]; done.
Qed.

Lemma json_getitem_raises d k e :
  json_getitem d k = Raise e → e = KeyError k ∨ e = TypeError.
Proof.
  destruct d; simpl; try (intros [= <-]; by right).
  destruct (list_find _ _) as [[? [? ?]]|]; [done|]. intros [= <-]. by left.
Qed.

Lemma json_first_raises d e :
  json_first d = Raise e → e = IndexError ∨ e = KeyError "0" ∨ e = TypeError.
Proof.
  destruct d as [| | |[|c s]|[|x l]|]; simpl; intros [= <-]; auto.
Qed.

(** X4.  An answer with status 200 that carries no usable session is not
    turned into [ImproperlyConfigured]: [get_session] logs no error and
    ends with the error of the decoding or of the lookup itself
    ([JSONDecodeError], [KeyError], [IndexError] or [TypeError]). *)
Theorem malformed_session_document_is_not_wrapped h response r h' :
  send remote (GET (authentication_url config) (verify config) None) = Ret response →
  status_code response = 200 →
  get_session config remote h = (r, h') →
  h' = {| node := node h; log := log h ++ authenticating config |}
  ∧ match r with
    | Ret _ => True
    | Raise e =>
        (loads remote (content response) = None ∧ ∃ m, e = JSONDecodeError m)
        ∨ (is_Some (loads remote (content response))
           ∧ (e = KeyError "results" ∨ e = KeyError "0" ∨ e = IndexError ∨ e = TypeError))
    end.
Proof.
  intros Hr Hc. rewrite get_session_unfold, Hr. cbv zeta.
  destruct (decide (status_code response ≠ 200)); [done|].
  unfold json_loads.
  destruct (loads remote (content response)) as [d|] eqn:Hd.
  - destruct (json_getitem d "results") as [results|e] eqn:Hg.
    + intros [= <- <-]. split; [done|].
      destruct (json_first results) as [|e] eqn:Hf; [done|]. right. split; [done|].
      apply json_first_raises in Hf as [->|[->| ->]]; auto.
    + intros [= <- <-]. split; [done|]. right. split; [done|].
      apply json_getitem_raises in Hg as [->| ->]; auto.
  - intros [= <- <-]. split; [done|]. left. split; [done|]. by eexists.
Qed.

End session.

Section calls.
Context (config : Config) (remote : Remote).

Ltac step_monad :=
  unfold request_, try_except, bind, emit, write_data, modify, lift, raise, ret, gets, get;
  simpl.

Lemma release_session_unfold s h rel :
  send remote (GET (release_url config) (verify config) (Some s)) = Ret rel →
  release_session config remote s h
  = (Ret (bool_decide (status_code rel = 200)),
     {| node := node h;
        log := log h ++ [Sent (GET (release_url config) (verify config) (Some s));
                         Print (content rel)] |}).
Proof.
  intros Hr. unfold release_session. step_monad. rewrite Hr. simpl.
  rewrite <-app_assoc. simpl.
  destruct (decide (status_code rel = 200)) as [Hc|Hc]; simpl.
  - by rewrite bool_decide_eq_true_2.
  - by rewrite bool_decide_eq_false_2.
Qed.

(** *** Deleting a record *)

(** X5.  [delete], once the session is there and the provider answers:
    after the authentication it sends the DELETE request for
    [<base><external_id>/<layer>?delete_node=true] and then the release,
    both with the session token; it returns [True] exactly when the DELETE
    was answered with status 200, whatever the release was answered, writes
    the outcome as one verbose and one info line, and leaves the node as it
    was. *)
Theorem delete_is_three_requests x h s h1 r rel :
  get_session config remote h = (Ret s, h1) →
  send remote (DELETE (delete_url config x) (verify config) s) = Ret r →
  send remote (GET (release_url config) (verify config) (Some s)) = Ret rel →
  let outcome := if decide (status_code r = 200)
                 then "Deleted a record through the CitySDK HTTP API"
                 else "Failed to delete a record through the CitySDK HTTP API" in
  delete config remote x h
  = (Ret (bool_decide (status_code r = 200)),
     {| node := node h;
        log := log h ++ authenticating config
               ++ [Sent (DELETE (delete_url config x) (verify config) s);
                   Sent (GET (release_url config) (verify config) (Some s));
                   Print (content rel); Verbose outcome; LogInfo outcome] |}).
Proof.
  intros Hs Hd Hrel. cbv zeta.
  rewrite (delete_after_session config remote x h s h1 Hs), Hd. cbv zeta.
  rewrite (release_session_unfold _ _ _ Hrel). simpl.
  rewrite (get_session_heap config remote _ _ _ Hs). simpl.
  destruct (decide (status_code r ≠ 200)) as [Hne|Heq].
  - rewrite bool_decide_eq_false_2 by done.
    destruct (decide (status_code r = 200)); [done|].
    by rewrite <-!app_assoc.
  - assert (status_code r = 200) as H200 by lia.
    rewrite bool_decide_eq_true_2 by done.
    destruct (decide (status_code r = 200)); [|done].
    by rewrite <-!app_assoc.
Qed.

(** *** Creating and updating a record *)



End calls.

Section conversion.

Ltac step_monad :=
  unfold try_except, bind, emit, write_data, modify, lift, raise, ret, gets, get;
  simpl.

(** *** The document of a node *)

Lemma fill_data_lookup n d k :
  fill_data n d !! k =
    if decide (k = "owner") then
      match user n with Some u => Some (JStr (full_name u)) | None => d !! k end
    else if decide (k = "elevation") then
      match elev n with
      | Some z => if decide (z = 0) then d !! k else Some (JNum z)
      | None => d !! k
      end
    else if decide (k = "address") then
      if truthy (address n) then JStr <$> address n else d !! k
    else if decide (k = "description") then
      if truthy (description n) then JStr <$> description n else d !! k
    else if decide (k = "status") then
      match status n with Some s => Some (JStr (status_slug s)) | None => d !! k end
    else d !! k.
Proof.
  unfold fill_data.
  destruct (user n) as [u|], (elev n) as [z|], (address n) as [[|a0 a]|],
    (description n) as [[|b0 b]|], (status n) as [st|];
    try destruct (decide (z = 0)); simpl;
    repeat (case_decide; simplify_eq; simplify_map_eq; try done).
Qed.

(** X7.  The keys [convert_format] writes: the status slug when the node
    has a status; the description and the address when they are not empty;
    the elevation when it is not zero; the owner's full name when the node
    has a user.  An attribute the node lacks leaves the entry the dictionary
    had under that key, and every other key of the dictionary is kept. *)
Theorem attributes_written_into_the_data n d :
  (∀ k, k ∉ attribute_keys → fill_data n d !! k = d !! k)
  ∧ fill_data n d !! "status"
    = match status n with Some s => Some (JStr (status_slug s)) | None => d !! "status" end
  ∧ fill_data n d !! "description"
    = (if truthy (description n) then JStr <$> description n else d !! "description")
  ∧ fill_data n d !! "address"
    = (if truthy (address n) then JStr <$> address n else d !! "address")
  ∧ fill_data n d !! "elevation"
    = match elev n with
      | Some z => if decide (z = 0) then d !! "elevation" else Some (JNum z)
      | None => d !! "elevation"
      end
  ∧ fill_data n d !! "owner"
    = match user n with Some u => Some (JStr (full_name u)) | None => d !! "owner" end.
Proof.
  split; [|by rewrite !fill_data_lookup].
  intros k Hk. rewrite fill_data_lookup. unfold attribute_keys in Hk.
  repeat (case_decide; [subst; exfalso; apply Hk; set_solver|]). done.
Qed.

(** X8.  [convert_format] and the node it reads.  The document has one
    entry, with the name and the geometry of the node and, as data, the
    dictionary of the node with the attributes written into it.  When the
    dictionary of the node is not empty it is that very dictionary that is
    written into, so the node carries the attributes afterwards, also when
    the call raises; a node whose data is [None] or empty is left as it
    was.  Nothing is logged or sent. *)
Theorem convert_format_writes_into_the_node kind h r h' :
  convert_format kind h = (r, h') →
  let n := node h in
  let written := fill_data n (default ∅ (data n)) in
  log h' = log h
  ∧ node h' = (if data_shared n then set_data (Some written) n else n)
  ∧ (data_shared n = true ↔ ∃ d, data n = Some d ∧ d ≠ ∅)
  ∧ match r with
    | Ret document =>
        create_type document = kind ∧ srid document = 4326
        ∧ ∃ e, nodes document = [e] ∧ ne_name e = name n ∧ ne_geom e = geometry n
               ∧ entry_data h' e = written
    | Raise _ => True
    end.
Proof.
  intros Hc. cbv zeta.
  split; [by apply (convert_format_result_log kind h r h')|].
  assert (data_shared (node h) = true ↔ ∃ d, data (node h) = Some d ∧ d ≠ ∅) as Hshared.
  { unfold data_shared. destruct (data (node h)) as [d|].
    - rewrite negb_true_iff, bool_decide_eq_false. split; [by exists d|].
      by intros (? & [= <-] & ?).
    - split; [done|]. by intros (? & ? & ?). }
  cut (node h' = (if data_shared (node h)
                  then set_data (Some (fill_data (node h) (default ∅ (data (node h))))) (node h)
                  else node h)
       ∧ match r with
         | Ret document =>
             create_type document = kind ∧ srid document = 4326
             ∧ ∃ e, nodes document = [e] ∧ ne_name e = name (node h)
                    ∧ ne_geom e = geometry (node h)
                    ∧ entry_data h' e = fill_data (node h) (default ∅ (data (node h)))
         | Raise _ => True
         end); [tauto|].
  clear Hshared. revert Hc. unfold convert_format, entry_data. step_monad.
  destruct (data_shared (node h)) eqn:Hs; simpl.
  - repeat case_decide; try destruct (external (node h));
      intros [= <- <-]; simpl; (split; [done|]);
      try done; (split; [done|]); (split; [done|]); eexists; simpl; done.
  - assert (default ∅ (data (node h)) = ∅) as Hempty.
    { unfold data_shared in Hs. destruct (data (node h)) as [d|]; [|done]. simpl.
      by apply negb_false_iff, bool_decide_eq_true in Hs. }
    rewrite Hempty.
    repeat case_decide; try destruct (external (node h));
      intros [= <- <-]; simpl; (split; [by destruct h|]);
      try done; (split; [done|]); (split; [done|]); eexists; simpl; done.
Qed.

(** X9.  [convert_format] raises in one case only: in update mode on a
    node that has no external record.  In create mode, and for any other
    mode (whose entry then carries neither ['id'] nor ['cdk_id']), it
    returns. *)
Theorem update_needs_an_external_record kind h :
  ((∃ e h', convert_format kind h = (Raise e, h'))
   ↔ kind = "update" ∧ external (node h) = None)
  ∧ (kind ≠ "create" → kind ≠ "update" →
     ∃ e h', convert_format kind h
             = (Ret {| create_type := kind; srid := 4326; nodes := [e] |}, h')
             ∧ ne_id e = None ∧ ne_cdk_id e = None).
Proof.
  unfold convert_format. step_monad. split.
  - split.
    + intros (e & h' & Hc). revert Hc.
      destruct (data_shared (node h)); simpl; repeat case_decide; subst;
        try done; destruct (external (node h)); done.
    + intros [-> Hx]. rewrite Hx.
      destruct (data_shared (node h)); simpl; by eexists _, _.
  - intros H1 H2.
    destruct (data_shared (node h)); simpl; repeat case_decide; try done;
      by eexists _, _.
Qed.

End conversion.

Section validation.
Context (config : Config) (remote : Remote).

Ltac step_monad :=
  unfold request_, try_except, bind, emit, write_data, modify, lift, raise, ret, gets, get;
  simpl.

(** X24.  [clean] checks the authentication and nothing else: when
    [get_session] returns and the release request is answered, [clean]
    returns, whatever the status of that answer — [release_session] tells
    200 from the rest only in its result, which [clean] drops — having sent
    the two requests and printed the content of the second answer; when
    [get_session] raises, [clean] ends with that exception and sends no
    release. *)
Theorem validation_checks_the_authentication_only h :
  (∀ s h1 rel,
     get_session config remote h = (Ret s, h1) →
     send remote (GET (release_url config) (verify config) (Some s)) = Ret rel →
     release_session config remote s h1
     = (Ret (bool_decide (status_code rel = 200)),
        {| node := node h;
           log := log h ++ authenticating config
                  ++ [Sent (GET (release_url config) (verify config) (Some s));
                      Print (content rel)] |})
     ∧ clean config remote h
       = (Ret tt,
          {| node := node h;
             log := log h ++ authenticating config
                    ++ [Sent (GET (release_url config) (verify config) (Some s));
                        Print (content rel)] |}))
  ∧ (∀ e h1, get_session config remote h = (Raise e, h1) →
       clean config remote h = (Raise e, h1)
       ∧ releases config (log h1) = releases config (log h)).
Proof.
  split.
  - intros s h1 rel Hs Hrel.
    pose proof (get_session_heap config remote _ _ _ Hs) as ->.
    rewrite (release_session_unfold config remote _ _ _ Hrel). simpl.
    rewrite <-app_assoc. split; [done|].
    unfold clean. unfold bind at 1. rewrite Hs. unfold bind at 1.
    rewrite (release_session_unfold config remote _ _ _ Hrel). simpl.
    by rewrite <-app_assoc.
  - intros e h1 Hs. split.
    + unfold clean. unfold bind at 1. by rewrite Hs.
    + by destruct (get_session_frame config remote _ _ _ Hs).
Qed.

End validation.

Import CitySdkSamples.





Lemma create_and_update_envelopes_witness :
  external (node heap0) = Some {| external_id := "nodeshot.fusolab" |}
  ∧ ∃ ec eu hc hu,
      convert_format "create" heap0
        = (Ret {| create_type := "create"; srid := 4326; nodes := [ec] |}, hc)
      ∧ convert_format "update" hc
        = (Ret {| create_type := "update"; srid := 4326; nodes := [eu] |}, hu)
      ∧ ne_geom ec = ne_geom eu
      ∧ entry_data hu ec = entry_data hu eu
      ∧ ne_id ec = Some "fusolab"
      ∧ ne_cdk_id eu = Some "nodeshot.fusolab".
Proof.
  split; [reflexivity|].
  destruct (create_and_update_envelopes heap0 _ eq_refl)
    as (ec & eu & hc & hu & Hc & Hu & _ & _ & _ & Hg1 & Hg2 & _ & Hd & Hid & _ & _ & Hcdk).
  exists ec, eu, hc, hu. repeat split; try assumption.
  by rewrite Hg1, Hg2.
Defined.

(** C9: a node that was never sent to the provider has no external
    record; create mode returns its envelope and update mode raises.  And
    on the sample node, which has one, the two envelopes differ in their
    [create_type] as well as in the identifier. *)
Lemma update_mode_raises_without_external_record :
  external (node unexported) = None
  ∧ (∃ e, (convert_format "create" unexported).1
          = Ret {| create_type := "create"; srid := 4326; nodes := [e] |}
          ∧ ne_id e = Some "macondo")
  ∧ (convert_format "update" unexported).1 = Raise (DoesNotExist "NodeExternal")
  ∧ (∃ ec eu, (convert_format "create" heap0).1
              = Ret {| create_type := "create"; srid := 4326; nodes := [ec] |}
              ∧ (convert_format "update" heap0).1
                = Ret {| create_type := "update"; srid := 4326; nodes := [eu] |}).
Proof.
  split; [reflexivity|]. split; [eexists; split; reflexivity|].
  split; [reflexivity|]. eexists _, _. split; reflexivity.
Qed.

(** *** The calls on the sample provider *)

Lemma malformed_session_document_is_not_wrapped_witness :
  let remote := provider garbled stored in
  (get_session config0 remote heap0).1
  = Raise (JSONDecodeError "No JSON object could be decoded")
  ∧ List.filter is_error (log (get_session config0 remote heap0).2) = [].
Proof.
  cbv zeta.
  destruct (malformed_session_document_is_not_wrapped config0 (provider garbled stored)
              heap0 {| status_code := 200; content := "<html>" |}
              (get_session config0 (provider garbled stored) heap0).1
              (get_session config0 (provider garbled stored) heap0).2
              eq_refl eq_refl eq_refl) as [-> _].
  split; reflexivity.
Defined.

Lemma delete_is_three_requests_witness :
  let remote := provider session_granted stored in
  (get_session config0 remote heap0).1 = Ret token
  ∧ (delete config0 remote "nodeshot.fusolab" heap0).1 = Ret true
  ∧ length (log (delete config0 remote "nodeshot.fusolab" heap0).2) = 8%nat.
Proof.
  cbv zeta. split; [reflexivity|].
  rewrite (delete_is_three_requests config0 (provider session_granted stored)
             "nodeshot.fusolab" heap0 token
             (get_session config0 (provider session_granted stored) heap0).2
             {| status_code := 200; content := "stored" |}
             {| status_code := 200; content := "released" |}
             eq_refl eq_refl eq_refl).
  split; reflexivity.
Defined.


Lemma convert_format_writes_into_the_node_witness :
  let h' := (convert_format "create" heap0).2 in
  default ∅ (data (node heap0)) !! "status" = None
  ∧ default ∅ (data (node h')) !! "status" = Some (JStr "active")
  ∧ default ∅ (data (node h')) !! "postal_code" = Some (JStr "00100").
Proof.
  cbv zeta. split; [reflexivity|].
  destruct (convert_format_writes_into_the_node "create" heap0
              (convert_format "create" heap0).1 (convert_format "create" heap0).2
              eq_refl) as (_ & -> & _).
  split; reflexivity.
Defined.

End CitySdkFacts.

(** ** Properties of the importer *)

Module ImporterFacts.

Import Importer.
Local Open Scope list_scope.









(** *** The string methods on sample values *)

Example split_keeps_empty_fields :
  (Str.split "@" "a@b@c", Str.split " " "John  Doe")
  = (["a"; "b"; "c"], ["John"; EmptyString; "Doe"]).
Proof. vm_compute. reflexivity. Qed.

Example capitalize_lowers_the_rest :
  (Str.capitalize "jOHN doe", Str.lower "ABC-xyz", Str.replace "." " " "j.r.doe")
  = ("John doe", "abc-xyz", "j r doe").
Proof. vm_compute. reflexivity. Qed.

Example icontains_ignores_case :
  (Str.icontains "OLSRd" "olsr", Str.icontains "batman" "olsr", Str.take 10 "wlan0-with-long-name")
  = (true, false, "wlan0-with").
Proof. vm_compute. reflexivity. Qed.

(** *** What the deletes leave *)

Lemma shrinks_refl st : shrinks st st.
Proof. by repeat split. Qed.

Lemma shrinks_trans st1 st2 st3 : shrinks st1 st2 → shrinks st2 st3 → shrinks st1 st3.
Proof.
  intros (?&?&?&?&?&?&?&?) (?&?&?&?&?&?&?&?).
  repeat split; by etrans.
Qed.

Lemma filter_subseteq {A} (P : A → Prop) `{∀ x, Decision (P x)} (l : list A) :
  filter P l ⊆ l.
Proof. intros x Hx. by apply list_elem_of_filter in Hx as [_ ?]. Qed.

Lemma drop_interface_shrinks i st : shrinks (drop_interface i st) st.
Proof. unfold drop_interface. repeat split; simpl; try done; apply filter_subseteq. Qed.

Lemma foldr_shrinks {A} (f : A → Store → Store) l st :
  (∀ x st, shrinks (f x st) st) → shrinks (foldr f st l) st.
Proof.
  intros Hf. induction l as [|x l IH]; simpl; [apply shrinks_refl|].
  eapply shrinks_trans; [apply Hf|done].
Qed.

Lemma drop_device_shrinks d st : shrinks (drop_device d st) st.
Proof.
  unfold drop_device.
  eapply shrinks_trans; [|apply (foldr_shrinks drop_interface), drop_interface_shrinks].
  repeat split; simpl; try done; apply filter_subseteq.
Qed.

Lemma drop_node_shrinks n st : shrinks (drop_node n st) st.
Proof.
  unfold drop_node.
  eapply shrinks_trans; [|apply (foldr_shrinks drop_device), drop_device_shrinks].
  repeat split; simpl; try done; apply filter_subseteq.
Qed.

Lemma drop_user_shrinks u st : shrinks (drop_user u st) st.
Proof.
  unfold drop_user. destruct u as [i|]; [|apply shrinks_refl].
  eapply shrinks_trans; [|apply (foldr_shrinks drop_node), drop_node_shrinks].
  repeat split; simpl; try done; apply filter_subseteq.
Qed.

Lemma drop_routing_protocol_shrinks r st : shrinks (drop_routing_protocol r st) st.
Proof. unfold drop_routing_protocol. by repeat split. Qed.

Lemma drop_contact_shrinks c st : shrinks (drop_contact c st) st.
Proof.
  unfold drop_contact. destruct c; [|apply shrinks_refl].
  repeat split; simpl; try done; apply filter_subseteq.
Qed.

Lemma no_interface_shrinks i st st' : no_interface i st → shrinks st' st → no_interface i st'.
Proof.
  intros (Hi & Hv & Ha & Hl) (_&_&_&Si&Sv&Sa&Sl&_).
  split; [|split; [|split]]; intros x Hx; [apply Hi, Si|apply Hv, Sv|apply Ha, Sa|apply Hl, Sl];
    done.
Qed.

Lemma no_device_shrinks d st st' : no_device d st → shrinks st' st → no_device d st'.
Proof. intros H (_&_&S&_) x Hx. by apply H, S. Qed.

Lemma no_node_shrinks n st st' : no_node n st → shrinks st' st → no_node n st'.
Proof. intros H (_&S&_) x Hx. by apply H, S. Qed.

Lemma no_contact_shrinks c st st' : no_contact c st → shrinks st' st → no_contact c st'.
Proof. intros H (_&_&_&_&_&_&_&S) Hc x Hx. by apply H, S. Qed.

Lemma no_user_shrinks u st st' : no_user u st → shrinks st' st → no_user u st'.
Proof. intros H (S&_) Hu x Hx. by apply H, S. Qed.

Lemma drop_interface_gone i st : no_interface i (drop_interface i st).
Proof.
  unfold drop_interface. split; [|split; [|split]]; simpl; intros x Hx;
    by apply list_elem_of_filter in Hx as [? _].
Qed.

Lemma drop_device_gone d st : no_device d (drop_device d st).
Proof. unfold drop_device. intros x Hx. simpl in Hx. by apply list_elem_of_filter in Hx as [? _]. Qed.

Lemma drop_node_gone n st : no_node n (drop_node n st).
Proof. unfold drop_node. intros x Hx. simpl in Hx. by apply list_elem_of_filter in Hx as [? _]. Qed.

Lemma drop_contact_gone c st : no_contact c (drop_contact c st).
Proof.
  unfold drop_contact. intros Hc x Hx. destruct c; [|done]. simpl in Hx.
  by apply list_elem_of_filter in Hx as [? _].
Qed.

Lemma drop_user_gone u st : no_user u (drop_user u st).
Proof.
  unfold drop_user. intros Hu x Hx. destruct u; [|done]. simpl in Hx.
  by apply list_elem_of_filter in Hx as [? _].
Qed.

Lemma foldl_shrinks {A} (drop : A → Store → Store) l st :
  (∀ x st, shrinks (drop x st) st) → shrinks (foldl (λ st x, drop x st) st l) st.
Proof.
  intros Hd. revert st. induction l as [|x l IH]; intros st; simpl; [apply shrinks_refl|].
  eapply shrinks_trans; [apply IH|apply Hd].
Qed.

Lemma foldl_gone {A} (drop : A → Store → Store) (P : A → Store → Prop) l st x :
  (∀ x st, shrinks (drop x st) st) →
  (∀ x st, P x (drop x st)) →
  (∀ x st st', P x st → shrinks st' st → P x st') →
  x ∈ l → P x (foldl (λ st x, drop x st) st l).
Proof.
  intros Hs Hg Hp. revert st. induction l as [|y l IH]; intros st Hin; simpl.
  - by apply elem_of_nil in Hin.
  - apply elem_of_cons in Hin as [->|Hin]; [|by apply IH].
    eapply Hp; [apply Hg|]. by apply foldl_shrinks.
Qed.

Section facts.
Context (env : Env) (settings : Settings).

Local Ltac step_monad :=
  unfold try_except, bind, message, verbose, modify_cmd, modify_db, modify, lift, raise,
    ret, gets, get; simpl.

(** *** Unfolding the monad *)

Lemma bind_eq {S A B} (m : M S A) (k : A → M S B) s :
  bind m k s = match m s with
               | (Ret a, s') => k a s'
               | (Raise e, s') => (Raise e, s')
               end.
Proof. done. Qed.

Lemma try_except_eq {S A} (m : M S A) sel h s :
  try_except m sel h s = match m s with
                         | (Ret a, s') => (Ret a, s')
                         | (Raise e, s') => if sel e then h e s' else (Raise e, s')
                         end.
Proof. done. Qed.

Lemma message_eq m w : message m w = (Ret tt, with_out (out w ++ [m]) w).
Proof. done. Qed.

Lemma verbose_eq m w :
  verbose m w = (Ret tt, if decide (verbosity (cmd w) = 2)
                         then with_out (out w ++ [m]) w else w).
Proof. unfold verbose. step_monad. by case_decide. Qed.

(** *** The status mapping *)

Lemma Status_get_raises st v e :
  Status_get st v = Raise e → e = DoesNotExist "Status".
Proof. unfold Status_get. destruct (list_find _ _) as [[? ?]|]; by intros [= <-]. Qed.

Lemma check_status_item_found item w s :
  Status_get (db w) item.2 = Ret s →
  check_status_item item w =
    (Ret tt, with_cmd (set_status_mapping
       (Some (<[item.1 := Id (status_id s)]> (default ∅ (status_mapping (cmd w))))) (cmd w)) w).
Proof. intros H. unfold check_status_item. step_monad. by rewrite H. Qed.

Lemma check_status_item_missing item w e :
  Status_get (db w) item.2 = Raise e →
  check_status_item item w =
    (Raise (ImproperlyConfigured ("Error! Status with slug " +:+ mapped_str item.2
                                  +:+ " not found in the database")), w).
Proof.
  intros H. unfold check_status_item. step_monad. rewrite H.
  by rewrite (Status_get_raises _ _ _ H).
Qed.

Lemma check_items_missing l w item e :
  item ∈ l → Status_get (db w) item.2 = Raise e →
  ∃ msg x, for_each l check_status_item w
           = (Raise (ImproperlyConfigured msg), with_cmd (set_status_mapping x (cmd w)) w).
Proof.
  intros Hin Hmiss. revert w Hmiss.
  induction l as [|x l IH]; intros w Hmiss; [by apply elem_of_nil in Hin|].
  simpl. unfold bind.
  destruct (Status_get (db w) x.2) as [s|e'] eqn:Hx.
  - rewrite (check_status_item_found _ _ _ Hx).
    apply elem_of_cons in Hin as [->|Hin]; [congruence|].
    destruct (IH Hin (with_cmd (set_status_mapping
       (Some (<[x.1 := Id (status_id s)]> (default ∅ (status_mapping (cmd w))))) (cmd w)) w))
      as (msg & y & ->); [done|].
    exists msg, y. by destruct w.
  - rewrite (check_status_item_missing _ _ _ Hx).
    eexists _, (status_mapping (cmd w)). by destruct w as [[] ? ? ? ? ?].
Qed.

Lemma foldl_insert_lookup (f : mapped → mapped) (l : list (string * mapped))
    (cur : gmap string mapped) k :
  NoDup l.*1 →
  foldl (λ acc item, <[item.1 := f item.2]> acc) cur l !! k =
    match (list_to_map l : gmap string mapped) !! k with
    | Some v => Some (f v)
    | None => cur !! k
    end.
Proof.
  revert cur. induction l as [|[k' v] l IH]; intros cur Hnd; simpl.
  - by rewrite lookup_empty.
  - apply NoDup_cons in Hnd as [Hk' Hnd]. rewrite IH by done.
    destruct (decide (k' = k)) as [->|Hne].
    + rewrite lookup_insert_eq.
      rewrite (not_elem_of_list_to_map_1 (M:=gmap string) l k) by done.
      by rewrite lookup_insert_eq.
    + rewrite !lookup_insert_ne by done. done.
Qed.

Lemma check_items_found l w cur :
  status_mapping (cmd w) = Some cur →
  (∀ item, item ∈ l → ∃ s, Status_get (db w) item.2 = Ret s) →
  for_each l check_status_item w
  = (Ret tt, with_cmd (set_status_mapping
       (Some (foldl (λ acc item, <[item.1 := resolved (db w) item.2]> acc) cur l)) (cmd w)) w).
Proof.
  revert w cur. induction l as [|x l IH]; intros w cur Hcur Hall; simpl.
  - unfold ret. f_equal. rewrite <-Hcur. by destruct w as [[] ? ? ? ? ?].
  - destruct (Hall x) as [s Hx]; [by left|].
    unfold bind. rewrite (check_status_item_found _ _ _ Hx).
    erewrite IH; [|simpl; by rewrite Hcur|].
    + simpl. assert (resolved (db w) x.2 = Id (status_id s)) as ->.
      { unfold resolved. by rewrite Hx. }
      by destruct w.
    + intros item Hitem. apply Hall. by right.
Qed.

Lemma delete_nothing w :
  journal_empty (cmd w) →
  delete_imported_data env w
  = (Ret tt, with_out (out w ++ ["Going to delete all the imported data..."]) w).
Proof.
  intros (Hu & Hn & Hd & Hr & Hi & Hc). unfold delete_imported_data. step_monad.
  by rewrite Hu, Hn, Hd, Hr, Hi, Hc.
Qed.


Lemma mapping_configured_true m :
  m ≠ ∅ → mapping_configured (Some m) = true.
Proof. intros H. simpl. apply negb_true_iff. by apply bool_decide_eq_false. Qed.

Lemma check_status_mapping_missing w m k target e :
  status_mapping (cmd w) = Some m → m ≠ ∅ →
  m !! k = Some target → Status_get (db w) target = Raise e →
  ∃ msg x o, check_status_mapping w
             = (Raise (ImproperlyConfigured msg),
                with_out o (with_cmd (set_status_mapping x (cmd w)) w)).
Proof.
  intros Hm Hne Hk Hmiss. unfold check_status_mapping.
  unfold bind at 1.
  destruct (verbose "checking status mapping..." w) as [r w1] eqn:Hv.
  assert (r = Ret tt ∧ ∃ o, w1 = with_out o w) as [-> [o ->]].
  { revert Hv. unfold verbose. step_monad. case_decide; intros [= <- <-]; (split; [done|]).
    - by eexists. - exists (out w). by destruct w. }
  step_monad. rewrite Hm, (mapping_configured_true _ Hne). simpl.
  destruct (check_items_missing (map_to_list m) (with_out o w) (k, target) e)
    as (msg & x & ->); [by apply elem_of_map_to_list|done|].
  exists msg, x, o. by destruct w.
Qed.

Lemma check_status_mapping_found w m :
  status_mapping (cmd w) = Some m → m ≠ ∅ →
  (∀ k target, m !! k = Some target → ∃ s, Status_get (db w) target = Ret s) →
  ∃ o, check_status_mapping w
       = (Ret tt, with_out o (with_cmd (set_status_mapping
                    (Some (resolved (db w) <$> m)) (cmd w)) w)).
Proof.
  intros Hm Hne Hall. unfold check_status_mapping.
  unfold bind at 1.
  destruct (verbose "checking status mapping..." w) as [r w1] eqn:Hv.
  assert (r = Ret tt ∧ ∃ o, w1 = with_out o w ∧ verbosity (cmd w1) = verbosity (cmd w))
    as [-> (o & -> & Hverb)].
  { revert Hv. unfold verbose. step_monad. case_decide; intros [= <- <-]; (split; [done|]).
    - by eexists. - exists (out w). by destruct w. }
  step_monad. rewrite Hm, (mapping_configured_true _ Hne). simpl.
  rewrite (check_items_found (map_to_list m) (with_out o w) m); [|done|].
  - simpl.
    assert (foldl (λ acc item, <[item.1 := resolved (db w) item.2]> acc) m (map_to_list m)
            = resolved (db w) <$> m) as ->.
    { apply map_eq. intros i.
      rewrite (foldl_insert_lookup (resolved (db w))) by apply NoDup_fst_map_to_list.
      rewrite list_to_map_to_list, lookup_fmap. by destruct (m !! i). }
    step_monad. case_decide; eexists; by destruct w.
  - intros [i t] Hin. apply elem_of_map_to_list in Hin. by apply (Hall i).
Qed.


(** C4.  With a status mapping configured: if a target of the mapping
    names no canonical status, [check_status_mapping] raises
    [ImproperlyConfigured] and [handle] ends with the store as it was, no
    legacy node retrieved, no prompt answered and an empty journal; if
    every target names a status, the mapping comes out with each target
    replaced by the id of that status. *)
Theorem status_mapping_is_checked_before_any_phase v store old input m :
  STATUS_MAPPING settings = Some m → m ≠ ∅ →
  let w0 := boot settings store old input in
  (∀ k target e, m !! k = Some target → Status_get store target = Raise e →
     (∃ msg w1, check_status_mapping w0 = (Raise (ImproperlyConfigured msg), w1)
                ∧ db w1 = store)
     ∧ ∃ msg w',
         handle env settings v w0 = (Ret tt, w')
         ∧ db w' = store ∧ stdin w' = input ∧ old_nodes (cmd w') = []
         ∧ journal_empty (cmd w')
         ∧ ("Got exception " +:+ msg) ∈ out w')
  ∧ ((∀ k target, m !! k = Some target → ∃ s, Status_get store target = Ret s) →
     ∃ w1, check_status_mapping w0 = (Ret tt, w1) ∧ db w1 = store
           ∧ status_mapping (cmd w1) = Some (resolved store <$> m)).
Proof.
  intros Hm Hne w0. split.
  - intros k target e Hk Hmiss. split.
    { destruct (check_status_mapping_missing w0 m k target e) as (msg0 & x0 & o0 & ->);
        [done..|]. by eexists _, _. }
    unfold handle. rewrite bind_eq, try_except_eq, bind_eq, message_eq.
    rewrite bind_eq. unfold modify_cmd at 1, modify at 1. rewrite bind_eq, verbose_eq.
    rewrite bind_eq.
    match goal with |- context [check_status_mapping ?w] => set (w1 := w) end.
    destruct (check_status_mapping_missing w1 m k target e) as (msg & x & o & ->).
    { subst w1. case_decide; done. }
    { done. } { done. } { subst w1. case_decide; done. }
    cbv beta iota. rewrite bind_eq, message_eq. unfold ret at 1.
    rewrite delete_nothing.
    + eexists msg, _. split; [reflexivity|].
      subst w1. simpl. case_decide; repeat split; try done;
        rewrite !elem_of_app, !list_elem_of_singleton; left; by right.
    + subst w1. simpl. case_decide; done.
  - intros Hall. destruct (check_status_mapping_found w0 m) as [o ->]; [done..|].
    eexists. by repeat split.
Qed.

(** *** Zones *)

(** [try_save]: the row goes in, or the store stays as it was; the
    keyboard is not read. *)
Lemma try_save_spec r store saved failed w res w' :
  try_save env r store saved failed w = (res, w') →
  cmd w' = cmd w ∧ stdin w' = stdin w ∧ legacy w' = legacy w ∧
  match res with
  | Ret true => clean env r (db w) = Ret tt ∧ db w' = store (db w)
  | Ret false => (∃ e, clean env r (db w) = Raise e ∧ is_Exception e = true
                       ∧ out w' = out w ++ [failed +:+ ", got exception: " +:+ exn_str e])
                 ∧ db w' = db w
  | Raise e => clean env r (db w) = Raise e ∧ is_Exception e = false ∧ db w' = db w
  end.
Proof.
  unfold try_save. rewrite try_except_eq, !bind_eq. unfold gets at 1.
  rewrite bind_eq. unfold lift at 1.
  destruct (clean env r (db w)) as [[]|e] eqn:Hc.
  - rewrite bind_eq. unfold modify_db at 1, modify at 1. rewrite bind_eq, verbose_eq.
    unfold ret. intros [= <- <-]. simpl. case_decide; by destruct w.
  - destruct (is_Exception e) eqn:He.
    + rewrite bind_eq, message_eq. unfold ret. intros [= <- <-]. simpl.
      repeat split; try done. by exists e.
    + by intros [= <- <-].
Qed.

Lemma assign_layer_one node w l :
  intersecting_layers (db w) node = [l] →
  assign_layer node w = (Ret (Some (set_node_layer_id (Some (layer_id l)) node)), w).
Proof. intros H. unfold assign_layer. step_monad. by rewrite H. Qed.

Lemma assign_layer_none node w :
  intersecting_layers (db w) node = [] →
  assign_layer node w =
    match default_layer (cmd w) with
    | Some d => (Ret (Some (set_node_layer_id (Some d) node)), w)
    | None =>
        (Ret None,
         with_out (out w ++ ["Node " +:+ node_name node +:+ " discarded because is not contained
                                     in any specified layer and no default layer specified"]) w)
    end.
Proof.
  intros H. unfold assign_layer. step_monad. rewrite H. simpl.
  by destruct (default_layer (cmd w)).
Qed.


Lemma get_status_spec value w :
  get_status value w = (Ret None, w) ∨ ∃ e, get_status value w = (Raise e, w).
Proof.
  unfold get_status. step_monad.
  destruct (status_mapping (cmd w)) as [d|]; [|right; by eexists].
  destruct (d !! "default"); [by left|right; by eexists].
Qed.

Lemma persist_node_spec saved old node w r w' :
  persist_node env saved old node w = (r, w') →
  stdin w' = stdin w ∧
  match r with
  | Ret saved' =>
      (saved' = saved ∧ db w' = db w)
      ∨ ∃ n, saved' = saved ++ [n] ∧ node_layer_id n = node_layer_id node
             ∧ node_id n = node_id node
             ∧ db w' = set_nodes (upsert node_id n (nodes (db w))) (db w)
  | Raise _ => db w' = db w
  end.
Proof.
  unfold persist_node. rewrite bind_eq. unfold gets at 1.
  set (n1 := if decide (on_postal_code old = "") then node else _).
  set (n2 := if decide (on_status old = "h" ∨ on_status old = "ah") then _ else n1).
  assert (node_layer_id n2 = node_layer_id node ∧ node_id n2 = node_id node) as [Hl Hi].
  { subst n1 n2. by repeat case_decide. }
  clearbody n2. clear n1. rewrite bind_eq.
  assert (∀ n3 w3, node_layer_id n3 = node_layer_id node → node_id n3 = node_id node →
            stdin w3 = stdin w → db w3 = db w →
            (do ok <- try_save env (RowNode n3)
                        (λ st, set_nodes (upsert node_id n3 (nodes st)) st)
                        ("Saved node " +:+ node_name n3 +:+ " in layer "
                         +:+ from_option pretty "None" (node_layer_id n3))
                        ("Could not save node " +:+ node_name n3);
             ret (if ok then saved ++ [n3] else saved)) w3 = (r, w') →
            stdin w' = stdin w ∧
            match r with
            | Ret saved' =>
                (saved' = saved ∧ db w' = db w)
                ∨ ∃ n, saved' = saved ++ [n] ∧ node_layer_id n = node_layer_id node
                       ∧ node_id n = node_id node
                       ∧ db w' = set_nodes (upsert node_id n (nodes (db w))) (db w)
            | Raise _ => db w' = db w
            end) as Hsave.
  { intros n3 w3 Hl3 Hi3 Hin Hdb. rewrite bind_eq.
    destruct (try_save _ _ _ _ _ w3) as [ok w4] eqn:Hts.
    apply try_save_spec in Hts as (_ & Hin4 & _ & Hres).
    destruct ok as [[]|e]; unfold ret; intros [= <- <-].
    - destruct Hres as [_ ->]. split; [congruence|]. right. exists n3. by rewrite Hdb.
    - destruct Hres as [_ ->]. split; [congruence|]. left. by rewrite Hdb.
    - destruct Hres as (_ & _ & ->). split; congruence. }
  destruct (mapping_configured (status_mapping (cmd w))).
  - rewrite bind_eq.
    destruct (get_status_spec (on_status old) w) as [->|[e ->]].
    + unfold ret at 1. by apply Hsave.
    + by intros [= <- <-].
  - unfold ret at 1. by apply Hsave.
Qed.


Lemma import_node_after_layer saved old w info uid :
  on_status old ≠ "u" →
  users_dict (cmd w) !! on_email old = Some info → saved_id info = Some uid →
  import_node env settings saved old w =
    match (if LAYER_APP_INSTALLED settings then assign_layer (new_node old uid)
           else ret (Some (new_node old uid))) w with
    | (Ret (Some node), w1) => persist_node env saved old node w1
    | (Ret None, w1) => (Ret saved, w1)
    | (Raise e, w1) => (Raise e, w1)
    end.
Proof.
  intros Hu Hinfo Hid. unfold import_node. case_decide; [done|].
  rewrite bind_eq. unfold gets at 1. rewrite bind_eq, Hinfo. unfold lift at 1.
  rewrite bind_eq, Hid. unfold lift at 1. rewrite bind_eq.
  destruct (LAYER_APP_INSTALLED settings); [|done].
  by destruct (assign_layer (new_node old uid) w) as [[[n|]|e] w1].
Qed.

(** C5, as amended.  For a legacy node that is not unconfirmed and whose
    owner was saved.  With the layers application installed: a point in
    exactly one layer is given that layer and a point in no layer the
    default layer when one is configured, in both cases without reading
    the keyboard, and the node that goes into the store carries that layer;
    a point in no layer with no default layer leaves the store and the
    list of saved nodes as they were.  Without the layers application the
    node goes on to validation as it was built, with no layer. *)
Theorem zone_is_resolved_without_prompt saved old w info uid :
  on_status old ≠ "u" →
  users_dict (cmd w) !! on_email old = Some info → saved_id info = Some uid →
  let node := new_node old uid in
  let assigned (zone : Z) :=
    assign_layer node w = (Ret (Some (set_node_layer_id (Some zone) node)), w)
    ∧ ∀ r w', import_node env settings saved old w = (r, w') →
        stdin w' = stdin w ∧
        match r with
        | Ret saved' =>
            (saved' = saved ∧ db w' = db w)
            ∨ ∃ n, saved' = saved ++ [n] ∧ node_layer_id n = Some zone
                   ∧ node_id n = on_id old
                   ∧ db w' = set_nodes (upsert node_id n (nodes (db w))) (db w)
        | Raise _ => db w' = db w
        end in
  (LAYER_APP_INSTALLED settings = true →
     (∀ l, intersecting_layers (db w) node = [l] → assigned (layer_id l))
     ∧ (∀ d, intersecting_layers (db w) node = [] → default_layer (cmd w) = Some d →
          assigned d)
     ∧ (intersecting_layers (db w) node = [] → default_layer (cmd w) = None →
          ∃ w', import_node env settings saved old w = (Ret saved, w')
                ∧ db w' = db w ∧ stdin w' = stdin w))
  ∧ (LAYER_APP_INSTALLED settings = false →
       node_layer_id node = None
       ∧ import_node env settings saved old w = persist_node env saved old node w).
Proof.
  intros Hu Hinfo Hid node assigned.
  pose proof (import_node_after_layer saved old w info uid Hu Hinfo Hid) as Heq.
  fold node in Heq. split; intros Hgate; rewrite Hgate in Heq; [|done].
  assert (∀ zone, assign_layer node w
                  = (Ret (Some (set_node_layer_id (Some zone) node)), w) → assigned zone)
    as Hassigned.
  { intros zone Hz. split; [done|]. intros r w'. rewrite Heq, Hz.
    intros Hp. apply persist_node_spec in Hp as [Hin Hp]. split; [done|].
    destruct r as [saved'|e]; [|done].
    destruct Hp as [?|(n & ? & ? & ? & ?)]; [by left|right]. by exists n. }
  split; [|split].
  - intros l Hl. apply Hassigned. by apply assign_layer_one.
  - intros d Hl Hd. apply Hassigned. by rewrite assign_layer_none, Hd.
  - intros Hl Hd. rewrite Heq, assign_layer_none, Hd by done. by eexists.
Qed.

(** *** Users *)





(** [store_user]: the user goes into the store with a new id and into the
    local list, or [clean] raised and the store is as before. *)
Lemma store_user_spec saved info user w r w' :
  store_user env saved info user w = (r, w') →
  match r with
  | Ret (saved', user') =>
      (clean env (RowUser user) (db w) = Ret tt
       ∧ user' = set_user_id (Some (next_id (db w))) user
       ∧ saved' = saved ++ [user']
       ∧ db w' = set_next_id (next_id (db w) + 1)
                   (set_users (users (db w) ++ [user']) (db w))
       ∧ users_dict (cmd w')
         = <[email user := {| owner := owner info; saved_id := Some (next_id (db w)) |}]>
             (users_dict (cmd w)))
      ∨ ((∃ e, clean env (RowUser user) (db w) = Raise e)
         ∧ user' = user ∧ saved' = saved ∧ db w' = db w ∧ cmd w' = cmd w)
  | Raise e => clean env (RowUser user) (db w) = Raise e ∧ db w' = db w
  end.
Proof.
  unfold store_user. rewrite try_except_eq, bind_eq. unfold save_user.
  rewrite bind_eq. unfold gets at 1. rewrite bind_eq. unfold lift at 1.
  destruct (clean env (RowUser user) (db w)) as [[]|e] eqn:Hc.
  - rewrite bind_eq. unfold modify_db at 1, modify at 1. unfold ret at 1.
    rewrite bind_eq. unfold modify_cmd at 1, modify at 1.
    rewrite bind_eq, verbose_eq. unfold ret.
    intros [= <- <-]. left. simpl. case_decide; by destruct w.
  - destruct (is_Exception e).
    + rewrite bind_eq, message_eq. unfold ret. intros [= <- <-]. right.
      repeat split; try done. by exists e.
    + by intros [= <- <-].
Qed.

Lemma store_email_address_frame user w r w' :
  store_email_address env settings user w = (r, w') →
  users (db w') = users (db w) ∧ cmd w' = cmd w.
Proof.
  unfold store_email_address. destruct (EMAIL_ADDRESS_APP_INSTALLED settings).
  - rewrite try_except_eq, bind_eq. unfold gets at 1. rewrite bind_eq. unfold lift at 1.
    destruct (clean env _ (db w)) as [[]|e].
    + unfold modify_db, modify. by intros [= <- <-].
    + destruct (is_Exception e); rewrite ?message_eq; by intros [= <- <-].
  - unfold ret. by intros [= <- <-].
Qed.





Lemma email_set_fold (l : list OldNode) (acc : gset string) x :
  x ∈ foldl (λ acc node, acc ∪ {[on_email node]}) acc l ↔ x ∈ acc ∨ x ∈ on_email <$> l.
Proof.
  revert acc. induction l as [|n l IH]; intros acc; simpl.
  - split; [by left|]. intros [H|H]; [done|by apply elem_of_nil in H].
  - rewrite IH, elem_of_union, elem_of_singleton, elem_of_cons. split.
    + intros [[H|H]|H]; [by left|right; by left|right; by right].
    + intros [H|[H|H]]; [left; by left|left; by right|by right].
Qed.



(** *** Interfaces and their vaps *)

(** The vap of a legacy interface: only a wireless one with an essid or
    a bssid has it, and both its names are the legacy essid. *)
Lemma build_interface_vap old v :
  (build_interface old).2 = Some v →
  oi_type old = "wifi"
  ∧ truthy (oi_essid old) || truthy (oi_bssid old) = true
  ∧ v = {| vap_interface_id := oi_id old; essid := oi_essid old; bssid := oi_essid old |}.
Proof.
  unfold build_interface. repeat case_decide; simpl; try done.
  destruct (truthy (oi_essid old) || truthy (oi_bssid old)); [|done].
  by intros [= <-].
Qed.

(** Where the legacy bssid goes: the [data] of a wireless interface. *)
Lemma build_interface_bssid old :
  oi_type old = "wifi" →
  if_data (build_interface old).1 !! "bssid"
  = if truthy (oi_bssid old) then oi_bssid old else None.
Proof.
  intros Hw. unfold build_interface. rewrite Hw. simpl.
  destruct (oi_bssid old) as [[|c s]|]; simpl;
    destruct (truthy (oi_essid old)); by simplify_map_eq.
Qed.

Lemma build_ip_frame version old addr w :
  ∃ r o, build_ip env version old addr w = (Ret r, with_out o w).
Proof.
  unfold build_ip. destruct (truthy addr).
  - destruct (valid_ip env _).
    + eexists _, (out w). unfold ret. by destruct w.
    + rewrite bind_eq, message_eq. by eexists _, _.
  - eexists _, (out w). unfold ret. by destruct w.
Qed.

Lemma save_vap_spec saved vap w r w' :
  save_vap env saved vap w = (r, w') →
  legacy w' = legacy w ∧
  match r with
  | Ret saved' => ∃ vs, saved' = saved ++ vs ∧ vaps (db w') = vaps (db w) ++ vs
                        ∧ ∀ v, v ∈ vs → vap = Some v
  | Raise _ => True
  end.
Proof.
  unfold save_vap. destruct vap as [v|].
  - rewrite bind_eq. destruct (try_save _ _ _ _ _ _) as [[[]|e] w1] eqn:H1;
      apply try_save_spec in H1 as (_ & _ & Hl & H1); unfold ret; intros [= <- <-];
      (split; [done|]); [| |done].
    + destruct H1 as [_ ->]. exists [v]. split; [done|]. split; [done|].
      by intros ? ->%list_elem_of_singleton.
    + destruct H1 as [_ ->]. exists []. rewrite !app_nil_r. split; [done|]. split; [done|].
      by intros ? ?%elem_of_nil.
  - unfold ret. intros [= <- <-]. split; [done|]. exists []. rewrite !app_nil_r.
    split; [done|]. split; [done|]. by intros ? ?%elem_of_nil.
Qed.

Lemma save_ip_frame version saved ip w r w' :
  save_ip env version saved ip w = (r, w') →
  legacy w' = legacy w ∧ vaps (db w') = vaps (db w).
Proof.
  unfold save_ip. destruct ip as [a|].
  - rewrite bind_eq. destruct (try_save _ _ _ _ _ _) as [[[]|e] w1] eqn:H1;
      apply try_save_spec in H1 as (_ & _ & Hl & H1); unfold ret; intros [= <- <-];
      (split; [done|]).
    + by destruct H1 as [_ ->].
    + by destruct H1 as [_ ->].
    + by destruct H1 as (_ & _ & ->).
  - unfold ret. by intros [= <- <-].
Qed.

Lemma import_interface_spec acc old w acc' w' :
  import_interface env acc old w = (Ret acc', w') →
  legacy w' = legacy w ∧
  ∃ vs, acc_vaps acc' = acc_vaps acc ++ vs ∧ vaps (db w') = vaps (db w) ++ vs
        ∧ ∀ v, v ∈ vs → (build_interface old).2 = Some v.
Proof.
  unfold import_interface. rewrite bind_eq.
  destruct (build_ip_frame "IPv4" old (oi_ipv4_address old) w) as (ipv4 & o1 & ->).
  rewrite bind_eq.
  destruct (build_ip_frame "IPv6" old (oi_ipv6_address old) (with_out o1 w))
    as (ipv6 & o2 & ->).
  rewrite bind_eq.
  destruct (try_save _ _ _ _ _ _) as [[[]|e] w1] eqn:H1; [| |done];
    apply try_save_spec in H1 as (_ & _ & Hl1 & H1); cbn [negb].
  2:{ unfold ret. intros [= <- <-]. destruct H1 as [_ H1]. split; [done|].
      exists []. rewrite !app_nil_r, H1. split; [done|]. split; [done|].
      by intros ? ?%elem_of_nil. }
  destruct H1 as [_ H1]. simpl in H1, Hl1.
  rewrite bind_eq.
  destruct (save_vap _ _ _ _) as [[vaps1|e] w2] eqn:H2; [|done].
  apply save_vap_spec in H2 as (Hl2 & vs & -> & Hv2 & Hvs).
  rewrite bind_eq.
  destruct (save_ip _ _ _ _ w2) as [[ip4|e] w3] eqn:H3; [|done].
  apply save_ip_frame in H3 as (Hl3 & Hv3).
  rewrite bind_eq.
  destruct (save_ip _ _ _ _ w3) as [[ip6|e] w4] eqn:H4; [|done].
  apply save_ip_frame in H4 as (Hl4 & Hv4).
  unfold ret. intros [= <- <-]. split; [congruence|].
  exists vs. simpl. split; [done|]. split; [|done].
  rewrite Hv4, Hv3, Hv2, H1. done.
Qed.

Lemma import_interfaces_fold l acc w acc' w' :
  foldM (import_interface env) acc l w = (Ret acc', w') →
  legacy w' = legacy w ∧
  ∃ vs, acc_vaps acc' = acc_vaps acc ++ vs ∧ vaps (db w') = vaps (db w) ++ vs
        ∧ ∀ v, v ∈ vs → ∃ old, old ∈ l ∧ (build_interface old).2 = Some v.
Proof.
  revert acc w. induction l as [|old l IH]; intros acc w; simpl.
  - unfold ret. intros [= <- <-]. split; [done|]. exists []. rewrite !app_nil_r.
    split; [done|]. split; [done|]. by intros ? ?%elem_of_nil.
  - rewrite bind_eq.
    destruct (import_interface env acc old w) as [[acc1|e] w1] eqn:Hstep; [|done].
    apply import_interface_spec in Hstep as (Hl1 & vs1 & Ha1 & Hv1 & Hb1).
    intros Hrest. apply IH in Hrest as (Hl & vs & Ha & Hv & Hb).
    split; [congruence|]. exists (vs1 ++ vs).
    rewrite Ha, Ha1, Hv, Hv1, !app_assoc. split; [done|]. split; [done|].
    intros v [Hin|Hin]%elem_of_app.
    + exists old. split; [by left|by apply Hb1].
    + destruct (Hb v Hin) as (old' & ? & ?). exists old'. split; [by right|done].
Qed.

(** C10.  Every vap the interface phase saves belongs to a legacy
    interface of type wifi that has an essid or a bssid, and both its
    [essid] and its [bssid] are the essid of that interface; the legacy
    bssid goes into the [data] of the interface, under the key [bssid],
    and nowhere into the vap. *)
Theorem vap_names_are_the_legacy_essid w w' :
  import_interfaces env w = (Ret tt, w') →
  vaps (db w') = vaps (db w) ++ saved_vaps (cmd w')
  ∧ (∀ v, v ∈ saved_vaps (cmd w') →
       ∃ old, old ∈ OldInterface_objects (legacy w)
         ∧ oi_type old = "wifi"
         ∧ truthy (oi_essid old) || truthy (oi_bssid old) = true
         ∧ v = {| vap_interface_id := oi_id old; essid := oi_essid old;
                  bssid := oi_essid old |}
         ∧ if_data (build_interface old).1 !! "bssid"
           = if truthy (oi_bssid old) then oi_bssid old else None).
Proof.
  unfold import_interfaces. rewrite bind_eq, verbose_eq.
  rewrite bind_eq. unfold gets at 1. rewrite bind_eq, message_eq, bind_eq.
  destruct (foldM _ _ _ _) as [[acc|e] w1] eqn:Hfold; [|done].
  apply import_interfaces_fold in Hfold as (Hl & vs & Ha & Hv & Hb).
  rewrite !bind_eq, !message_eq. unfold modify_cmd, modify.
  intros [= <-]. simpl in *. rewrite Ha.
  assert (vaps (db w1) = vaps (db w) ++ vs) as ->.
  { rewrite Hv. by case_decide. }
  split; [done|]. intros v Hin. destruct (Hb v Hin) as (old & Hold & Hbuilt).
  apply build_interface_vap in Hbuilt as (Hw & Ht & ->).
  exists old. split; [by case_decide|]. split; [done|]. split; [done|]. split; [done|].
  by apply build_interface_bssid.
Qed.

(** *** The rollback *)


(** A [delete()] that goes through removes the row and what hangs on it. *)
Lemma try_delete_ok r drop what w :
  delete_check env r (db w) = Ret tt →
  try_delete env r drop what w = (Ret tt, with_db (drop (db w)) w).
Proof.
  intros delete_goes_through. unfold try_delete. rewrite try_except_eq, bind_eq. unfold gets at 1.
  rewrite bind_eq. unfold lift at 1. by rewrite delete_goes_through.
Qed.

Lemma delete_loop {A} (l : list A) (r : A → row) (drop : A → Store → Store) what w :
  (∀ r st, delete_check env r st = Ret tt) →
  for_each l (λ x, try_delete env (r x) (drop x) (what x)) w
  = (Ret tt, with_db (foldl (λ st x, drop x st) (db w) l) w).
Proof.
  intros delete_goes_through.
  revert w. induction l as [|x l IH]; intros w; simpl.
  - unfold ret. by destruct w.
  - rewrite bind_eq, try_delete_ok, IH by done. by destruct w.
Qed.


(** When every [delete()] goes through, the rollback completes, adds no
    row, and leaves no row of the lists it reads, nor any row that hangs
    on one of them. *)
Lemma rollback_removes_the_journal w :
  (∀ r st, delete_check env r st = Ret tt) →
  ∃ st', delete_imported_data env w
         = (Ret tt, with_db st' (with_out (out w ++ ["Going to delete all the imported data..."]) w))
    ∧ shrinks st' (db w)
    ∧ (∀ i, i ∈ saved_interfaces (cmd w) → no_interface (if_id i) st')
    ∧ (∀ d, d ∈ saved_devices (cmd w) → no_device (device_id d) st')
    ∧ (∀ n, n ∈ saved_nodes (cmd w) → no_node (node_id n) st')
    ∧ (∀ c, c ∈ saved_contacts (cmd w) → no_contact (inward_id c) st')
    ∧ (∀ u, u ∈ saved_users (cmd w) → no_user (user_id u) st').
Proof.
  intros delete_goes_through. unfold delete_imported_data.
  rewrite bind_eq, message_eq, bind_eq. unfold gets at 1.
  set (w0 := with_out _ w).
  rewrite bind_eq, delete_loop by done. set (st1 := foldl _ (db w0) _).
  rewrite bind_eq, delete_loop by done. set (st2 := foldl _ _ _).
  rewrite bind_eq, delete_loop by done. set (st3 := foldl _ _ _).
  rewrite bind_eq, delete_loop by done. set (st4 := foldl _ _ _).
  rewrite bind_eq, delete_loop by done. set (st5 := foldl _ _ _).
  rewrite delete_loop by done. set (st6 := foldl _ _ _).
  assert (S1 : shrinks st1 (db w)).
  { apply (foldl_shrinks (λ x, drop_interface (if_id x))). intros; apply drop_interface_shrinks. }
  assert (S2 : shrinks st2 st1).
  { apply (foldl_shrinks (λ x, drop_device (device_id x))). intros; apply drop_device_shrinks. }
  assert (S3 : shrinks st3 st2).
  { apply (foldl_shrinks (λ x, drop_routing_protocol (rp_id x))).
    intros; apply drop_routing_protocol_shrinks. }
  assert (S4 : shrinks st4 st3).
  { apply (foldl_shrinks (λ x, drop_node (node_id x))). intros; apply drop_node_shrinks. }
  assert (S5 : shrinks st5 st4).
  { apply (foldl_shrinks (λ x, drop_contact (inward_id x))). intros; apply drop_contact_shrinks. }
  assert (S6 : shrinks st6 st5).
  { apply (foldl_shrinks (λ x, drop_user (user_id x))). intros; apply drop_user_shrinks. }
  exists st6. split; [done|].
  split; [eauto 10 using shrinks_trans|].
  split; [|split; [|split; [|split]]].
  - intros i Hi. apply no_interface_shrinks with st1; [|eauto 10 using shrinks_trans].
    apply (foldl_gone (λ x, drop_interface (if_id x)) (λ x, no_interface (if_id x)));
      [intros; apply drop_interface_shrinks|intros; apply drop_interface_gone
      |intros ???; apply no_interface_shrinks|done].
  - intros d Hd. apply no_device_shrinks with st2; [|eauto 10 using shrinks_trans].
    apply (foldl_gone (λ x, drop_device (device_id x)) (λ x, no_device (device_id x)));
      [intros; apply drop_device_shrinks|intros; apply drop_device_gone
      |intros ???; apply no_device_shrinks|done].
  - intros n Hn. apply no_node_shrinks with st4; [|eauto 10 using shrinks_trans].
    apply (foldl_gone (λ x, drop_node (node_id x)) (λ x, no_node (node_id x)));
      [intros; apply drop_node_shrinks|intros; apply drop_node_gone
      |intros ???; apply no_node_shrinks|done].
  - intros c Hc. apply no_contact_shrinks with st5; [|eauto 10 using shrinks_trans].
    apply (foldl_gone (λ x, drop_contact (inward_id x)) (λ x, no_contact (inward_id x)));
      [intros; apply drop_contact_shrinks|intros; apply drop_contact_gone
      |intros ???; apply no_contact_shrinks|done].
  - intros u Hu.
    apply (foldl_gone (λ x, drop_user (user_id x)) (λ x, no_user (user_id x)));
      [intros; apply drop_user_shrinks|intros; apply drop_user_gone
      |intros ???; apply no_user_shrinks|done].
Qed.

End facts.

Section rollback.
Context (env : Env) (settings : Settings).

(** *** The rollback and the end of a run *)

Lemma try_delete_refused r drop what w e :
  delete_check env r (db w) = Raise e → is_Exception e = true →
  try_delete env r drop what w
  = (Ret tt, with_out (out w ++ [not_deleted what e]) w).
Proof.
  intros Hd He. unfold try_delete. rewrite try_except_eq, bind_eq. unfold gets at 1.
  rewrite bind_eq. unfold lift at 1. rewrite Hd, He. by rewrite message_eq.
Qed.

Lemma refused_loop {A} (l : list A) (r : A → row) (drop : A → Store → Store) what w e :
  (∀ r st, delete_check env r st = Raise e) → is_Exception e = true →
  for_each l (λ x, try_delete env (r x) (drop x) (what x)) w
  = (Ret tt, with_out (out w ++ ((λ x, not_deleted (what x) e) <$> l)) w).
Proof.
  intros Hd He. revert w. induction l as [|x l IH]; intros w; simpl.
  - unfold ret. rewrite app_nil_r. by destruct w.
  - rewrite bind_eq, (try_delete_refused _ _ _ _ e) by done. rewrite IH. simpl.
    by rewrite <-app_assoc.
Qed.

(** X10.  A rollback in which every [delete()] raises the same
    [Exception] still runs to its end: the store, the lists of the command
    and the input are as before, and after the opening line there is one
    line for each row of the lists, in the order interfaces, devices,
    routing protocols, nodes, contacts, users. *)
Theorem rollback_reports_every_refused_delete w e :
  (∀ r st, delete_check env r st = Raise e) → is_Exception e = true →
  delete_imported_data env w
  = (Ret tt,
     with_out (out w ++ "Going to delete all the imported data..."
                        :: rollback_report (cmd w) e) w).
Proof.
  intros Hd He. unfold delete_imported_data.
  rewrite bind_eq, message_eq, bind_eq. unfold gets at 1.
  do 5 (rewrite bind_eq, (refused_loop _ _ _ _ _ e) by done).
  rewrite (refused_loop _ _ _ _ _ e) by done.
  destruct w. unfold with_out, rollback_report. simpl. f_equal. f_equal.
  by rewrite <-!app_assoc.
Qed.

Lemma try_delete_returns r drop what w :
  delete_check env r (db w) ≠ Raise KeyboardInterrupt →
  ∃ w', try_delete env r drop what w = (Ret tt, w')
        ∧ cmd w' = cmd w ∧ stdin w' = stdin w ∧ legacy w' = legacy w.
Proof.
  intros Hd. unfold try_delete. rewrite try_except_eq, bind_eq. unfold gets at 1.
  rewrite bind_eq. unfold lift at 1.
  destruct (delete_check env r (db w)) as [[]|e].
  - unfold modify_db, modify. by eexists.
  - destruct e; try done; simpl; rewrite message_eq; by eexists.
Qed.

Lemma for_each_returns {A} (l : list A) (body : A → M World unit) w :
  (∀ x w, ∃ w', body x w = (Ret tt, w')
                ∧ cmd w' = cmd w ∧ stdin w' = stdin w ∧ legacy w' = legacy w) →
  ∃ w', for_each l body w = (Ret tt, w')
        ∧ cmd w' = cmd w ∧ stdin w' = stdin w ∧ legacy w' = legacy w.
Proof.
  intros Hbody. revert w. induction l as [|x l IH]; intros w; simpl.
  - unfold ret. by eexists.
  - rewrite bind_eq. destruct (Hbody x w) as (w1 & -> & Hc & Hi & Hl).
    destruct (IH w1) as (w2 & -> & Hc2 & Hi2 & Hl2).
    exists w2. repeat split; congruence.
Qed.

Lemma delete_imported_data_returns w :
  (∀ r st, delete_check env r st ≠ Raise KeyboardInterrupt) →
  ∃ w', delete_imported_data env w = (Ret tt, w')
        ∧ cmd w' = cmd w ∧ stdin w' = stdin w ∧ legacy w' = legacy w.
Proof.
  intros Hd. unfold delete_imported_data.
  rewrite bind_eq, message_eq, bind_eq. unfold gets at 1.
  set (w0 := with_out _ w).
  assert (cmd w0 = cmd w ∧ stdin w0 = stdin w ∧ legacy w0 = legacy w) as (Hc0 & Hi0 & Hl0)
    by done.
  clearbody w0.
  do 5 (rewrite bind_eq;
        match goal with |- context [for_each ?l ?f ?w1] =>
          let w2 := fresh "w" in
          destruct (for_each_returns l f w1) as (w2 & -> & ? & ? & ?);
            [intros; apply try_delete_returns, Hd|] end).
  match goal with |- context [for_each ?l ?f ?w1] =>
    let w2 := fresh "w" in
    destruct (for_each_returns l f w1) as (w2 & -> & ? & ? & ?);
      [intros; apply try_delete_returns, Hd|] end.
  eexists. split; [done|]. repeat split; congruence.
Qed.

(** X11.  [handle] lets no exception out: whatever the phases do — a
    missing status, a refused row, a key that is not there, the end of the
    input, an interrupt from the keyboard — the command returns, unless a
    [delete()] of the rollback is itself interrupted from the keyboard. *)
Theorem handle_lets_no_exception_out v w :
  (∀ r st, delete_check env r st ≠ Raise KeyboardInterrupt) →
  ∃ w', handle env settings v w = (Ret tt, w').
Proof.
  intros Hd. unfold handle. rewrite bind_eq, try_except_eq.
  match goal with |- context [match ?body w with _ => _ end] =>
    destruct (body w) as [[delete|e] w1] end.
  - destruct delete.
    + destruct (delete_imported_data_returns w1 Hd) as (w2 & -> & _). by eexists.
    + unfold ret. by eexists.
  - assert (∃ w2, (match e with
                   | KeyboardInterrupt => run message "

Operation cancelled..."; ret true
                   | _ => run message ("Got exception " +:+ exn_str e); ret true
                   end) w1 = (Ret true, w2)) as (w2 & ->).
    { destruct e; rewrite bind_eq, message_eq; unfold ret; by eexists. }
    destruct (delete_imported_data_returns w2 Hd) as (w3 & -> & _). by eexists.
Qed.

End rollback.

Section prompts.
Context (env : Env) (settings : Settings).

(** *** The prompts *)

Lemma ask_skips_invalid {A} dflt (valid : string → option A) retry bad line rest printed a :
  Forall (λ s, valid (answer_of dflt s) = None) bad →
  valid (answer_of dflt line) = Some a →
  ask dflt valid retry ((Line <$> bad) ++ Line line :: rest) printed
  = (Ret a, (rest, printed ++ replicate (length bad) retry)).
Proof.
  intros Hbad Hline. revert printed.
  induction Hbad as [|s bad Hs Hbad IH]; intros printed; simpl.
  - fold (answer_of dflt line). rewrite Hline. by rewrite app_nil_r.
  - fold (answer_of dflt s). rewrite Hs, IH. by rewrite <-app_assoc.
Qed.

Lemma ask_runs_out {A} dflt (valid : string → option A) retry bad printed :
  Forall (λ s, valid (answer_of dflt s) = None) bad →
  ask dflt valid retry (Line <$> bad) printed
  = (Raise EOFError, ([], printed ++ replicate (length bad) retry)).
Proof.
  intros Hbad. revert printed.
  induction Hbad as [|s bad Hs Hbad IH]; intros printed; simpl.
  - by rewrite app_nil_r.
  - fold (answer_of dflt s). rewrite Hs, IH. by rewrite <-app_assoc.
Qed.

Lemma ask_accepts {A} dflt (valid : string → option A) retry input printed a rest printed' :
  ask dflt valid retry input printed = (Ret a, (rest, printed')) →
  ∃ line, valid (answer_of dflt line) = Some a.
Proof.
  revert printed. induction input as [|[s|] input IH]; intros printed; simpl; [done| |done].
  fold (answer_of dflt s).
  destruct (valid (answer_of dflt s)) as [a'|] eqn:Hv.
  - intros [= <- _ _]. by exists s.
  - apply IH.
Qed.

Lemma asking_frame {A} dflt (valid : string → option A) retry w r w' :
  asking dflt valid retry w = (r, w') →
  cmd w' = cmd w ∧ db w' = db w ∧ legacy w' = legacy w
  ∧ match r with Ret a => ∃ line, valid (answer_of dflt line) = Some a | Raise _ => True end.
Proof.
  unfold asking.
  destruct (ask dflt valid retry (stdin w) (out w)) as [r0 [rest printed]] eqn:Hask.
  intros [= <- <-]. repeat split; try done.
  destruct r0 as [a|]; [|done]. by apply ask_accepts in Hask.
Qed.

(** X12.  The confirmation at the end of a run.  Lines that are neither
    empty nor, in any case of letters, [y] or [n] are answered with the
    request for a valid answer and the next line is read; an empty line
    or [y] ends the run with "Operation completed!" and the store as it
    is; [n] hands over to [delete_imported_data].  When the input ends
    before a valid answer, the call ends with [EOFError]. *)
Theorem confirmation_asks_until_answered w bad :
  Forall (λ s, answer_of "y" s ≠ "y" ∧ answer_of "y" s ≠ "n") bad →
  ∃ question retry,
    let asked w' := with_out (out w ++ question :: replicate (length bad) retry) w' in
    (∀ line rest, stdin w = (Line <$> bad) ++ Line line :: rest →
       (answer_of "y" line = "y" →
          confirm_operation_completed env w
          = (Ret tt, with_out (out w ++ question :: replicate (length bad) retry
                                     ++ ["Operation completed!"]) (with_stdin rest w)))
       ∧ (answer_of "y" line = "n" →
          confirm_operation_completed env w
          = delete_imported_data env (asked (with_stdin rest w))))
    ∧ (stdin w = Line <$> bad →
         confirm_operation_completed env w = (Raise EOFError, asked (with_stdin [] w))).
Proof.
  intros Hbad. eexists _, _. cbv zeta. unfold confirm_operation_completed.
  set (valid := λ a : string, if decide (a = "y") then Some true
                              else if decide (a = "n") then Some false else None).
  assert (Forall (λ s, valid (answer_of "y" s) = None) bad) as Hbad'.
  { eapply Forall_impl; [exact Hbad|]. intros s [H1 H2]. unfold valid.
    by repeat case_decide. }
  split.
  - intros line rest Hin. split; intros Hline.
    + rewrite bind_eq, message_eq, bind_eq. unfold asking. simpl. rewrite Hin.
      rewrite (ask_skips_invalid "y" valid _ bad line rest _ true Hbad')
        by (unfold valid; rewrite Hline; by case_decide).
      rewrite message_eq. destruct w. unfold with_out, with_stdin. simpl.
      by rewrite <-!app_assoc.
    + rewrite bind_eq, message_eq, bind_eq. unfold asking. simpl. rewrite Hin.
      rewrite (ask_skips_invalid "y" valid _ bad line rest _ false Hbad')
        by (unfold valid; rewrite Hline; by repeat case_decide).
      destruct w. unfold with_out, with_stdin. simpl. by rewrite <-!app_assoc.
  - intros Hin. rewrite bind_eq, message_eq, bind_eq. unfold asking. simpl. rewrite Hin.
    rewrite (ask_runs_out "y" valid _ bad _ Hbad').
    destruct w. unfold with_out, with_stdin. simpl. by rewrite <-!app_assoc.
Qed.

Lemma offered_layers (layers : list Layer) (acc : gmap string answer) (P : Z → Prop) :
  (∀ s i, acc !! s = Some (Chosen i) → P i) →
  (∀ l, l ∈ layers → P (layer_id l)) →
  ∀ s i, foldl (λ valid layer, <[pretty (layer_id layer) := Chosen (layer_id layer)]> valid)
           acc layers !! s = Some (Chosen i) → P i.
Proof.
  revert acc. induction layers as [|l layers IH]; intros acc Hacc Hl; simpl; [done|].
  apply IH.
  - intros s i. destruct (decide (pretty (layer_id l) = s)) as [<-|Hne].
    + rewrite lookup_insert_eq. intros [= <-]. apply Hl. by left.
    + rewrite lookup_insert_ne by done. apply Hacc.
  - intros l' Hin. apply Hl. by right.
Qed.

Lemma prompt_layer_selection_spec node layers w r w' :
  prompt_layer_selection node layers w = (r, w') →
  cmd w' = cmd w ∧ db w' = db w ∧ legacy w' = legacy w
  ∧ match r with
    | Ret (Chosen i) => i ∈ layer_id <$> layers
    | _ => True
    end.
Proof.
  unfold prompt_layer_selection. rewrite bind_eq, message_eq, bind_eq.
  destruct (asking _ _ _ _) as [[a|e] w1] eqn:Hask;
    apply asking_frame in Hask as (Hc & Hd & Hl & Ha).
  - rewrite bind_eq, message_eq. unfold ret. intros [= <- <-]. simpl in *.
    repeat split; try done. destruct a as [i| |]; [|done..].
    destruct Ha as (line & Hv). revert Hv.
    apply (offered_layers layers _ (λ i, i ∈ layer_id <$> layers)).
    + intros s j Hs.
      repeat (apply lookup_insert_Some in Hs as [[_ [=]]|[_ Hs]]). done.
    + intros l Hin. apply list_elem_of_fmap. by exists l.
  - intros [= <- <-]. simpl in *. done.
Qed.

Lemma assign_layer_spec node w r w' :
  assign_layer node w = (r, w') →
  cmd w' = cmd w ∧ db w' = db w ∧ legacy w' = legacy w
  ∧ match r with
    | Ret (Some node') =>
        ∃ zone, node' = set_node_layer_id (Some zone) node
          ∧ ((∃ l, l ∈ layers (db w) ∧ layer_id l = zone
                   ∧ contains l (node_geometry node).1 (node_geometry node).2 = true)
             ∨ default_layer (cmd w) = Some zone)
    | Ret None =>
        length (intersecting_layers (db w) node) ≠ 1%nat
    | Raise e => (1 < length (intersecting_layers (db w) node))%nat
    end.
Proof.
  unfold assign_layer. rewrite bind_eq. unfold gets at 1. rewrite bind_eq. unfold gets at 1.
  assert (∀ i, i ∈ layer_id <$> intersecting_layers (db w) node →
            ∃ l, l ∈ layers (db w) ∧ layer_id l = i
                 ∧ contains l (node_geometry node).1 (node_geometry node).2 = true) as Hin.
  { intros i (l & -> & Hl)%list_elem_of_fmap. unfold intersecting_layers in Hl.
    apply list_elem_of_filter in Hl as [Hc Hl]. by exists l. }
  destruct (1 <? length (intersecting_layers (db w) node))%nat eqn:Hmany.
  - apply Nat.ltb_lt in Hmany. rewrite bind_eq.
    destruct (prompt_layer_selection _ _ _) as [[a|e] w1] eqn:Hp;
      apply prompt_layer_selection_spec in Hp as (Hc & Hd & Hl & Ha).
    + destruct a as [i| |].
      * unfold ret. intros [= <- <-]. repeat split; try done.
        exists i. split; [done|]. left. by apply Hin.
      * destruct (default_layer (cmd w)) as [d|] eqn:Hdef.
        -- unfold ret. intros [= <- <-]. repeat split; try done.
           exists d. split; [done|]. by right.
        -- rewrite bind_eq, message_eq. unfold ret. intros [= <- <-]. simpl.
           repeat split; try done. lia.
      * assert ((run message ("Node " +:+ node_name node +:+ " discarded"); ret None) w1
                = (r, w') → r = Ret None ∧ cmd w' = cmd w1 ∧ db w' = db w1
                            ∧ legacy w' = legacy w1) as Hdis.
        { rewrite bind_eq, message_eq. unfold ret. by intros [= <- <-]. }
        destruct (default_layer (cmd w)); intros (-> & ? & ? & ?)%Hdis;
          repeat split; try congruence; lia.
    + intros [= <- <-]. repeat split; try done.
  - apply Nat.ltb_ge in Hmany.
    destruct ((length (intersecting_layers (db w) node) <? 2)
              && (0 <? length (intersecting_layers (db w) node)))%nat eqn:Hone.
    + destruct (intersecting_layers (db w) node) as [|l [|l' ls]] eqn:Hls; try done.
      simpl. unfold ret. intros [= <- <-]. repeat split; try done.
      exists (layer_id l). split; [done|]. left. apply Hin. by left.
    + destruct (default_layer (cmd w)) as [d|] eqn:Hdef.
      * unfold ret. intros [= <- <-]. repeat split; try done.
        exists d. split; [done|]. by right.
      * rewrite bind_eq, message_eq. unfold ret. intros [= <- <-]. simpl.
        repeat split; try done.
        destruct (intersecting_layers (db w) node) as [|l [|l' ls]]; simpl in *; try done; lia.
Qed.

(** X13.  The zone of a node, whatever the operator answers.  When
    [assign_layer] lets a node through, the node is as it was but for its
    layer, and that layer is one of the layers whose area holds the point
    of the node, or the default layer of the settings; the store and the
    command are untouched.  With more than one such layer the operator is
    asked, and cannot name a layer that was not offered. *)
Theorem zone_holds_the_point_or_is_the_default node w r w' :
  assign_layer node w = (r, w') →
  cmd w' = cmd w ∧ db w' = db w ∧ legacy w' = legacy w
  ∧ match r with
    | Ret (Some node') =>
        ∃ zone, node' = set_node_layer_id (Some zone) node
          ∧ ((∃ l, l ∈ layers (db w) ∧ layer_id l = zone
                   ∧ contains l (node_geometry node).1 (node_geometry node).2 = true)
             ∨ default_layer (cmd w) = Some zone)
    | Ret None =>
        length (intersecting_layers (db w) node) ≠ 1%nat
    | Raise e => (1 < length (intersecting_layers (db w) node))%nat
    end.
Proof. apply assign_layer_spec. Qed.


End prompts.

Section users_and_nodes.
Context (env : Env) (settings : Settings).

(** *** The owners *)

Lemma users_dict_fold (l : list OldNode) (acc : gmap string UserInfo) m :
  foldl (λ acc node,
           match acc !! on_email node with
           | Some _ => acc
           | None => <[on_email node := {| owner := on_owner node; saved_id := None |}]> acc
           end) acc l !! m
  = match acc !! m with
    | Some i => Some i
    | None => (λ n, {| owner := on_owner n; saved_id := None |})
                <$> head (filter (λ n, on_email n = m) l)
    end.
Proof.
  revert acc. induction l as [|n l IH]; intros acc; simpl.
  - by destruct (acc !! m).
  - rewrite IH, filter_cons.
    destruct (acc !! on_email n) as [i|] eqn:Hn.
    + destruct (acc !! m) as [j|] eqn:Hm; [done|].
      case_decide as He; [|done]. congruence.
    + destruct (decide (on_email n = m)) as [He|He].
      * subst m. rewrite lookup_insert_eq, Hn. done.
      * rewrite lookup_insert_ne by done. done.
Qed.

Lemma first_owner_recorded w :
  let w1 := (extract_users w).2 in
  (extract_users w).1 = Ret tt
  ∧ db w1 = db w ∧ old_nodes (cmd w1) = old_nodes (cmd w)
  ∧ (∀ m, m ∈ email_set (cmd w1) ↔ m ∈ on_email <$> old_nodes (cmd w))
  ∧ (∀ m, users_dict (cmd w1) !! m
          = (λ n, {| owner := on_owner n; saved_id := None |})
              <$> head (filter (λ n, on_email n = m) (old_nodes (cmd w)))).
Proof.
  cbv zeta. destruct (extract_users w) as [r w1] eqn:He. simpl. revert He.
  unfold extract_users. rewrite bind_eq, verbose_eq.
  rewrite bind_eq. unfold gets at 1. rewrite bind_eq.
  unfold modify_cmd at 1, modify at 1. rewrite verbose_eq. intros [= <- <-].
  assert (∀ x, x ∈ foldl (λ acc node, acc ∪ {[on_email node]}) (∅ : gset string)
                       (old_nodes (cmd w)) ↔ x ∈ on_email <$> old_nodes (cmd w)) as Hset.
  { intros x. rewrite email_set_fold. split; [|by right].
    intros [H|H]; [by apply elem_of_empty in H|done]. }
  repeat case_decide; simpl; (split; [done|]); (split; [done|]); (split; [done|]);
    (split; [intros x; by rewrite <-Hset|]); intros m; by rewrite users_dict_fold.
Qed.

(** X14.  [extract_users] always returns and leaves the store alone.
    The set of emails is the set of the emails of the retrieved nodes, and
    the dictionary has one entry for each of them: the owner is the one
    given on the first retrieved node with that email — a different owner
    on a later node with the same email is dropped — and no id is there
    yet. *)
Theorem first_owner_of_an_email_is_recorded w :
  let w1 := (extract_users w).2 in
  (extract_users w).1 = Ret tt
  ∧ db w1 = db w ∧ old_nodes (cmd w1) = old_nodes (cmd w)
  ∧ (∀ m, m ∈ email_set (cmd w1) ↔ m ∈ on_email <$> old_nodes (cmd w))
  ∧ (∀ m, users_dict (cmd w1) !! m
          = (λ n, {| owner := on_owner n; saved_id := None |})
              <$> head (filter (λ n, on_email n = m) (old_nodes (cmd w)))).
Proof. apply first_owner_recorded. Qed.


(** X15.  An email whose owner is blank must hold exactly one [@]: when
    the owner recorded for an email is empty or white space and the email
    does not split at [@] into two parts, [owner, domain = email.split('@')]
    fails and the round of [import_users] for that email ends with
    [ValueError], outside every [try] of the loop; nothing has been written
    and no password drawn. *)
Theorem blank_owner_needs_an_email_with_one_at saved mail w info :
  users_dict (cmd w) !! mail = Some info →
  Str.strip (owner info) = "" →
  length (Str.split "@" mail) ≠ 2%nat →
  ∃ msg, import_user env settings saved mail w = (Raise (ValueError msg), w).
Proof.
  intros Hinfo Hblank Hparts. unfold import_user.
  rewrite bind_eq. unfold gets at 1. rewrite bind_eq, Hinfo. unfold lift at 1.
  rewrite bind_eq. unfold lift at 1. unfold owner_name.
  case_decide; [|done].
  destruct (Str.split "@" mail) as [|a [|b [|c l]]]; simpl in *; try done; by eexists.
Qed.

(** *** The nodes *)

Lemma persist_node_saves saved old uid layer w saved' w' :
  let node := set_node_layer_id layer (new_node old uid) in
  persist_node env saved old node w = (Ret saved', w') →
  cmd w' = cmd w ∧ legacy w' = legacy w ∧ layers (db w') = layers (db w)
  ∧ users (db w') = users (db w)
  ∧ (saved' = saved ∨ saved' = saved ++ [set_node_data (node_extra old) node]).
Proof.
  cbv zeta. unfold persist_node. rewrite bind_eq. unfold gets at 1.
  set (n2 := if decide (on_status old = "h" ∨ on_status old = "ah") then _ else _).
  assert (n2 = set_node_data (node_extra old) (set_node_layer_id layer (new_node old uid)))
    as Hn2.
  { subst n2. unfold node_extra. by repeat case_decide. }
  clearbody n2. subst n2.
  set (n := set_node_data _ _).
  assert (set_node_status_id None n = n) as Hnone by done.
  rewrite bind_eq.
  assert (∀ w3, cmd w3 = cmd w → legacy w3 = legacy w → db w3 = db w →
            (do ok <- try_save env (RowNode n)
                        (λ st, set_nodes (upsert node_id n (nodes st)) st)
                        ("Saved node " +:+ node_name n +:+ " in layer "
                         +:+ from_option pretty "None" (node_layer_id n))
                        ("Could not save node " +:+ node_name n);
             ret (if ok then saved ++ [n] else saved)) w3 = (Ret saved', w') →
            cmd w' = cmd w ∧ legacy w' = legacy w ∧ layers (db w') = layers (db w)
            ∧ users (db w') = users (db w)
            ∧ (saved' = saved ∨ saved' = saved ++ [n])) as Hsave.
  { intros w3 Hc Hl Hdb. rewrite bind_eq.
    destruct (try_save _ _ _ _ _ w3) as [ok w4] eqn:Hts.
    apply try_save_spec in Hts as (Hc4 & _ & Hl4 & Hres).
    destruct ok as [[]|e]; unfold ret; intros [= <- <-].
    - destruct Hres as [_ ->]. rewrite Hdb. repeat split; try congruence. by right.
    - destruct Hres as [_ ->]. rewrite Hdb. repeat split; try congruence. by left. }
  destruct (mapping_configured (status_mapping (cmd w))).
  - rewrite bind_eq.
    destruct (get_status_spec (on_status old) w) as [->|[e ->]]; [|done].
    unfold ret at 1. rewrite Hnone. by apply Hsave.
  - unfold ret at 1. by apply Hsave.
Qed.

Lemma import_node_spec saved old w saved' w' :
  import_node env settings saved old w = (Ret saved', w') →
  cmd w' = cmd w ∧ legacy w' = legacy w ∧ layers (db w') = layers (db w)
  ∧ users (db w') = users (db w)
  ∧ (saved' = saved
     ∨ ∃ info layer,
         on_status old ≠ "u"
         ∧ users_dict (cmd w) !! on_email old = Some info
         ∧ saved' = saved ++ [set_node_data (node_extra old)
                                (set_node_layer_id layer
                                   (new_node old (default 0 (saved_id info))))]
         ∧ is_Some (saved_id info)
         ∧ match layer with
           | Some zone => LAYER_APP_INSTALLED settings = true
                          ∧ zone_of (db w) (cmd w) old zone
           | None => LAYER_APP_INSTALLED settings = false
           end).
Proof.
  unfold import_node. case_decide as Hu.
  { unfold ret. intros [= <- <-]. repeat split; try done. by left. }
  rewrite bind_eq. unfold gets at 1. rewrite bind_eq. unfold lift at 1.
  destruct (users_dict (cmd w) !! on_email old) as [info|] eqn:Hinfo; [|done].
  rewrite bind_eq. unfold lift at 1.
  destruct (saved_id info) as [uid|] eqn:Hid; [|done].
  rewrite bind_eq.
  destruct (LAYER_APP_INSTALLED settings) eqn:Hlayers.
  - destruct (assign_layer (new_node old uid) w) as [[[node|]|e] w1] eqn:Ha; [| |done].
    + apply assign_layer_spec in Ha as (Hc & Hd & Hl & zone & -> & Hzone).
      intros Hp. apply persist_node_saves in Hp as (Hc' & Hl' & Hla & Hus & Hsaved).
      rewrite Hc', Hl', Hla, Hus, Hc, Hl, Hd. repeat split; try done.
      destruct Hsaved as [->| ->]; [by left|]. right.
      exists info, (Some zone). rewrite Hid. simpl.
      repeat split; try done; try by eexists.
    + apply assign_layer_spec in Ha as (Hc & Hd & Hl & _).
      unfold ret. intros [= <- <-]. rewrite Hc, Hl, Hd. repeat split; try done. by left.
  - unfold ret at 1. intros Hp.
    assert (new_node old uid = set_node_layer_id None (new_node old uid)) as Hnew by done.
    rewrite Hnew in Hp.
    apply persist_node_saves in Hp as (Hc' & Hl' & Hla & Hus & Hsaved).
    repeat split; try done.
    destruct Hsaved as [->| ->]; [by left|]. right.
    exists info, None. rewrite Hid. simpl. repeat split; try done; try by eexists.
Qed.

Lemma import_nodes_fold l saved w saved' w' :
  foldM (import_node env settings) saved l w = (Ret saved', w') →
  cmd w' = cmd w ∧ legacy w' = legacy w ∧ layers (db w') = layers (db w)
  ∧ users (db w') = users (db w)
  ∧ ∃ new, saved' = saved ++ new
      ∧ ∀ n, n ∈ new →
          ∃ old info layer,
            old ∈ l ∧ on_status old ≠ "u"
            ∧ users_dict (cmd w) !! on_email old = Some info
            ∧ n = set_node_data (node_extra old)
                    (set_node_layer_id layer (new_node old (default 0 (saved_id info))))
            ∧ is_Some (saved_id info)
            ∧ match layer with
              | Some zone => LAYER_APP_INSTALLED settings = true
                             ∧ zone_of (db w) (cmd w) old zone
              | None => LAYER_APP_INSTALLED settings = false
              end.
Proof.
  revert saved w. induction l as [|old l IH]; intros saved w; simpl.
  - unfold ret. intros [= <- <-]. repeat split; try done. exists []. rewrite app_nil_r.
    split; [done|]. by intros ? ?%elem_of_nil.
  - rewrite bind_eq.
    destruct (import_node env settings saved old w) as [[saved1|e] w1] eqn:Hstep; [|done].
    apply import_node_spec in Hstep as (Hc1 & Hl1 & Hla1 & Hu1 & Hs1).
    intros Hrest. apply IH in Hrest as (Hc & Hl & Hla & Hu & new & -> & Hnew).
    rewrite Hc, Hl, Hla, Hu. repeat split; try done.
    assert (∀ n, n ∈ new →
              ∃ old0 info layer,
                old0 ∈ old :: l ∧ on_status old0 ≠ "u"
                ∧ users_dict (cmd w) !! on_email old0 = Some info
                ∧ n = set_node_data (node_extra old0)
                        (set_node_layer_id layer
                           (new_node old0 (default 0 (saved_id info))))
                ∧ is_Some (saved_id info)
                ∧ match layer with
                  | Some zone => LAYER_APP_INSTALLED settings = true
                                 ∧ zone_of (db w) (cmd w) old0 zone
                  | None => LAYER_APP_INSTALLED settings = false
                  end) as Hnew'.
    { intros n Hn. destruct (Hnew n Hn) as (old0 & info & layer & Hin & Hst & Hi & -> & Hid & Hz).
      exists old0, info, layer. rewrite <-Hc1. repeat split; try done; [by right|].
      destruct layer as [zone|]; [|done]. destruct Hz as [Hz1 Hz2]. split; [done|].
      unfold zone_of in *. by rewrite <-Hla1. }
    destruct Hs1 as [->|(info & layer & Hst & Hi & -> & Hid & Hz)].
    + by exists new.
    + exists (set_node_data (node_extra old)
                (set_node_layer_id layer (new_node old (default 0 (saved_id info)))) :: new).
      split; [by rewrite <-app_assoc|].
      intros n [->|Hn]%elem_of_cons; [|by apply Hnew'].
      exists old, info, layer. repeat split; try done. by left.
Qed.

(** X16.  What the node phase saves.  Every node in the list of saved
    nodes comes from a retrieved legacy node that is not unconfirmed
    (status [u]), with the id, name, slug, coordinates (longitude first),
    elevation, description, notes and dates of that record and no status;
    its owner is the user saved for the email of the record; its data holds
    the postal code when the record has one and [is_hotspot] = ['true']
    when the status of the record is [h] or [ah], and nothing else; with
    the layers application installed its layer is one whose area holds its
    point, or the default layer, and without it the node has no layer.
    The phase leaves the users and the dictionary of owners as they were. *)
Theorem nodes_are_copied_from_confirmed_records w w' :
  import_nodes env settings w = (Ret tt, w') →
  users (db w') = users (db w)
  ∧ users_dict (cmd w') = users_dict (cmd w)
  ∧ ∀ n, n ∈ saved_nodes (cmd w') →
      ∃ old info owner_id,
        old ∈ old_nodes (cmd w) ∧ on_status old ≠ "u"
        ∧ users_dict (cmd w) !! on_email old = Some info
        ∧ saved_id info = Some owner_id
        ∧ n = {| node_id := on_id old; node_user_id := owner_id;
                 node_name := on_name old; node_slug := on_slug old;
                 node_geometry := (on_lng old, on_lat old);
                 node_elev := on_alt old;
                 node_description := on_description old;
                 node_notes := on_notes old; node_added := on_added old;
                 node_updated := on_updated old;
                 node_data := node_data n; node_layer_id := node_layer_id n;
                 node_status_id := None |}
        ∧ node_data n !! "postal_code"
          = (if decide (on_postal_code old = "") then None else Some (on_postal_code old))
        ∧ node_data n !! "is_hotspot"
          = (if decide (on_status old = "h" ∨ on_status old = "ah") then Some "true" else None)
        ∧ (∀ k, k ≠ "postal_code" → k ≠ "is_hotspot" → node_data n !! k = None)
        ∧ match node_layer_id n with
          | Some zone => LAYER_APP_INSTALLED settings = true
                         ∧ zone_of (db w) (cmd w) old zone
          | None => LAYER_APP_INSTALLED settings = false
          end.
Proof.
  unfold import_nodes. rewrite bind_eq, message_eq, bind_eq. unfold gets at 1.
  rewrite bind_eq.
  destruct (foldM _ _ _ _) as [[saved|e] w1] eqn:Hfold; [|done].
  apply import_nodes_fold in Hfold as (Hc & Hl & Hla & Hu & new & -> & Hnew).
  rewrite bind_eq, message_eq. unfold modify_cmd, modify. intros [= <-]. simpl in *.
  rewrite Hc. split; [done|]. split; [done|].
  intros n Hn. destruct (Hnew n Hn) as (old & info & layer & Hin & Hst & Hi & -> & [uid Hid] & Hz).
  exists old, info, uid. rewrite Hid. simpl.
  split; [done|]. split; [done|]. split; [done|]. split; [done|]. split; [done|].
  unfold node_extra.
  split; [by repeat case_decide; simplify_map_eq|].
  split; [by repeat case_decide; simplify_map_eq|].
  split; [intros k H1 H2; by repeat case_decide; simplify_map_eq|].
  done.
Qed.

End users_and_nodes.

Section devices.
Context (env : Env) (settings : Settings).

(** *** The devices and their routing protocols *)

Lemma is_prefix_refl s : Str.is_prefix s s = true.
Proof. induction s as [|c s IH]; simpl; [done|]. by case_decide. Qed.

Lemma icontains_refl s : Str.icontains s s = true.
Proof. unfold Str.icontains. destruct (Str.lower s); simpl; [done|].
  case_decide; [|done]. by rewrite is_prefix_refl. Qed.

Lemma import_device_spec acc old w acc' w' :
  import_device env acc old w = (Ret acc', w') →
  legacy w' = legacy w
  ∧ (acc'.1 = acc.1 ∨ acc'.1 = acc.1 ++ [new_device old])
  ∧ ((acc'.2 = acc.2 ∧ routing_protocols (db w') = routing_protocols (db w))
     ∨ ∃ p, acc'.2 = acc.2 ++ [p]
            ∧ routing_protocols (db w') = routing_protocols (db w) ++ [p]
            ∧ rp_name p = od_routing_protocol old
            ∧ ∀ r, r ∈ routing_protocols (db w) →
                   Str.icontains (rp_name r) (rp_name p) = false).
Proof.
  unfold import_device. fold (new_device old). rewrite bind_eq.
  destruct (try_save _ _ _ _ _ _) as [ok w1] eqn:Hts.
  apply try_save_spec in Hts as (_ & _ & Hl1 & Hres).
  assert (routing_protocols (db w1) = routing_protocols (db w)) as Hrp1.
  { destruct ok as [[]|e]; [by destruct Hres as [_ ->]|by destruct Hres as [_ ->]|].
    by destruct Hres as (_ & _ & ->). }
  destruct ok as [ok|e]; [|done].
  assert ((if ok then acc.1 ++ [new_device old] else acc.1) = acc.1
          ∨ (if ok then acc.1 ++ [new_device old] else acc.1) = acc.1 ++ [new_device old])
    as Hdev by (destruct ok; auto).
  rewrite bind_eq. unfold gets at 1. rewrite bind_eq.
  destruct (list_find _ (routing_protocols (db w1))) as [[i p]|] eqn:Hfind.
  - unfold ret at 1. rewrite bind_eq. unfold modify_db at 1, modify at 1.
    unfold ret. intros [= <- <-]. simpl. split; [done|]. split; [done|]. left. by split.
  - rewrite !bind_eq. unfold lift at 1.
    destruct (clean env _ (db w1)) as [[]|e]; [|done].
    rewrite bind_eq. unfold modify_db at 1, modify at 1. unfold ret at 1.
    rewrite bind_eq. unfold modify_db at 1, modify at 1.
    unfold ret. intros [= <- <-]. simpl. split; [done|]. split; [done|]. right.
    eexists. split; [done|]. rewrite Hrp1. split; [done|]. split; [done|].
    intros r Hr. apply list_find_None in Hfind. rewrite Hrp1 in Hfind.
    rewrite Forall_forall in Hfind. specialize (Hfind r Hr). simpl in *.
    by destruct (Str.icontains (rp_name r) (od_routing_protocol old)).
Qed.

Lemma created_in_turn_app names existing new1 new2 :
  created_in_turn names existing new1 →
  created_in_turn names (existing ++ new1) new2 →
  created_in_turn names existing (new1 ++ new2).
Proof.
  revert existing. induction new1 as [|p new1 IH]; intros existing; simpl.
  - intros _. by rewrite app_nil_r.
  - intros (Hn & He & Hrest) H2. split; [done|]. split; [done|].
    apply IH; [done|]. by rewrite <-app_assoc.
Qed.

Lemma created_in_turn_names names names' existing new :
  names ⊆ names' → created_in_turn names existing new → created_in_turn names' existing new.
Proof.
  intros Hsub. revert existing. induction new as [|p new IH]; intros existing; simpl; [done|].
  intros (Hn & He & Hrest). split; [by apply Hsub|]. split; [done|]. by apply IH.
Qed.

Lemma created_in_turn_fresh names existing new :
  created_in_turn names existing new →
  ∀ p, p ∈ new → ∀ r, r ∈ existing → Str.icontains (rp_name r) (rp_name p) = false.
Proof.
  revert existing. induction new as [|q new IH]; intros existing; simpl.
  - by intros _ p ?%elem_of_nil.
  - intros (_ & He & Hrest) p [->|Hp]%elem_of_cons r Hr; [by apply He|].
    apply (IH _ Hrest p Hp). apply elem_of_app. by left.
Qed.

Lemma created_in_turn_NoDup names existing new :
  created_in_turn names existing new →
  NoDup (rp_name <$> existing) → NoDup (rp_name <$> existing ++ new).
Proof.
  revert existing. induction new as [|p new IH]; intros existing; simpl.
  - intros _. by rewrite app_nil_r.
  - intros (_ & He & Hrest) Hnd. rewrite cons_middle, app_assoc. apply IH; [done|].
    rewrite fmap_app. apply NoDup_app. split; [done|]. split; [|apply NoDup_singleton].
    intros x Hx ->%list_elem_of_singleton.
    apply list_elem_of_fmap in Hx as (r & Hname & Hr).
    specialize (He r Hr). rewrite <-Hname, icontains_refl in He. done.
Qed.

Lemma import_devices_fold l acc w acc' w' :
  foldM (import_device env) acc l w = (Ret acc', w') →
  legacy w' = legacy w
  ∧ (∃ devices, acc'.1 = acc.1 ++ devices
       ∧ ∀ d, d ∈ devices → ∃ old, old ∈ l ∧ d = new_device old)
  ∧ ∃ new, acc'.2 = acc.2 ++ new
      ∧ routing_protocols (db w') = routing_protocols (db w) ++ new
      ∧ created_in_turn (od_routing_protocol <$> l) (routing_protocols (db w)) new.
Proof.
  revert acc w. induction l as [|old l IH]; intros acc w; simpl.
  - unfold ret. intros [= <- <-]. split; [done|]. split.
    + exists []. rewrite app_nil_r. split; [done|]. by intros ? ?%elem_of_nil.
    + exists []. by rewrite !app_nil_r.
  - rewrite bind_eq.
    destruct (import_device env acc old w) as [[acc1|e] w1] eqn:Hstep; [|done].
    apply import_device_spec in Hstep as (Hl1 & Hd1 & Hp1).
    intros Hrest. apply IH in Hrest as (Hl & (ds & Hds & Hdev) & new & Hnew & Hrp & Hturn).
    split; [congruence|]. split.
    + destruct Hd1 as [Hd1|Hd1]; rewrite Hds, Hd1.
      * exists ds. split; [done|]. intros d Hd. destruct (Hdev d Hd) as (o & ? & ?).
        exists o. split; [by right|done].
      * exists (new_device old :: ds). split; [by rewrite <-app_assoc|].
        intros d [->|Hd]%elem_of_cons; [exists old; split; [by left|done]|].
        destruct (Hdev d Hd) as (o & ? & ?). exists o. split; [by right|done].
    + apply (created_in_turn_names _ (od_routing_protocol old :: (od_routing_protocol <$> l)))
        in Hturn; [|by intros x Hx; right].
      destruct Hp1 as [[Ha1 Hr1]|(p & Ha1 & Hr1 & Hname & Hfresh)].
      * exists new. rewrite Hnew, Ha1, Hrp, Hr1. split; [done|]. split; [done|].
        by rewrite Hr1 in Hturn.
      * exists (p :: new). rewrite Hnew, Ha1, Hrp, Hr1, <-!app_assoc.
        split; [done|]. split; [done|]. simpl. split; [rewrite Hname; by left|].
        split; [done|]. by rewrite Hr1 in Hturn.
Qed.

(** X17.  What the device phase saves and creates.  Every saved device is
    the copy of a legacy device: its id, node, name, description and dates,
    the type [radio], and a data holding the legacy type under [modello]
    and the [cname].  The routing protocols the phase adds to the store are
    those of its list [routing_protocols_added], in the order of their
    creation; each bears the name a legacy device gives for its protocol,
    and was created only because no protocol present at that moment — there
    before the run or created earlier in it — contained that name, letter
    case aside.  So the phase never journals a protocol that was there
    before, and never creates two protocols of the same name. *)
Theorem devices_are_radios_and_protocols_are_reused w w' :
  import_devices env w = (Ret tt, w') →
  let added := routing_protocols_added (cmd w') in
  let before := routing_protocols (db w) in
  (∀ d, d ∈ saved_devices (cmd w') →
     ∃ old, old ∈ OldDevice_objects (legacy w) ∧ d = new_device old
            ∧ device_type d = "radio"
            ∧ device_data d !! "modello" = Some (od_type old)
            ∧ device_data d !! "cname" = Some (od_cname old))
  ∧ routing_protocols (db w') = before ++ added
  ∧ created_in_turn (od_routing_protocol <$> OldDevice_objects (legacy w)) before added
  ∧ (∀ p, p ∈ added → ∀ r, r ∈ before → rp_name r ≠ rp_name p)
  ∧ (NoDup (rp_name <$> before) → NoDup (rp_name <$> routing_protocols (db w'))).
Proof.
  unfold import_devices. rewrite bind_eq, verbose_eq.
  rewrite bind_eq. unfold gets at 1. rewrite bind_eq, message_eq, bind_eq.
  destruct (foldM _ _ _ _) as [[acc|e] w1] eqn:Hfold; [|done].
  apply import_devices_fold in Hfold as (Hl & (ds & Hds & Hdev) & new & Hnew & Hrp & Hturn).
  rewrite bind_eq, message_eq. unfold modify_cmd, modify. intros [= <-]. cbv zeta.
  simpl in *. rewrite Hds, Hnew.
  assert (routing_protocols (db w1) = routing_protocols (db w) ++ new) as Hrp'.
  { rewrite Hrp. by case_decide. }
  assert (created_in_turn (od_routing_protocol <$> OldDevice_objects (legacy w))
            (routing_protocols (db w)) new) as Hturn'.
  { revert Hturn. by case_decide. }
  split.
  { intros d Hd. destruct (Hdev d Hd) as (old & Hin & ->). exists old.
    split; [revert Hin; by case_decide|]. done. }
  split; [done|]. split; [done|]. split.
  - intros p Hp r Hr Heq.
    pose proof (created_in_turn_fresh _ _ _ Hturn' p Hp r Hr) as Hf.
    rewrite Heq, icontains_refl in Hf. done.
  - intros Hnd. rewrite Hrp'. by apply (created_in_turn_NoDup _ _ _ Hturn').
Qed.

End devices.

Section interfaces.
Context (env : Env) (settings : Settings).

(** *** The interfaces and what hangs on them *)

Lemma build_ip_spec version old addr w r w' :
  build_ip env version old addr w = (r, w') →
  cmd w' = cmd w ∧ db w' = db w ∧ legacy w' = legacy w
  ∧ ∃ o, r = Ret o
      ∧ ∀ a, o = Some a → a = new_ip old addr ∧ truthy addr = true
                          ∧ valid_ip env (address a) = true.
Proof.
  unfold build_ip. destruct (truthy addr) eqn:Ht.
  - destruct (valid_ip env _) eqn:Hv.
    + unfold ret. intros [= <- <-]. repeat split; try done.
      eexists. split; [done|]. by intros a [= <-].
    + rewrite bind_eq, message_eq. unfold ret. intros [= <- <-]. repeat split; try done.
      eexists. split; [done|]. done.
  - unfold ret. intros [= <- <-]. repeat split; try done. eexists. split; [done|]. done.
Qed.

Lemma save_ip_spec version saved ip w r w' :
  save_ip env version saved ip w = (r, w') →
  cmd w' = cmd w ∧ legacy w' = legacy w
  ∧ match r with
    | Ret saved' => saved' = saved ∨ ∃ a, ip = Some a ∧ saved' = saved ++ [a]
    | Raise _ => True
    end.
Proof.
  unfold save_ip. destruct ip as [a|].
  - rewrite bind_eq. destruct (try_save _ _ _ _ _ _) as [[[]|e] w1] eqn:H1;
      apply try_save_spec in H1 as (Hc & _ & Hl & H1); unfold ret; intros [= <- <-];
      (split; [done|]); (split; [done|]); [right; by exists a|by left|done].
  - unfold ret. intros [= <- <-]. split; [done|]. split; [done|]. by left.
Qed.

Lemma save_vap_journal saved vap w r w' :
  save_vap env saved vap w = (r, w') →
  cmd w' = cmd w
  ∧ match r with
    | Ret saved' => saved' = saved ∨ ∃ v, vap = Some v ∧ saved' = saved ++ [v]
    | Raise _ => True
    end.
Proof.
  unfold save_vap. destruct vap as [v|].
  - rewrite bind_eq. destruct (try_save _ _ _ _ _ _) as [[[]|e] w1] eqn:H1;
      apply try_save_spec in H1 as (Hc & _ & Hl & H1); unfold ret; intros [= <- <-];
      (split; [done|]); [right; by exists v|by left|done].
  - unfold ret. intros [= <- <-]. split; [done|]. by left.
Qed.

(** One round of the loop: nothing is journaled, or the interface is and,
    with it, at most its vap and its two addresses. *)
Lemma import_interface_journal acc old w acc' w' :
  import_interface env acc old w = (Ret acc', w') →
  legacy w' = legacy w
  ∧ (acc' = acc
     ∨ acc_interfaces acc' = acc_interfaces acc ++ [(build_interface old).1]
       ∧ (acc_vaps acc' = acc_vaps acc
          ∨ ∃ v, (build_interface old).2 = Some v ∧ acc_vaps acc' = acc_vaps acc ++ [v])
       ∧ (acc_ipv4 acc' = acc_ipv4 acc
          ∨ acc_ipv4 acc' = acc_ipv4 acc ++ [new_ip old (oi_ipv4_address old)]
            ∧ truthy (oi_ipv4_address old) = true
            ∧ valid_ip env (Str.strip (default "" (oi_ipv4_address old))) = true)
       ∧ (acc_ipv6 acc' = acc_ipv6 acc
          ∨ acc_ipv6 acc' = acc_ipv6 acc ++ [new_ip old (oi_ipv6_address old)]
            ∧ truthy (oi_ipv6_address old) = true
            ∧ valid_ip env (Str.strip (default "" (oi_ipv6_address old))) = true)).
Proof.
  unfold import_interface. rewrite bind_eq.
  destruct (build_ip env "IPv4" old _ w) as [r4 w4] eqn:H4.
  apply build_ip_spec in H4 as (_ & _ & Hl4 & ipv4 & -> & Hip4).
  rewrite bind_eq.
  destruct (build_ip env "IPv6" old _ w4) as [r6 w6] eqn:H6.
  apply build_ip_spec in H6 as (_ & _ & Hl6 & ipv6 & -> & Hip6).
  rewrite bind_eq.
  destruct (try_save _ _ _ _ _ _) as [[[]|e] w1] eqn:H1; [| |done];
    apply try_save_spec in H1 as (_ & _ & Hl1 & H1); cbn [negb].
  2:{ unfold ret. intros [= <- <-]. split; [congruence|]. by left. }
  rewrite bind_eq.
  destruct (save_vap _ _ _ _) as [[vaps1|e] w2] eqn:H2; [|done].
  pose proof (save_vap_spec env _ _ _ _ _ H2) as [Hl2 _].
  apply save_vap_journal in H2 as (_ & Hv).
  rewrite bind_eq.
  destruct (save_ip _ _ _ _ w2) as [[ip4|e] w3] eqn:H3; [|done].
  apply save_ip_spec in H3 as (_ & Hl3 & Hs4).
  rewrite bind_eq.
  destruct (save_ip _ _ _ _ w3) as [[ip6|e] w5] eqn:H5; [|done].
  apply save_ip_spec in H5 as (_ & Hl5 & Hs6).
  unfold ret. intros [= <- <-]. split; [congruence|]. right. simpl.
  split; [done|]. split; [done|]. split.
  - destruct Hs4 as [->|(a & -> & ->)]; [by left|]. right.
    destruct (Hip4 a eq_refl) as (-> & Ht & Hvalid). done.
  - destruct Hs6 as [->|(a & -> & ->)]; [by left|]. right.
    destruct (Hip6 a eq_refl) as (-> & Ht & Hvalid). done.
Qed.

Lemma import_interfaces_journal l acc w acc' w' :
  foldM (import_interface env) acc l w = (Ret acc', w') →
  ∃ ifs vs a4 a6,
    acc_interfaces acc' = acc_interfaces acc ++ ifs
    ∧ acc_vaps acc' = acc_vaps acc ++ vs
    ∧ acc_ipv4 acc' = acc_ipv4 acc ++ a4
    ∧ acc_ipv6 acc' = acc_ipv6 acc ++ a6
    ∧ (∀ i, i ∈ ifs → ∃ old, old ∈ l ∧ i = (build_interface old).1)
    ∧ (∀ v, v ∈ vs → ∃ old, old ∈ l ∧ (build_interface old).1 ∈ ifs
                            ∧ (build_interface old).2 = Some v)
    ∧ (∀ a, a ∈ a4 → ∃ old, old ∈ l ∧ (build_interface old).1 ∈ ifs
                            ∧ a = new_ip old (oi_ipv4_address old)
                            ∧ truthy (oi_ipv4_address old) = true
                            ∧ valid_ip env (address a) = true)
    ∧ (∀ a, a ∈ a6 → ∃ old, old ∈ l ∧ (build_interface old).1 ∈ ifs
                            ∧ a = new_ip old (oi_ipv6_address old)
                            ∧ truthy (oi_ipv6_address old) = true
                            ∧ valid_ip env (address a) = true).
Proof.
  revert acc w. induction l as [|old l IH]; intros acc w; simpl.
  - unfold ret. intros [= <- <-]. exists [], [], [], []. rewrite !app_nil_r.
    repeat split; try done; by intros ? ?%elem_of_nil.
  - rewrite bind_eq.
    destruct (import_interface env acc old w) as [[acc1|e] w1] eqn:Hstep; [|done].
    apply import_interface_journal in Hstep as (_ & Hstep).
    intros Hrest.
    apply IH in Hrest as (ifs & vs & a4 & a6 & Hi & Hv & H4 & H6 & Pi & Pv & P4 & P6).
    assert (∀ i, i ∈ ifs → ∃ old0, old0 ∈ old :: l ∧ i = (build_interface old0).1) as Pi'.
    { intros i Hin. destruct (Pi i Hin) as (o & ? & ?). exists o. split; [by right|done]. }
    destruct Hstep as [->|(Hi1 & Hv1 & H41 & H61)].
    + exists ifs, vs, a4, a6. repeat split; try done.
      * intros v Hin. destruct (Pv v Hin) as (o & ? & ? & ?). exists o.
        split; [by right|done].
      * intros a Hin. destruct (P4 a Hin) as (o & ? & ?). exists o. split; [by right|done].
      * intros a Hin. destruct (P6 a Hin) as (o & ? & ?). exists o. split; [by right|done].
    + set (i1 := (build_interface old).1) in *.
      assert (∃ vs1, acc_vaps acc1 = acc_vaps acc ++ vs1
                ∧ ∀ v, v ∈ vs1 → (build_interface old).2 = Some v) as (vs1 & Hvs1 & Pv1).
      { destruct Hv1 as [->|(v & Hb & ->)].
        - exists []. rewrite app_nil_r. split; [done|]. by intros ? ?%elem_of_nil.
        - exists [v]. split; [done|]. by intros ? ->%list_elem_of_singleton. }
      assert (∃ a41, acc_ipv4 acc1 = acc_ipv4 acc ++ a41
                ∧ ∀ a, a ∈ a41 → a = new_ip old (oi_ipv4_address old)
                                 ∧ truthy (oi_ipv4_address old) = true
                                 ∧ valid_ip env (address a) = true) as (a41 & Ha41 & P41).
      { destruct H41 as [->|(-> & Ht & Hval)].
        - exists []. rewrite app_nil_r. split; [done|]. by intros ? ?%elem_of_nil.
        - eexists [_]. split; [done|]. by intros ? ->%list_elem_of_singleton. }
      assert (∃ a61, acc_ipv6 acc1 = acc_ipv6 acc ++ a61
                ∧ ∀ a, a ∈ a61 → a = new_ip old (oi_ipv6_address old)
                                 ∧ truthy (oi_ipv6_address old) = true
                                 ∧ valid_ip env (address a) = true) as (a61 & Ha61 & P61).
      { destruct H61 as [->|(-> & Ht & Hval)].
        - exists []. rewrite app_nil_r. split; [done|]. by intros ? ?%elem_of_nil.
        - eexists [_]. split; [done|]. by intros ? ->%list_elem_of_singleton. }
      exists (i1 :: ifs), (vs1 ++ vs), (a41 ++ a4), (a61 ++ a6).
      rewrite Hi, Hi1, Hv, Hvs1, H4, Ha41, H6, Ha61, <-!app_assoc.
      split; [done|]. split; [done|]. split; [done|]. split; [done|]. split.
      { intros i [->|Hin]%elem_of_cons; [|by apply Pi'].
        exists old. split; [by left|done]. }
      split.
      { intros v [Hin|Hin]%elem_of_app.
        - exists old. split; [by left|]. split; [by left|]. by apply Pv1.
        - destruct (Pv v Hin) as (o & ? & ? & ?). exists o.
          split; [by right|]. split; [by right|done]. }
      split.
      { intros a [Hin|Hin]%elem_of_app.
        - exists old. split; [by left|]. split; [by left|]. by apply P41.
        - destruct (P4 a Hin) as (o & ? & ? & ?). exists o.
          split; [by right|]. split; [by right|done]. }
      { intros a [Hin|Hin]%elem_of_app.
        - exists old. split; [by left|]. split; [by left|]. by apply P61.
        - destruct (P6 a Hin) as (o & ? & ? & ?). exists o.
          split; [by right|]. split; [by right|done]. }
Qed.

(** X18.  What the interface phase journals.  Every saved interface ifs
    built from a legacy interface.  A vap or an address is saved only for
    a legacy interface whose own row was saved: the rows of an interface
    that failed validation are never tried.  Every saved address is the
    legacy address without the white space around it, belongs to the
    interface of its record, and is one [netaddr] accepts; an address
    [netaddr] rejects is reported and never saved. *)
Theorem sub_entities_follow_their_interface w w' :
  import_interfaces env w = (Ret tt, w') →
  let c := cmd w' in
  let old_interfaces := OldInterface_objects (legacy w) in
  (∀ i, i ∈ saved_interfaces c →
     ∃ old, old ∈ old_interfaces ∧ i = (build_interface old).1)
  ∧ (∀ v, v ∈ saved_vaps c →
       ∃ old, old ∈ old_interfaces ∧ (build_interface old).1 ∈ saved_interfaces c
              ∧ vap_interface_id v = oi_id old)
  ∧ (∀ a, a ∈ saved_ipv4 c →
       ∃ old, old ∈ old_interfaces ∧ (build_interface old).1 ∈ saved_interfaces c
              ∧ ip_interface_id a = oi_id old
              ∧ address a = Str.strip (default "" (oi_ipv4_address old))
              ∧ valid_ip env (address a) = true)
  ∧ (∀ a, a ∈ saved_ipv6 c →
       ∃ old, old ∈ old_interfaces ∧ (build_interface old).1 ∈ saved_interfaces c
              ∧ ip_interface_id a = oi_id old
              ∧ address a = Str.strip (default "" (oi_ipv6_address old))
              ∧ valid_ip env (address a) = true).
Proof.
  unfold import_interfaces. rewrite bind_eq, verbose_eq.
  rewrite bind_eq. unfold gets at 1. rewrite bind_eq, message_eq, bind_eq.
  destruct (foldM _ _ _ _) as [[acc|e] w1] eqn:Hfold; [|done].
  apply import_interfaces_journal in Hfold
    as (ifs & vs & a4 & a6 & Hi & Hv & H4 & H6 & Pi & Pv & P4 & P6).
  rewrite !bind_eq, !message_eq. unfold modify_cmd, modify. intros [= <-]. cbv zeta.
  simpl in *. rewrite Hi, Hv, H4, H6.
  assert (OldInterface_objects
            (legacy (if decide (verbosity (cmd w) = 2)
                     then with_out (out w ++ ["retrieving interfaces from old mysql DB..."]) w
                     else w)) = OldInterface_objects (legacy w)) as Hold by (by case_decide).
  rewrite Hold in *.
  split; [done|]. split.
  { intros v Hin. destruct (Pv v Hin) as (old & Ho & Hs & Hb). exists old.
    split; [done|]. split; [done|].
    by apply build_interface_vap in Hb as (_ & _ & ->). }
  split.
  { intros a Hin. destruct (P4 a Hin) as (old & Ho & Hs & -> & _ & Hval). by exists old. }
  { intros a Hin. destruct (P6 a Hin) as (old & Ho & Hs & -> & _ & Hval). by exists old. }
Qed.

Lemma str_take_len n s : Str.len (Str.take n s) = Nat.min n (Str.len s).
Proof.
  revert n. induction s as [|c s IH]; intros n; simpl; [lia|].
  destruct (is_continuation c) eqn:Hc; simpl; rewrite ?Hc.
  - apply IH.
  - destruct n as [|n]; simpl; [done|]. rewrite Hc, IH. done.
Qed.

Lemma str_take_prefix n s :
  ∃ rest, s = Str.take n s +:+ rest ∧ continuation rest = "".
Proof.
  revert n. induction s as [|c s IH]; intros n.
  - by exists EmptyString.
  - simpl. destruct (is_continuation c) eqn:Hc.
    + destruct (IH n) as (rest & Hrest & Hb). exists rest. split; [|done].
      change (String c s = String c (Str.take n s +:+ rest)). by rewrite <-Hrest.
    + destruct n as [|n].
      * exists (String c s). split; [done|]. simpl. by rewrite Hc.
      * destruct (IH n) as (rest & Hrest & Hb). exists rest. split; [|done].
        change (String c s = String c (Str.take n s +:+ rest)). by rewrite <-Hrest.
Qed.

Lemma str_take_all n s : (Str.len s ≤ n)%nat → Str.take n s = s.
Proof.
  revert n. induction s as [|c s IH]; intros n; simpl; [done|].
  destruct (is_continuation c) eqn:Hc.
  - intros H. by rewrite IH.
  - destruct n as [|n]; [lia|]. intros H. rewrite IH; [done|lia].
Qed.

(** X19.  The interface built from a legacy interface.  Its name is
    [cname[0:10]]: the first ten characters of the legacy [cname] — a
    prefix of the [cname] that ends where a character ends and has ten
    characters, or all of them when the [cname] has fewer — and so the
    whole [cname] when that is no longer.  Only an [eth] record gives the
    standard [fast] and the duplex [full]; only a [wifi] record gives a
    mode or a channel.  A record whose type is none of [eth], [wifi],
    [bridge] and [vpn] becomes a plain interface of type [virtual] that
    keeps the display name of its legacy type in its data, and nothing
    else there. *)
Theorem interface_name_is_cut_at_ten old :
  let i := (build_interface old).1 in
  if_id i = oi_id old ∧ if_device_id i = oi_device_id old
  ∧ if_mac i = oi_mac_address old
  ∧ if_name i = Str.take 10 (oi_cname old)
  ∧ Str.len (if_name i) = Nat.min 10 (Str.len (oi_cname old))
  ∧ (∃ rest, oi_cname old = if_name i +:+ rest ∧ continuation rest = "")
  ∧ ((Str.len (oi_cname old) ≤ 10)%nat → if_name i = oi_cname old)
  ∧ (if_standard i = Some "fast" ∧ if_duplex i = Some "full" ↔ oi_type old = "eth")
  ∧ (is_Some (if_mode i) ∨ is_Some (if_channel i) → oi_type old = "wifi")
  ∧ (oi_type old ∉ ["eth"; "wifi"; "bridge"; "vpn"] →
       if_model i = Interface_ ∧ if_type i = virtual
       ∧ if_data i = <["old_nodeshot_interface_type" := oi_type_display old]> ∅).
Proof.
  cbv zeta.
  pose proof (str_take_len 10 (oi_cname old)) as Hlen.
  pose proof (str_take_prefix 10 (oi_cname old)) as Hpre.
  pose proof (str_take_all 10 (oi_cname old)) as Hall.
  unfold build_interface.
  remember (Str.take 10 (oi_cname old)) as short eqn:Hshort. clear Hshort.
  destruct (decide (oi_type old = "eth")) as [He|He]; simpl.
  { do 7 (split; [done|]). split; [done|]. split; [by intros [[? [=]]|[? [=]]]|].
    intros Hn. exfalso. apply Hn. rewrite He. by left. }
  destruct (decide (oi_type old = "wifi")) as [Hw|Hw]; simpl.
  { do 7 (split; [done|]). split; [split; [by intros [[=] _]|done]|]. split; [done|].
    intros Hn. exfalso. apply Hn. rewrite Hw. right. by left. }
  destruct (decide (oi_type old = "bridge")) as [Hb|Hb]; simpl.
  { do 7 (split; [done|]). split; [split; [by intros [[=] _]|done]|].
    split; [by intros [[? [=]]|[? [=]]]|].
    intros Hn. exfalso. apply Hn. rewrite Hb. right. right. by left. }
  destruct (decide (oi_type old = "vpn")) as [Hv|Hv]; simpl.
  { do 7 (split; [done|]). split; [split; [by intros [[=] _]|done]|].
    split; [by intros [[? [=]]|[? [=]]]|].
    intros Hn. exfalso. apply Hn. rewrite Hv. right. right. right. by left. }
  do 7 (split; [done|]). split; [split; [by intros [[=] _]|done]|].
  split; [by intros [[? [=]]|[? [=]]]|]. done.
Qed.

End interfaces.

Section links.
Context (env : Env) (settings : Settings).

(** *** The links *)

Lemma Interface_get_id st pk x : Interface_get st pk = Ret x → if_id x = pk ∧ x ∈ interfaces st.
Proof.
  unfold Interface_get.
  destruct (list_find _ _) as [[i y]|] eqn:Hf; [|done]. intros [= <-].
  apply list_find_Some in Hf as (Hi & Hp & _). split; [done|].
  by eapply list_elem_of_lookup_2.
Qed.

(** Saving the retyped interface over its row. *)
Lemma retype_get st pk x pk' :
  Interface_get st pk = Ret x →
  let x' := set_if_type wireless x in
  let st' := set_interfaces (upsert if_id x' (interfaces st)) st in
  if_id <$> interfaces st' = if_id <$> interfaces st
  ∧ Interface_get st' pk'
    = if decide (pk' = pk) then Ret x' else Interface_get st pk'.
Proof.
  intros Hget. cbv zeta. destruct (Interface_get_id _ _ _ Hget) as [Hid Hin].
  assert (if_id (set_if_type wireless x) = pk) as Hid' by done.
  assert (upsert if_id (set_if_type wireless x) (interfaces st)
          = (λ y, if decide (if_id y = pk) then set_if_type wireless x else y)
              <$> interfaces st) as Hup.
  { unfold upsert. rewrite Hid'.
    assert (existsb (λ y, bool_decide (if_id y = pk)) (interfaces st) = true) as ->; [|done].
    apply existsb_exists. exists x. split; [by apply list_elem_of_In|].
    by apply bool_decide_eq_true. }
  set (f := λ y, if decide (if_id y = pk) then set_if_type wireless x else y) in *.
  assert (∀ y, if_id (f y) = if_id y) as Hf.
  { intros y. unfold f. case_decide; simpl; congruence. }
  split.
  - simpl. rewrite Hup, <-list_fmap_compose. apply list_fmap_ext. intros ? y _. apply Hf.
  - unfold Interface_get in *. simpl. rewrite Hup, list_find_fmap.
    rewrite (list_find_ext _ (λ y, if_id y = pk')) by (intros y; simpl; by rewrite Hf).
    destruct (list_find (λ y, if_id y = pk') (interfaces st)) as [[i y]|] eqn:Hfind; simpl.
    + apply list_find_Some in Hfind as (_ & Hy & _). unfold f.
      repeat case_decide; try done; congruence.
    + case_decide as H2; [|done]. subst pk'. by rewrite Hfind in Hget.
Qed.

Lemma link_endpoint_spec old pk w r w' :
  link_endpoint env old pk w = (r, w') →
  cmd w' = cmd w ∧ legacy w' = legacy w ∧ links (db w') = links (db w)
  ∧ if_id <$> interfaces (db w') = if_id <$> interfaces (db w)
  ∧ (∀ i, wireless_at (db w) i → wireless_at (db w') i)
  ∧ match r with
    | Ret (Some x) => if_id x = pk ∧ wireless_at (db w') pk
    | _ => True
    end.
Proof.
  unfold link_endpoint. rewrite try_except_eq, bind_eq. unfold gets at 1.
  rewrite bind_eq. unfold lift at 1.
  destruct (Interface_get (db w) pk) as [x|e] eqn:Hget.
  - destruct (Interface_get_id _ _ _ Hget) as [Hid _].
    case_decide as Ht.
    + rewrite bind_eq. unfold lift at 1.
      destruct (clean env _ (db w)) as [[]|e] eqn:Hclean.
      * rewrite bind_eq. unfold modify_db at 1, modify at 1. unfold ret.
        intros [= <- <-]. simpl.
        destruct (retype_get (db w) pk x pk Hget) as [Hids _].
        split; [done|]. split; [done|]. split; [done|]. split; [exact Hids|]. split.
        { intros i (y & Hy & Hty).
          destruct (retype_get (db w) pk x i Hget) as [_ Hi]. cbv zeta in Hi.
          unfold wireless_at. rewrite Hi. case_decide; [by eexists|]. by exists y. }
        split; [done|].
        destruct (retype_get (db w) pk x pk Hget) as [_ Hi]. cbv zeta in Hi.
        unfold wireless_at. rewrite Hi. case_decide; [by eexists|done].
      * destruct (is_DoesNotExist "Interface" e).
        -- rewrite bind_eq, message_eq. unfold ret. intros [= <- <-]. by simpl.
        -- intros [= <- <-]. done.
    + unfold ret. intros [= <- <-]. repeat split; try done.
      exists x. split; [done|]. by destruct (decide (if_type x = wireless)).
  - destruct (is_DoesNotExist "Interface" e).
    + rewrite bind_eq, message_eq. unfold ret. intros [= <- <-]. by simpl.
    + intros [= <- <-]. done.
Qed.

Lemma import_link_spec saved old w saved' w' :
  import_link env saved old w = (Ret saved', w') →
  cmd w' = cmd w ∧ legacy w' = legacy w
  ∧ if_id <$> interfaces (db w') = if_id <$> interfaces (db w)
  ∧ (∀ i, wireless_at (db w) i → wireless_at (db w') i)
  ∧ (saved' = saved
     ∨ saved' = saved ++ [new_link old]
       ∧ wireless_at (db w') (ol_from_interface_id old)
       ∧ wireless_at (db w') (ol_to_interface_id old)).
Proof.
  unfold import_link. rewrite bind_eq.
  destruct (link_endpoint env old (ol_from_interface_id old) w) as [[a|e] w1] eqn:Ha; [|done].
  apply link_endpoint_spec in Ha as (Hc1 & Hl1 & _ & Hi1 & Hw1 & Hra).
  rewrite bind_eq.
  destruct (link_endpoint env old (ol_to_interface_id old) w1) as [[b|e] w2] eqn:Hb; [|done].
  apply link_endpoint_spec in Hb as (Hc2 & Hl2 & _ & Hi2 & Hw2 & Hrb).
  assert ((run verbose "Skipping to next cycle"; ret saved) w2 = (Ret saved', w') →
          cmd w' = cmd w ∧ legacy w' = legacy w
          ∧ if_id <$> interfaces (db w') = if_id <$> interfaces (db w)
          ∧ (∀ i, wireless_at (db w) i → wireless_at (db w') i)
          ∧ saved' = saved) as Hskip.
  { rewrite bind_eq, verbose_eq. unfold ret. intros [= <- <-].
    case_decide; simpl; repeat split; try congruence; intros i Hi; by apply Hw2, Hw1. }
  destruct a as [xa|]; [|intros (? & ? & ? & ? & ?)%Hskip; repeat split; try done; by left].
  destruct b as [xb|]; [|intros (? & ? & ? & ? & ?)%Hskip; repeat split; try done; by left].
  destruct Hra as [Hida Hwa]. destruct Hrb as [Hidb Hwb].
  match goal with |- context [try_save env (RowLink ?l)] =>
    assert (l = new_link old) as -> by (unfold new_link; rewrite Hida, Hidb;
                                        by destruct (ol_hide old)) end.
  rewrite bind_eq.
  destruct (try_save _ _ _ _ _ w2) as [ok w3] eqn:Hts.
  apply try_save_spec in Hts as (Hc3 & _ & Hl3 & Hres).
  assert (interfaces (db w3) = interfaces (db w2)) as Hi3.
  { destruct ok as [[]|e]; [by destruct Hres as [_ ->]|by destruct Hres as [_ ->]|].
    by destruct Hres as (_ & _ & ->). }
  assert (∀ i, wireless_at (db w2) i → wireless_at (db w3) i) as Hw3.
  { intros i. unfold wireless_at, Interface_get. by rewrite Hi3. }
  destruct ok as [ok|e]; [|done]. unfold ret. intros [= <- <-].
  split; [congruence|]. split; [congruence|]. split; [by rewrite Hi3, Hi2, Hi1|].
  split; [intros i Hi; by apply Hw3, Hw2, Hw1|].
  destruct ok; [right|by left]. split; [done|]. split; [by apply Hw3, Hw2|by apply Hw3].
Qed.

Lemma import_links_fold l saved w saved' w' :
  foldM (import_link env) saved l w = (Ret saved', w') →
  cmd w' = cmd w ∧ legacy w' = legacy w
  ∧ if_id <$> interfaces (db w') = if_id <$> interfaces (db w)
  ∧ (∀ i, wireless_at (db w) i → wireless_at (db w') i)
  ∧ ∃ new, saved' = saved ++ new
      ∧ ∀ k, k ∈ new → ∃ old, old ∈ l ∧ k = new_link old
                              ∧ wireless_at (db w') (interface_a k)
                              ∧ wireless_at (db w') (interface_b k).
Proof.
  revert saved w. induction l as [|old l IH]; intros saved w; simpl.
  - unfold ret. intros [= <- <-]. repeat split; try done. exists []. rewrite app_nil_r.
    split; [done|]. by intros ? ?%elem_of_nil.
  - rewrite bind_eq.
    destruct (import_link env saved old w) as [[saved1|e] w1] eqn:Hstep; [|done].
    apply import_link_spec in Hstep as (Hc1 & Hl1 & Hi1 & Hw1 & Hs1).
    intros Hrest. apply IH in Hrest as (Hc & Hl & Hi & Hw & new & -> & Hnew).
    split; [congruence|]. split; [congruence|]. split; [congruence|].
    split; [intros i Hin; by apply Hw, Hw1|].
    assert (∀ k, k ∈ new → ∃ old0, old0 ∈ old :: l ∧ k = new_link old0
                                  ∧ wireless_at (db w') (interface_a k)
                                  ∧ wireless_at (db w') (interface_b k)) as Hnew'.
    { intros k Hk. destruct (Hnew k Hk) as (o & ? & ?). exists o. split; [by right|done]. }
    destruct Hs1 as [->|(-> & Hwa & Hwb)].
    + by exists new.
    + exists (new_link old :: new). split; [by rewrite <-app_assoc|].
      intros k [->|Hk]%elem_of_cons; [|by apply Hnew'].
      exists old. split; [by left|]. split; [done|]. split; by apply Hw.
Qed.

(** X20.  What the link phase saves.  Every saved link is the copy of a
    legacy link: its id, its two interfaces, the metric [etx] with the
    legacy value, the signal, as lowest and highest rate the smaller and
    the larger of the two legacy rates, and the access level 3 when the
    legacy link is hidden.  Both its interfaces are in the store when the
    phase ends, and are of type wireless there: the phase has retyped
    them where needed.  A legacy link one of whose interfaces is not in the
    store is not saved.  The phase creates and removes no interface. *)
Theorem links_join_wireless_interfaces w w' :
  import_links env w = (Ret tt, w') →
  if_id <$> interfaces (db w') = if_id <$> interfaces (db w)
  ∧ (∀ i, wireless_at (db w) i → wireless_at (db w') i)
  ∧ ∀ k, k ∈ saved_links (cmd w') →
      ∃ old, old ∈ OldLink_objects (legacy w)
        ∧ link_id k = ol_id old
        ∧ interface_a k = ol_from_interface_id old
        ∧ interface_b k = ol_to_interface_id old
        ∧ metric_type k = "etx" ∧ metric_value k = ol_etx old ∧ dbm k = ol_dbm old
        ∧ min_rate k = Z.min (ol_sync_tx old) (ol_sync_rx old)
        ∧ max_rate k = Z.max (ol_sync_tx old) (ol_sync_rx old)
        ∧ min_rate k ≤ max_rate k
        ∧ access_level k = (if ol_hide old then Some 3 else None)
        ∧ wireless_at (db w') (interface_a k)
        ∧ wireless_at (db w') (interface_b k)
        ∧ interface_a k ∈ if_id <$> interfaces (db w')
        ∧ interface_b k ∈ if_id <$> interfaces (db w').
Proof.
  unfold import_links. rewrite bind_eq, verbose_eq.
  rewrite bind_eq. unfold gets at 1. rewrite bind_eq, message_eq, bind_eq.
  destruct (foldM _ _ _ _) as [[saved|e] w1] eqn:Hfold; [|done].
  apply import_links_fold in Hfold as (Hc & Hl & Hi & Hw & new & -> & Hnew).
  rewrite bind_eq, message_eq. unfold modify_cmd, modify. intros [= <-]. simpl in *.
  assert (∀ st i, wireless_at st i → i ∈ if_id <$> interfaces st) as Hin.
  { intros st i (x & Hx & _). apply Interface_get_id in Hx as [<- Hx].
    by apply list_elem_of_fmap_2. }
  split; [rewrite Hi; by case_decide|]. split.
  { intros i Hwi. apply Hw. revert Hwi. by case_decide. }
  intros k Hk. destruct (Hnew k Hk) as (old & Ho & -> & Hwa & Hwb).
  exists old. split; [revert Ho; by case_decide|]. simpl.
  do 8 (split; [done|]). split; [lia|]. split; [done|].
  split; [done|]. split; [done|]. split; [by apply Hin in Hwa|by apply Hin in Hwb].
Qed.

End links.

Section contacts_and_users.
Context (env : Env) (settings : Settings).

(** *** The contact log *)

Lemma import_contact_spec saved old w saved' w' :
  import_contact env saved old w = (Ret saved', w') →
  legacy w' = legacy w
  ∧ ∃ new, saved' = saved ++ new ∧ contacts (db w') = contacts (db w) ++ new
      ∧ ∀ c, c ∈ new → ∃ id, c = new_contact (Some id) old.
Proof.
  unfold import_contact. rewrite bind_eq. unfold gets at 1. rewrite bind_eq.
  fold (new_contact (Some (next_id (db w))) old).
  destruct (try_save _ _ _ _ _ w) as [ok w1] eqn:Hts.
  apply try_save_spec in Hts as (_ & _ & Hl & Hres).
  destruct ok as [[]|e]; [| |done]; unfold ret; intros [= <- <-]; (split; [done|]).
  - destruct Hres as [_ ->]. eexists [_]. split; [done|]. split; [done|].
    intros c ->%list_elem_of_singleton. by eexists.
  - destruct Hres as [_ ->]. exists []. rewrite !app_nil_r. split; [done|]. split; [done|].
    by intros ? ?%elem_of_nil.
Qed.

Lemma import_contacts_fold l saved w saved' w' :
  foldM (import_contact env) saved l w = (Ret saved', w') →
  legacy w' = legacy w
  ∧ ∃ new, saved' = saved ++ new ∧ contacts (db w') = contacts (db w) ++ new
      ∧ ∀ c, c ∈ new → ∃ old id, old ∈ l ∧ c = new_contact (Some id) old.
Proof.
  revert saved w. induction l as [|old l IH]; intros saved w; simpl.
  - unfold ret. intros [= <- <-]. split; [done|]. exists []. rewrite !app_nil_r.
    split; [done|]. split; [done|]. by intros ? ?%elem_of_nil.
  - rewrite bind_eq.
    destruct (import_contact env saved old w) as [[saved1|e] w1] eqn:Hstep; [|done].
    apply import_contact_spec in Hstep as (Hl1 & new1 & -> & Hc1 & Hn1).
    intros Hrest. apply IH in Hrest as (Hl & new & -> & Hc & Hn).
    split; [congruence|]. exists (new1 ++ new). rewrite Hc, Hc1, !app_assoc.
    split; [done|]. split; [done|].
    intros c [Hin|Hin]%elem_of_app.
    + destruct (Hn1 c Hin) as (id & ->). exists old, id. split; [by left|done].
    + destruct (Hn c Hin) as (o & id & ? & ?). exists o, id. split; [by right|done].
Qed.

(** X21.  What the contact phase saves.  The entries the phase adds to
    the contact log of the store are those of its list of saved contacts,
    in that order, and each is the copy of a legacy entry: it refers to the
    node of the legacy entry, has the status 1 (sent), the sender, the
    message, the address, the user agent and the language of the legacy
    entry, and the legacy date both as the date it was added and as the
    date it was updated. *)
Theorem contacts_are_copied_as_sent w w' :
  import_contacts env w = (Ret tt, w') →
  contacts (db w') = contacts (db w) ++ saved_contacts (cmd w')
  ∧ ∀ c, c ∈ saved_contacts (cmd w') →
      ∃ old, old ∈ OldContact_objects (legacy w)
        ∧ c = new_contact (inward_id c) old
        ∧ is_Some (inward_id c)
        ∧ object_id c = oc_node_id old ∧ inward_status c = 1
        ∧ inward_added c = oc_date old ∧ inward_updated c = oc_date old.
Proof.
  unfold import_contacts. rewrite bind_eq, verbose_eq.
  rewrite bind_eq. unfold gets at 1. rewrite bind_eq, message_eq, bind_eq.
  destruct (foldM _ _ _ _) as [[saved|e] w1] eqn:Hfold; [|done].
  apply import_contacts_fold in Hfold as (Hl & new & -> & Hc & Hn).
  rewrite bind_eq, message_eq. unfold modify_cmd, modify. intros [= <-]. simpl in *.
  split; [rewrite Hc; by case_decide|].
  intros c Hin. destruct (Hn c Hin) as (old & id & Ho & ->). exists old.
  split; [revert Ho; by case_decide|]. simpl. repeat split; try done; by eexists.
Qed.

(** *** The password *)

Lemma choice_spec draw chars :
  match choice draw chars with
  | Ret c => c ∈ chars
  | Raise e => chars = [] ∧ e = IndexError
  end.
Proof.
  unfold choice. destruct chars as [|c0 chars]; [done|].
  destruct ((c0 :: chars) !! _) as [c|] eqn:Hc.
  - by eapply list_elem_of_lookup_2.
  - apply lookup_ge_None in Hc.
    pose proof (Nat.mod_upper_bound draw (length (c0 :: chars))) as Hlt.
    simpl in *. lia.
Qed.

(** X22.  [generate_random_password]: from a sequence of characters that
    is not empty it returns, whatever the generator draws, a password of
    exactly [size] characters, each of them one of the sequence — with the
    defaults, ten characters among the upper case letters and the digits.
    From an empty sequence it raises [IndexError], unless [size] is zero. *)
Theorem password_has_size_characters_of_chars draws size chars :
  (chars ≠ [] →
     ∃ s, generate_random_password draws size chars = Ret s
          ∧ String.length s = size
          ∧ ∀ c, c ∈ list_ascii_of_string s → c ∈ chars)
  ∧ (chars = [] → generate_random_password draws size chars
                  = if decide (size = 0%nat) then Ret EmptyString else Raise IndexError)
  ∧ ∃ s, generate_random_password draws 10 default_chars = Ret s
         ∧ String.length s = 10%nat.
Proof.
  assert (∀ draws size, chars ≠ [] →
            ∃ s, generate_random_password draws size chars = Ret s
                 ∧ String.length s = size
                 ∧ ∀ c, c ∈ list_ascii_of_string s → c ∈ chars) as Hgen.
  { clear draws size. intros draws size Hne. revert draws.
    induction size as [|size IH]; intros draws; simpl.
    - exists EmptyString. split; [done|]. split; [done|]. by intros ? ?%elem_of_nil.
    - pose proof (choice_spec (draws 0%nat) chars) as Hc.
      destruct (choice (draws 0%nat) chars) as [c|e]; [|by destruct Hc].
      destruct (IH (λ x, draws (S x))) as (s & -> & Hlen & Hin).
      exists (String c s). split; [done|]. split; [simpl; by rewrite Hlen|].
      intros c' [->|Hc']%elem_of_cons; [done|by apply Hin]. }
  split; [by apply Hgen|]. split.
  - intros ->. destruct size as [|size]; simpl; [done|].
    pose proof (choice_spec (draws 0%nat) []) as Hc.
    destruct (choice (draws 0%nat) []) as [c|e]; [by apply elem_of_nil in Hc|].
    by destruct Hc as [_ ->].
  - clear Hgen.
    assert (∀ draws size,
              ∃ s, generate_random_password draws size default_chars = Ret s
                   ∧ String.length s = size) as Hdef.
    { clear. intros draws size. revert draws.
      induction size as [|size IH]; intros draws; simpl.
      - by exists EmptyString.
      - pose proof (choice_spec (draws 0%nat) default_chars) as Hc.
        destruct (choice (draws 0%nat) default_chars) as [c|e]; [|by destruct Hc].
        destruct (IH (λ x, draws (S x))) as (s & -> & Hlen).
        exists (String c s). split; [done|]. simpl. by rewrite Hlen. }
    apply Hdef.
Qed.

(** *** The ids of the owners *)

Lemma import_user_ids saved mail w saved' w' :
  import_user env settings saved mail w = (Ret saved', w') →
  (saved' = saved ∧ users_dict (cmd w') = users_dict (cmd w))
  ∨ ∃ u i info,
      saved' = saved ++ [u] ∧ email u = mail ∧ user_id u = Some i ∧ is_active u = true
      ∧ users_dict (cmd w) !! mail = Some info
      ∧ users_dict (cmd w')
        = <[mail := {| owner := owner info; saved_id := Some i |}]> (users_dict (cmd w)).
Proof.
  unfold import_user. rewrite bind_eq. unfold gets at 1. rewrite bind_eq. unfold lift at 1.
  destruct (users_dict (cmd w) !! mail) as [info|] eqn:Hinfo; [|done].
  rewrite bind_eq. unfold lift at 1.
  destruct (owner_name info mail) as [name|] eqn:Hname; [|done].
  rewrite bind_eq. unfold gets at 1. rewrite bind_eq. unfold modify at 1.
  rewrite bind_eq. unfold gets at 1. rewrite bind_eq. unfold lift at 1.
  cbn [db with_rng cmd].
  destruct (unique_username _ _ _ _ _) as [unique|] eqn:Hu; [|done].
  rewrite bind_eq.
  destruct (store_user _ _ _ _ _) as [[[saved1 user1]|e] w1] eqn:Hs; [|done].
  apply (store_user_spec env) in Hs. cbn [db with_rng cmd] in Hs.
  rewrite bind_eq.
  destruct (store_email_address _ _ _ _) as [[[]|e] w2] eqn:He; [|done].
  apply (store_email_address_frame env settings) in He as [He Hc].
  unfold ret. intros [= <- <-]. rewrite Hc.
  destruct Hs as [(_ & -> & -> & _ & ->)|(_ & -> & -> & _ & ->)].
  - right. eexists _, _, info. simpl. repeat split; try done.
  - by left.
Qed.

Lemma import_users_ids l saved w saved' w' :
  NoDup l →
  foldM (import_user env settings) saved l w = (Ret saved', w') →
  ∃ new, saved' = saved ++ new
    ∧ (∀ u, u ∈ new →
         email u ∈ l ∧ is_active u = true
         ∧ ∃ i info, user_id u = Some i ∧ users_dict (cmd w) !! email u = Some info
             ∧ users_dict (cmd w') !! email u
               = Some {| owner := owner info; saved_id := Some i |})
    ∧ (∀ m, m ∉ email <$> new → users_dict (cmd w') !! m = users_dict (cmd w) !! m).
Proof.
  intros Hnd. revert saved w. induction Hnd as [|mail l Hmail Hnd IH]; intros saved w; simpl.
  - unfold ret. intros [= <- <-]. exists []. rewrite app_nil_r.
    split; [done|]. split; [by intros ? ?%elem_of_nil|done].
  - rewrite bind_eq.
    destruct (import_user env settings saved mail w) as [[saved1|e] w1] eqn:Hstep; [|done].
    apply import_user_ids in Hstep. intros Hrest.
    apply IH in Hrest as (new & -> & Hnew & Hkeep).
    destruct Hstep as [[-> Hd]|(u & i & info & -> & Hu & Hi & Hact & Hinfo & Hd)].
    + exists new. split; [done|]. rewrite <-Hd. split; [|done].
      intros u Hin. destruct (Hnew u Hin) as (? & ? & ?). split; [by right|done].
    + exists (u :: new). split; [by rewrite <-app_assoc|]. split.
      * intros u' [->|Hin]%elem_of_cons.
        -- split; [rewrite Hu; by left|]. split; [done|].
           exists i, info. rewrite Hu. split; [done|]. split; [done|].
           rewrite Hkeep, Hd; [by rewrite lookup_insert_eq|].
           intros (u' & Heq & Hin')%list_elem_of_fmap.
           destruct (Hnew u' Hin') as (Hl & _). congruence.
        -- destruct (Hnew u' Hin) as (Hl & Hact' & i' & info' & Hi' & Hinfo' & Hd').
           split; [by right|]. split; [done|].
           assert (email u' ≠ mail) as Hne by congruence.
           rewrite Hd, lookup_insert_ne in Hinfo' by done.
           by exists i', info'.
      * intros m Hm. rewrite fmap_cons, not_elem_of_cons in Hm. destruct Hm as [Hne Hm].
        rewrite (Hkeep m Hm), Hd. rewrite lookup_insert_ne; [done|congruence].
Qed.

(** X23.  The ids the node phase reads.  When the user phase runs to its
    end, the entry of the dictionary under the email of every saved user
    holds the id the store gave to that user, beside the owner recorded
    for the email; every saved user is active.  The entry under an email
    for which no user was saved — its row failed validation — still has
    no id, so that the node phase, which reads
    [users_dict[email]['id']] for every legacy node that is not
    unconfirmed, fails on a node of that email with [KeyError]. *)
Theorem saved_users_leave_their_id w w' :
  (run extract_users; import_users env settings) w = (Ret tt, w') →
  let saved := saved_users (cmd w') in
  (∀ u, u ∈ saved →
     is_active u = true
     ∧ ∃ i info, user_id u = Some i
         ∧ users_dict (cmd w') !! email u = Some info ∧ saved_id info = Some i)
  ∧ (∀ old, old ∈ old_nodes (cmd w) → (∀ u, u ∈ saved → email u ≠ on_email old) →
       (∃ info, users_dict (cmd w') !! on_email old = Some info ∧ saved_id info = None)
       ∧ (on_status old ≠ "u" →
          ∀ nodes, import_node env settings nodes old w' = (Raise (KeyError "id"), w'))).
Proof.
  rewrite bind_eq.
  pose proof (first_owner_recorded w) as Hex.
  destruct (extract_users w) as [r w1] eqn:He. simpl in Hex.
  destruct Hex as (-> & Hdb & Hold & Hset & Hdict).
  unfold import_users.
  rewrite bind_eq, message_eq, bind_eq. unfold gets at 1. rewrite bind_eq.
  destruct (foldM _ _ _ _) as [[saved|e] w2] eqn:Hfold; cbv beta iota; [|by intros [=]].
  apply import_users_ids in Hfold as (new & -> & Hnew & Hkeep); [|apply NoDup_elements].
  rewrite bind_eq, message_eq. unfold modify_cmd, modify. intros [= <-]. cbv zeta.
  simpl in *. split.
  - intros u Hin. destruct (Hnew u Hin) as (_ & Hact & i & info & Hi & _ & Hd).
    split; [done|]. by eexists i, _.
  - intros old Hold' Hnone.
    assert (∃ info, users_dict (cmd w2) !! on_email old = Some info ∧ saved_id info = None)
      as (info & Hinfo & Hid).
    { rewrite Hkeep.
      - rewrite Hdict.
        destruct (filter (λ n, on_email n = on_email old) (old_nodes (cmd w)))
          as [|n l] eqn:Hf; [|by eexists].
        assert (old ∈ filter (λ n, on_email n = on_email old) (old_nodes (cmd w))) as Hin
          by (by apply list_elem_of_filter).
        rewrite Hf in Hin. by apply elem_of_nil in Hin.
      - intros (u & Heq & Hin)%list_elem_of_fmap. by apply (Hnone u Hin). }
    split; [by exists info|].
    intros Hu nodes. unfold import_node. case_decide; [done|].
    rewrite bind_eq. unfold gets at 1. rewrite bind_eq. simpl. rewrite Hinfo.
    unfold lift at 1. rewrite bind_eq, Hid. done.
Qed.

End contacts_and_users.

Section names.
Context (env : Env) (settings : Settings).

(** *** The names of a user *)

Lemma split_before a s t :
  Str.contains a s = false → Str.split a (s +:+ String a t) = s :: Str.split a t.
Proof.
  induction s as [|c s IH]; intros Hs.
  - change (Str.split a (String a t) = EmptyString :: Str.split a t). simpl.
    by case_decide.
  - simpl in Hs. case_decide as Hc; [done|].
    change (Str.split a (String c (s +:+ String a t)) = String c s :: Str.split a t).
    simpl. case_decide; [done|]. by rewrite IH.
Qed.

Lemma split_whole a s : Str.contains a s = false → Str.split a s = [s].
Proof.
  induction s as [|c s IH]; intros Hs; simpl; [done|].
  simpl in Hs. case_decide as Hc; [done|]. by rewrite IH.
Qed.

Lemma contains_after a s t : Str.contains a (s +:+ String a t) = true.
Proof.
  induction s as [|c s IH].
  - change (Str.contains a (String a t) = true). simpl. by case_decide.
  - change (Str.contains a (String c (s +:+ String a t)) = true). simpl.
    by case_decide.
Qed.

(** X25.  The names given to a user.  The username is the slug of the
    owner name.  An owner name without a space is the first name, and the
    last name is made of the empty text; of an owner name with spaces the first name is
    what stands before the first space and the last name what stands
    between the first space and the second — words after the second space
    are dropped, and two spaces in a row give an empty last name.  Both
    names go through [capitalize()], the method of Python's strings, which
    the importer takes from its environment.  The user is active, carries
    the email of the loop, and has no id before it is saved. *)
Theorem names_are_the_first_two_words name mail seed :
  let user := new_user env name mail seed in
  username user = slugify env name ∧ email user = mail
  ∧ is_active user = true ∧ user_id user = None
  ∧ (Str.contains " " name = false →
       first_name user = capitalize env name ∧ last_name user = capitalize env "")
  ∧ (∀ first rest, name = first +:+ String " " rest → Str.contains " " first = false →
       first_name user = capitalize env first
       ∧ (Str.contains " " rest = false → last_name user = capitalize env rest)
       ∧ (∀ second more, rest = second +:+ String " " more →
            Str.contains " " second = false → last_name user = capitalize env second)).
Proof.
  cbv zeta. unfold new_user. simpl. do 4 (split; [done|]). split.
  - intros ->. done.
  - intros first rest -> Hfirst. rewrite contains_after, split_before by done. simpl.
    split; [done|]. split.
    + intros Hrest. by rewrite split_whole.
    + intros second more -> Hsecond. by rewrite split_before.
Qed.

End names.


(** *** Runs on the samples *)

Import ImporterSamples.

(** C1: with the mapping [{'a': 'active', 'default': 'potential'}] checked
    against the statuses active (1) and potential (2), the run is kept by
    the operator; the mapping holds the id 1 for the code ['a'], yet
    [get_status('a')] yields [None] and the node saved for a legacy node of
    status ['a'] has no status id. *)
Lemma get_status_returns_none_for_a_mapped_code :
  let r := handle env_ok settings_mapped 1
             (boot settings_mapped empty_store (legacy_of [fusolab]) [Line "y"]) in
  r.1 = Ret tt
  ∧ default ∅ (status_mapping (cmd r.2)) !! "a" = Some (Id 1)
  ∧ (get_status "a" r.2).1 = Ret None
  ∧ (λ n, (node_name n, node_status_id n)) <$> nodes (db r.2) = [("Fusolab", None)].
Proof. vm_compute. done. Qed.

(** C2: the store holds the interfaces 1 and 2, the legacy store a link
    between them; the operator rejects the run, [delete_imported_data]
    runs to its end, and the link the run saved is still in the store. *)
Lemma rejected_run_keeps_the_link :
  let r := handle env_ok settings_plain 1
             (boot settings_plain store_with_interfaces legacy_link [Line "n"]) in
  r.1 = Ret tt
  ∧ last (out r.2) = Some "Going to delete all the imported data..."
  ∧ links store_with_interfaces = []
  ∧ link_id <$> saved_links (cmd r.2) = [5]
  ∧ link_id <$> links (db r.2) = [5].
Proof. vm_compute. done. Qed.

(** The journal of a phase is published when the phase ends: interrupted
    while the second of two users is saved, the run rolls back with an
    empty list of saved users and the first user stays in the store. *)
Lemma interrupted_user_phase_keeps_the_user :
  let r := handle env_interrupted settings_plain 1
             (boot settings_plain empty_store (legacy_of [fusolab; sans_souci]) [Line "y"]) in
  r.1 = Ret tt
  ∧ last (out r.2) = Some "Going to delete all the imported data..."
  ∧ saved_users (cmd r.2) = []
  ∧ length (users (db r.2)) = 1%nat.
Proof. vm_compute. done. Qed.

(** A rejected run whose rows all hang on journaled ones is undone: one
    legacy record of every kind, and nothing of them is left. *)
Lemma rejected_run_is_undone :
  let r := handle env_ok settings_mapped 1
             (boot settings_mapped empty_store legacy_full [Line "n"]) in
  r.1 = Ret tt
  ∧ (users (db r.2), nodes (db r.2), devices (db r.2), interfaces (db r.2))
    = ([], [], [], [])
  ∧ (vaps (db r.2), ips (db r.2), links (db r.2), contacts (db r.2)) = ([], [], [], []).
Proof. vm_compute. done. Qed.

(** C7: the username of the first owner exceeds the limit of the field;
    the failure is caught and logged in the user phase, and the node phase
    then stops at the node of that owner with [KeyError: 'id'].  The node
    of the other owner, which is imported when it comes alone, is never
    reached, and the run is rolled back. *)
Lemma invalid_user_aborts_the_node_phase :
  let r := handle env_username_limit settings_plain 1
             (boot settings_plain empty_store (legacy_of [macondo; fusolab]) [Line "y"]) in
  let alone := handle env_username_limit settings_plain 1
                 (boot settings_plain empty_store (legacy_of [fusolab]) [Line "y"]) in
  r.1 = Ret tt
  ∧ out r.2 = [""; "no status mapping found"; "retrieved 2 nodes";
               "saving users into local DB";
               "Could not save user aureliano-buendia-iguaran-de-macondo, got exception: Ensure this value has at most 30 characters";
               "saved 1 users into local DB"; "saving nodes into local DB...";
               "Got exception 'id'"; "Going to delete all the imported data..."]
  ∧ nodes (db r.2) = [] ∧ users (db r.2) = []
  ∧ node_name <$> nodes (db alone.2) = ["Fusolab"].
Proof. vm_compute. done. Qed.

(** C5: without the layers application the block that resolves the zone
    is skipped: the point is in no layer, a default layer is configured,
    and the node is saved with no layer at all. *)
Lemma no_zone_without_layers_application :
  let r := handle env_ok settings_no_layers 1
             (boot settings_no_layers store_without_layers (legacy_of [fusolab]) [Line "y"]) in
  intersecting_layers store_without_layers (new_node fusolab 1) = []
  ∧ DEFAULT_LAYER settings_no_layers = Some 7
  ∧ r.1 = Ret tt
  ∧ (λ n, (node_name n, node_layer_id n)) <$> nodes (db r.2) = [("Fusolab", None)].
Proof. vm_compute. done. Qed.


(** The suffixes in a run: three owners with the same slug. *)
Lemma namesakes_are_numbered :
  let r := handle env_ok settings_plain 1
             (boot settings_plain empty_store (legacy_of namesakes) [Line "y"]) in
  username <$> users (db r.2) = ["jdoe"; "jdoe2"; "jdoe3"].
Proof. vm_compute. done. Qed.

(** *** The theorems at the samples *)

Lemma status_mapping_is_checked_before_any_phase_witness :
  let store := store_without_potential in
  STATUS_MAPPING settings_mapped
    = Some (<["a" := Slug "active"]> (<["default" := Slug "potential"]> ∅))
  ∧ Status_get store (Slug "potential") = Raise (DoesNotExist "Status")
  ∧ ∃ msg w', handle env_ok settings_mapped 1
                (boot settings_mapped store (legacy_of [fusolab]) [Line "y"]) = (Ret tt, w')
              ∧ db w' = store ∧ stdin w' = [Line "y"] ∧ old_nodes (cmd w') = []
              ∧ journal_empty (cmd w')
              ∧ ("Got exception " +:+ msg) ∈ out w'.
Proof.
  split; [reflexivity|]. split; [reflexivity|].
  refine (proj2 (proj1 (status_mapping_is_checked_before_any_phase env_ok settings_mapped 1
            store_without_potential (legacy_of [fusolab]) [Line "y"] _ eq_refl _)
          "default" (Slug "potential") (DoesNotExist "Status") _ _)).
  - apply insert_non_empty.
  - reflexivity.
  - reflexivity.
Defined.

Lemma zone_is_resolved_without_prompt_witness :
  let w := (import_users env_ok settings_plain
              (extract_users (retrieved settings_plain empty_store [fusolab])).2).2 in
  intersecting_layers (db w) (new_node fusolab 1) = [rome]
  ∧ assign_layer (new_node fusolab 1) w
    = (Ret (Some (set_node_layer_id (Some 7) (new_node fusolab 1))), w).
Proof.
  split; [reflexivity|].
  refine (proj1 (proj1 (proj1 (zone_is_resolved_without_prompt env_ok settings_plain []
            fusolab
            (import_users env_ok settings_plain
               (extract_users (retrieved settings_plain empty_store [fusolab])).2).2
            {| owner := "John Doe"; saved_id := Some 1 |} 1 _ _ eq_refl) eq_refl)
          rome _)).
  - discriminate.
  - vm_compute. reflexivity.
  - reflexivity.
Defined.


Lemma vap_names_are_the_legacy_essid_witness :
  let w := boot settings_plain empty_store legacy_full [] in
  (import_interfaces env_ok w).1 = Ret tt
  ∧ saved_vaps (cmd (import_interfaces env_ok w).2)
    = [ {| vap_interface_id := 1; essid := Some "ninux.org"; bssid := Some "ninux.org" |};
        {| vap_interface_id := 2; essid := Some "ninux.org"; bssid := Some "ninux.org" |} ]
  ∧ vaps (db (import_interfaces env_ok w).2)
    = saved_vaps (cmd (import_interfaces env_ok w).2).
Proof.
  split; [reflexivity|]. split; [vm_compute; reflexivity|].
  exact (proj1 (vap_names_are_the_legacy_essid env_ok
                  (boot settings_plain empty_store legacy_full [])
                  (import_interfaces env_ok (boot settings_plain empty_store legacy_full [])).2
                  ltac:(vm_compute; reflexivity))).
Defined.

(** *** The phases on the samples *)

Lemma rollback_reports_every_refused_delete_witness :
  length (rollback_report (cmd kept_run) (ValueError "protected")) = 7%nat
  ∧ (delete_imported_data env_protected kept_run).1 = Ret tt
  ∧ db (delete_imported_data env_protected kept_run).2 = db kept_run
  ∧ last (out (delete_imported_data env_protected kept_run).2)
    = Some "Got exception while deleting user john-doe: protected".
Proof.
  split; [vm_compute; reflexivity|].
  rewrite (rollback_reports_every_refused_delete env_protected kept_run
             (ValueError "protected") (λ _ _, eq_refl) eq_refl).
  split; [vm_compute; reflexivity|]. split; [vm_compute; reflexivity|].
  vm_compute. reflexivity.
Defined.

Lemma handle_lets_no_exception_out_witness :
  ∃ w', handle env_ok settings_mapped 1
          (boot settings_mapped empty_store legacy_full [CtrlC]) = (Ret tt, w').
Proof.
  apply (handle_lets_no_exception_out env_ok settings_mapped). intros r st. discriminate.
Defined.

Lemma confirmation_asks_until_answered_witness :
  let w := with_stdin [Line "maybe"; Line "Y"; Line "n"] kept_run in
  (confirm_operation_completed env_ok w).1 = Ret tt
  ∧ stdin (confirm_operation_completed env_ok w).2 = [Line "n"]
  ∧ db (confirm_operation_completed env_ok w).2 = db kept_run
  ∧ last (out (confirm_operation_completed env_ok w).2) = Some "Operation completed!".
Proof.
  cbv zeta.
  destruct (confirmation_asks_until_answered env_ok
              (with_stdin [Line "maybe"; Line "Y"; Line "n"] kept_run) ["maybe"])
    as (question & retry & Hline & _).
  { constructor; [|constructor]. split; discriminate. }
  rewrite (proj1 (Hline "Y" [Line "n"] eq_refl) eq_refl).
  split; [vm_compute; reflexivity|]. split; [vm_compute; reflexivity|].
  split; [vm_compute; reflexivity|]. vm_compute. reflexivity.
Defined.

Lemma zone_holds_the_point_or_is_the_default_witness :
  let w := boot settings_plain store_two_layers (legacy_of []) [Line "8"] in
  let node := new_node fusolab 1 in
  layer_id <$> intersecting_layers (db w) node = [7; 8]
  ∧ (assign_layer node w).1 = Ret (Some (set_node_layer_id (Some 8) node))
  ∧ db (assign_layer node w).2 = db w.
Proof.
  cbv zeta. split; [reflexivity|]. split; [vm_compute; reflexivity|].
  exact (proj1 (proj2 (zone_holds_the_point_or_is_the_default
                         (new_node fusolab 1)
                         (boot settings_plain store_two_layers (legacy_of []) [Line "8"])
                         _ _ (surjective_pairing _)))).
Defined.

Lemma blank_owner_needs_an_email_with_one_at_witness :
  let w := (extract_users (retrieved settings_plain empty_store [nameless])).2 in
  ∃ msg, import_user env_ok settings_plain [] "nomail" w = (Raise (ValueError msg), w).
Proof.
  cbv zeta.
  apply (blank_owner_needs_an_email_with_one_at env_ok settings_plain [] "nomail"
           (extract_users (retrieved settings_plain empty_store [nameless])).2
           {| owner := " "; saved_id := None |}).
  - vm_compute. reflexivity.
  - vm_compute. reflexivity.
  - vm_compute. discriminate.
Defined.

Lemma nodes_are_copied_from_confirmed_records_witness :
  (import_nodes env_ok settings_plain users_imported).1 = Ret tt
  ∧ (λ n, (node_id n, node_user_id n, node_layer_id n))
      <$> saved_nodes (cmd (import_nodes env_ok settings_plain users_imported).2)
    = [(10, 1, Some 7)]
  ∧ users (db (import_nodes env_ok settings_plain users_imported).2)
    = users (db users_imported).
Proof.
  split; [vm_compute; reflexivity|]. split; [vm_compute; reflexivity|].
  exact (proj1 (nodes_are_copied_from_confirmed_records env_ok settings_plain
                  users_imported (import_nodes env_ok settings_plain users_imported).2
                  ltac:(vm_compute; reflexivity))).
Defined.

Lemma devices_are_radios_and_protocols_are_reused_witness :
  let w := boot settings_plain empty_store legacy_full [] in
  (import_devices env_ok w).1 = Ret tt
  ∧ rp_name <$> routing_protocols_added (cmd (import_devices env_ok w).2) = ["olsr"]
  ∧ routing_protocols (db (import_devices env_ok w).2)
    = routing_protocols (db w) ++ routing_protocols_added (cmd (import_devices env_ok w).2).
Proof.
  cbv zeta. split; [vm_compute; reflexivity|]. split; [vm_compute; reflexivity|].
  exact (proj1 (proj2 (devices_are_radios_and_protocols_are_reused env_ok
                         (boot settings_plain empty_store legacy_full [])
                         (import_devices env_ok
                            (boot settings_plain empty_store legacy_full [])).2
                         ltac:(vm_compute; reflexivity)))).
Defined.

Lemma sub_entities_follow_their_interface_witness :
  let w := boot settings_plain empty_store legacy_full [] in
  (import_interfaces env_ok w).1 = Ret tt
  ∧ address <$> saved_ipv4 (cmd (import_interfaces env_ok w).2)
    = ["172.16.40.1"; "172.16.40.1"]
  ∧ ∀ i, i ∈ saved_interfaces (cmd (import_interfaces env_ok w).2) →
      ∃ old, old ∈ OldInterface_objects legacy_full ∧ i = (build_interface old).1.
Proof.
  cbv zeta. split; [vm_compute; reflexivity|]. split; [vm_compute; reflexivity|].
  exact (proj1 (sub_entities_follow_their_interface env_ok
                  (boot settings_plain empty_store legacy_full [])
                  (import_interfaces env_ok
                     (boot settings_plain empty_store legacy_full [])).2
                  ltac:(vm_compute; reflexivity))).
Defined.

Lemma links_join_wireless_interfaces_witness :
  let w := boot settings_plain store_with_interfaces legacy_link [] in
  (import_links env_ok w).1 = Ret tt
  ∧ if_type <$> interfaces (db w) = [ethernet; ethernet]
  ∧ if_type <$> interfaces (db (import_links env_ok w).2) = [wireless; wireless]
  ∧ if_id <$> interfaces (db (import_links env_ok w).2) = if_id <$> interfaces (db w).
Proof.
  cbv zeta. split; [vm_compute; reflexivity|]. split; [reflexivity|].
  split; [vm_compute; reflexivity|].
  exact (proj1 (links_join_wireless_interfaces env_ok
                  (boot settings_plain store_with_interfaces legacy_link [])
                  (import_links env_ok
                     (boot settings_plain store_with_interfaces legacy_link [])).2
                  ltac:(vm_compute; reflexivity))).
Defined.

Lemma contacts_are_copied_as_sent_witness :
  let w := boot settings_plain empty_store legacy_full [] in
  (import_contacts env_ok w).1 = Ret tt
  ∧ from_name <$> saved_contacts (cmd (import_contacts env_ok w).2) = ["Jane"]
  ∧ contacts (db (import_contacts env_ok w).2)
    = contacts (db w) ++ saved_contacts (cmd (import_contacts env_ok w).2).
Proof.
  cbv zeta. split; [vm_compute; reflexivity|]. split; [vm_compute; reflexivity|].
  exact (proj1 (contacts_are_copied_as_sent env_ok
                  (boot settings_plain empty_store legacy_full [])
                  (import_contacts env_ok
                     (boot settings_plain empty_store legacy_full [])).2
                  ltac:(vm_compute; reflexivity))).
Defined.

Lemma saved_users_leave_their_id_witness :
  let w := retrieved settings_plain empty_store [macondo; fusolab] in
  let w' := ((run extract_users; import_users env_username_limit settings_plain) w).2 in
  username <$> saved_users (cmd w') = ["john-doe"]
  ∧ import_node env_username_limit settings_plain [] macondo w'
    = (Raise (KeyError "id"), w').
Proof.
  cbv zeta. split; [vm_compute; reflexivity|].
  refine (proj2 (proj2 (saved_users_leave_their_id env_username_limit settings_plain
                   (retrieved settings_plain empty_store [macondo; fusolab])
                   ((run extract_users; import_users env_username_limit settings_plain)
                      (retrieved settings_plain empty_store [macondo; fusolab])).2
                   ltac:(vm_compute; reflexivity))
                 macondo _ _) _ []).
  - vm_compute. left.
  - intros u Hu. vm_compute in Hu. apply list_elem_of_singleton in Hu. subst u. discriminate.
  - discriminate.
Defined.

End ImporterFacts.
